(** * Location correction engine: model of the C++ sources and its properties

    The development follows the [.cpp] files of [location_correction]:
    - [model/LocationModel.cpp]   : [LocationInfo], [isValid], [setExtra];
    - [util/Utils.cpp]            : distance, datum shift, statistics;
    - [data/DataProcessor.cpp]    : processors and [ProcessorChain];
    - [algorithm/AnomalyDetector.cpp] : detector bank;
    - [algorithm/DataFusion.cpp]  : fusion strategies;
    - [data/DataStorage.cpp]      : file-store line format;
    - [service/LocationService.cpp] : ingest queue.

    Conventions.  A C++ [double] is read as a real number ([R]): rounding,
    infinities and NaN are outside the model.  [long long], [int] and
    [size_t] values are integers ([Z], [nat] for sizes) without wrap-around.
    The wall clock ([getCurrentTimestampMs]) is an explicit argument [now].
    A [std::shared_ptr] result is an [option] ([None] is [nullptr]).
    [std::map<std::string, std::string>] is a [gmap string string]. *)

From Stdlib Require Import Reals Lra Lia ZArith List String Ascii.
From stdpp Require Import gmap strings list fin_maps sorting pretty.

Local Open Scope R_scope.

(** ** Comparisons on [double], as booleans *)

Definition Rleb (x y : R) : bool := if Rle_dec x y then true else false.
Definition Rltb (x y : R) : bool := if Rlt_dec x y then true else false.
Definition Rgeb (x y : R) : bool := Rleb y x.
Definition Rgtb (x y : R) : bool := Rltb y x.

(** ** Data model ([LocationModel.h], [LocationModel.cpp]) *)

(** Enumerators of [DataSourceType]: those of [LocationModel.h] first, in
    declaration order, then the names that only the [.cpp] files use. *)
Inductive DataSourceType : Set :=
  | GNSS | WIFI | BASE_STATION | SENSOR | OTHER
  | BLE | INERTIAL | FUSED | UNKNOWN.

(** Enumerators of [LocationStatus]; [NORMAL] is the name [DataFusion::fuse]
    assigns. *)
Inductive LocationStatus : Set :=
  | VALID | INVALID | LOW_ACCURACY | ANOMALY | NORMAL.

#[global] Instance DataSourceType_eq_dec : EqDecision DataSourceType.
Proof. solve_decision. Defined.

#[global] Instance LocationStatus_eq_dec : EqDecision LocationStatus.
Proof. solve_decision. Defined.

(** The integer value of an enumerator.  [LocationModel.h] fixes the values
    0 to 4 of [DataSourceType] and 0 to 3 of [LocationStatus]; the names used
    only by the [.cpp] files take the next values. *)
Definition DataSourceType_to_nat (t : DataSourceType) : nat :=
  match t with
  | GNSS => 0 | WIFI => 1 | BASE_STATION => 2 | SENSOR => 3
  | OTHER => 4 | BLE => 5 | INERTIAL => 6 | FUSED => 7
  | UNKNOWN => 8
  end.

Definition DataSourceType_of_nat (n : nat) : DataSourceType :=
  match n with
  | 0 => GNSS | 1 => WIFI | 2 => BASE_STATION | 3 => SENSOR
  | 4 => OTHER | 5 => BLE | 6 => INERTIAL | 7 => FUSED
  | _ => UNKNOWN
  end%nat.

Definition LocationStatus_to_nat (s : LocationStatus) : nat :=
  match s with
  | VALID => 0 | INVALID => 1 | LOW_ACCURACY => 2 | ANOMALY => 3 | NORMAL => 4
  end.

Definition LocationStatus_of_nat (n : nat) : LocationStatus :=
  match n with
  | 0 => VALID | 1 => INVALID | 2 => LOW_ACCURACY | 3 => ANOMALY | _ => NORMAL
  end%nat.

#[global] Instance DataSourceType_countable : Countable DataSourceType.
Proof.
  refine (inj_countable' DataSourceType_to_nat DataSourceType_of_nat _).
  by intros [].
Defined.

(** The members of [LocationInfo], as [LocationModel.cpp] initialises them.
    The source kind is [dataSource] there and [sourceType] in the files that
    use it ([DataFusion.cpp], [DataStorage.cpp]); it is [sourceType] here. *)
Record LocationInfo : Type := mkLocationInfo {
  latitude : R;
  longitude : R;
  altitude : R;
  accuracy : R;
  speed : R;
  direction : R;
  timestamp : Z;
  sourceType : DataSourceType;
  status : LocationStatus;
  satelliteCount : Z;
  signalStrength : Z;
  locationType : string;
  provider : string;
  extras : gmap string string
}.

(** [LocationInfo::LocationInfo()] *)
Definition LocationInfo_default : LocationInfo :=
  {| latitude := 0; longitude := 0; altitude := 0; accuracy := 0;
     speed := 0; direction := 0; timestamp := 0%Z;
     sourceType := UNKNOWN; status := INVALID;
     satelliteCount := 0%Z; signalStrength := 0%Z;
     locationType := ""%string; provider := ""%string; extras := ∅ |}.

Definition set_latitude (v : R) (l : LocationInfo) : LocationInfo :=
  {| latitude := v; longitude := longitude l; altitude := altitude l;
     accuracy := accuracy l; speed := speed l; direction := direction l;
     timestamp := timestamp l; sourceType := sourceType l; status := status l;
     satelliteCount := satelliteCount l; signalStrength := signalStrength l;
     locationType := locationType l; provider := provider l;
     extras := extras l |}.

Definition set_longitude (v : R) (l : LocationInfo) : LocationInfo :=
  {| latitude := latitude l; longitude := v; altitude := altitude l;
     accuracy := accuracy l; speed := speed l; direction := direction l;
     timestamp := timestamp l; sourceType := sourceType l; status := status l;
     satelliteCount := satelliteCount l; signalStrength := signalStrength l;
     locationType := locationType l; provider := provider l;
     extras := extras l |}.

Definition set_altitude (v : R) (l : LocationInfo) : LocationInfo :=
  {| latitude := latitude l; longitude := longitude l; altitude := v;
     accuracy := accuracy l; speed := speed l; direction := direction l;
     timestamp := timestamp l; sourceType := sourceType l; status := status l;
     satelliteCount := satelliteCount l; signalStrength := signalStrength l;
     locationType := locationType l; provider := provider l;
     extras := extras l |}.

Definition set_accuracy (v : R) (l : LocationInfo) : LocationInfo :=
  {| latitude := latitude l; longitude := longitude l; altitude := altitude l;
     accuracy := v; speed := speed l; direction := direction l;
     timestamp := timestamp l; sourceType := sourceType l; status := status l;
     satelliteCount := satelliteCount l; signalStrength := signalStrength l;
     locationType := locationType l; provider := provider l;
     extras := extras l |}.

Definition set_timestamp (v : Z) (l : LocationInfo) : LocationInfo :=
  {| latitude := latitude l; longitude := longitude l; altitude := altitude l;
     accuracy := accuracy l; speed := speed l; direction := direction l;
     timestamp := v; sourceType := sourceType l; status := status l;
     satelliteCount := satelliteCount l; signalStrength := signalStrength l;
     locationType := locationType l; provider := provider l;
     extras := extras l |}.

Definition set_sourceType (v : DataSourceType) (l : LocationInfo) : LocationInfo :=
  {| latitude := latitude l; longitude := longitude l; altitude := altitude l;
     accuracy := accuracy l; speed := speed l; direction := direction l;
     timestamp := timestamp l; sourceType := v; status := status l;
     satelliteCount := satelliteCount l; signalStrength := signalStrength l;
     locationType := locationType l; provider := provider l;
     extras := extras l |}.

Definition set_status (v : LocationStatus) (l : LocationInfo) : LocationInfo :=
  {| latitude := latitude l; longitude := longitude l; altitude := altitude l;
     accuracy := accuracy l; speed := speed l; direction := direction l;
     timestamp := timestamp l; sourceType := sourceType l; status := v;
     satelliteCount := satelliteCount l; signalStrength := signalStrength l;
     locationType := locationType l; provider := provider l;
     extras := extras l |}.

(** [LocationInfo::setExtra]: [extras[key] = value]. *)
Definition setExtra (key value : string) (l : LocationInfo) : LocationInfo :=
  {| latitude := latitude l; longitude := longitude l; altitude := altitude l;
     accuracy := accuracy l; speed := speed l; direction := direction l;
     timestamp := timestamp l; sourceType := sourceType l; status := status l;
     satelliteCount := satelliteCount l; signalStrength := signalStrength l;
     locationType := locationType l; provider := provider l;
     extras := <[key := value]> (extras l) |}.

(** [LocationInfo::isValid] *)
Definition isValid (l : LocationInfo) : bool :=
  bool_decide (status l = VALID) &&
  Rgeb (latitude l) (-90) && Rleb (latitude l) 90 &&
  Rgeb (longitude l) (-180) && Rleb (longitude l) 180 &&
  Rgeb (accuracy l) 0 &&
  (0 <? timestamp l)%Z.

(** [FusionStrategy] of [ConfigModel.h] *)
Inductive FusionStrategy : Set := PRIORITY_BASED | WEIGHTED_AVERAGE | ADAPTIVE.

(** [WeightStrategy], as [WeightedAverageFusion::calculateWeights] uses it. *)
Inductive WeightStrategy : Set := EQUAL_WEIGHT | ACCURACY_BASED | CUSTOM.

(** ** String conversions used by the sources

    [doubleToString] is defined in [Utils.cpp] through the stream formatting
    of the C++ library; the other conversions are called by the sources but
    defined in none of the files.  They only produce the text stored in
    [extras] and in anomaly reports, and are taken as given. *)
Class StdFormat : Type := {
  doubleToString : R -> nat -> string;
  intToString : Z -> string;
  sizeToString : nat -> string;
  longLongToString : Z -> string;
  dataSourceTypeToString : DataSourceType -> string;
  fusionStrategyToString : FusionStrategy -> string;
  weightStrategyToString : WeightStrategy -> string
}.

(** A concrete reading of the conversions, used to run the model on sample
    inputs: fixed-point text with [precision] decimals for [double], decimal
    text for integers, the enumerator names for the enumerations. *)
Fixpoint zeros (n : nat) : string :=
  match n with
  | O => ""
  | S n' => "0" ++ zeros n'
  end%string.

Definition fixed_text (value : R) (precision : nat) : string :=
  let scaled := Int_part (Rabs value * 10 ^ precision + / 2) in
  let unit := (10 ^ Z.of_nat precision)%Z in
  let fraction := pretty (scaled mod unit)%Z in
  ((if Rltb value 0 then "-" else "") ++ pretty (scaled / unit)%Z ++ "." ++
   zeros (precision - String.length fraction) ++ fraction)%string.

Definition sample_format : StdFormat :=
  {| doubleToString := fixed_text;
     intToString := pretty;
     sizeToString := pretty;
     longLongToString := pretty;
     dataSourceTypeToString := fun t =>
       match t with
       | GNSS => "GNSS" | WIFI => "WIFI" | BASE_STATION => "BASE_STATION"
       | SENSOR => "SENSOR" | OTHER => "OTHER" | BLE => "BLE"
       | INERTIAL => "INERTIAL" | FUSED => "FUSED" | UNKNOWN => "UNKNOWN"
       end%string;
     fusionStrategyToString := fun s =>
       match s with
       | PRIORITY_BASED => "PRIORITY_BASED"
       | WEIGHTED_AVERAGE => "WEIGHTED_AVERAGE"
       | ADAPTIVE => "ADAPTIVE"
       end%string;
     weightStrategyToString := fun s =>
       match s with
       | EQUAL_WEIGHT => "EQUAL_WEIGHT"
       | ACCURACY_BASED => "ACCURACY_BASED"
       | CUSTOM => "CUSTOM"
       end%string |}.

(** Sample fixes: a satellite fix and a Wi-Fi fix taken 50 ms apart. *)
Definition sat_fix : LocationInfo :=
  {| latitude := 39.9042; longitude := 116.4074; altitude := 0;
     accuracy := 5; speed := 0; direction := 0; timestamp := 1000%Z;
     sourceType := GNSS; status := VALID;
     satelliteCount := 0%Z; signalStrength := 0%Z;
     locationType := ""%string; provider := ""%string; extras := ∅ |}.

Definition wifi_fix : LocationInfo :=
  {| latitude := 39.9043; longitude := 116.4076; altitude := 0;
     accuracy := 20; speed := 0; direction := 0; timestamp := 1050%Z;
     sourceType := WIFI; status := VALID;
     satelliteCount := 0%Z; signalStrength := 0%Z;
     locationType := ""%string; provider := ""%string; extras := ∅ |}.

Definition calm_pair : list LocationInfo := [sat_fix; wifi_fix].

(** A fix with status [VALID], coordinates in range, a positive capture time
    and accuracy exactly 0. *)
Definition zero_accuracy_fix : LocationInfo :=
  {| latitude := 0; longitude := 0; altitude := 0;
     accuracy := 0; speed := 0; direction := 0; timestamp := 1%Z;
     sourceType := GNSS; status := VALID;
     satelliteCount := 0%Z; signalStrength := 0%Z;
     locationType := ""%string; provider := ""%string; extras := ∅ |}.

(** ** Data fusion ([DataFusion.cpp]) *)

Module Fusion.

(** The members of the base class [DataFusion]. *)
Record DataFusion : Type := mkDataFusion {
  enabled : bool;
  minRequiredSources : nat;
  fusionStrategy : FusionStrategy
}.

(** [DataFusion::DataFusion()] *)
Definition DataFusion_new : DataFusion :=
  {| enabled := true; minRequiredSources := 2;
     fusionStrategy := WEIGHTED_AVERAGE |}.

(** [DataFusion::setMinRequiredSources] *)
Definition setMinRequiredSources (count : nat) (f : DataFusion) : DataFusion :=
  {| enabled := enabled f; minRequiredSources := Nat.max 1 count;
     fusionStrategy := fusionStrategy f |}.

(** [DataFusion::setEnabled] *)
Definition setEnabled (enable : bool) (f : DataFusion) : DataFusion :=
  {| enabled := enable; minRequiredSources := minRequiredSources f;
     fusionStrategy := fusionStrategy f |}.

(** [DataFusion::setFusionStrategy] *)
Definition setFusionStrategy (s : FusionStrategy) (f : DataFusion) : DataFusion :=
  {| enabled := enabled f; minRequiredSources := minRequiredSources f;
     fusionStrategy := s |}.

(** *** Priority-based fusion *)

(** [PriorityBasedFusion::PriorityBasedFusion()] fills [sourcePriorities]. *)
Definition default_sourcePriorities : gmap DataSourceType Z :=
  <[INERTIAL := 20%Z]> (<[BLE := 40%Z]> (<[BASE_STATION := 60%Z]>
    (<[WIFI := 80%Z]> (<[GNSS := 100%Z]> ∅)))).

(** [PriorityBasedFusion::setSourcePriority] *)
Definition setSourcePriority (t : DataSourceType) (priority : Z)
    (sourcePriorities : gmap DataSourceType Z) : gmap DataSourceType Z :=
  <[t := priority]> sourcePriorities.

(** [PriorityBasedFusion::getSourcePriority] *)
Definition getSourcePriority (sourcePriorities : gmap DataSourceType Z)
    (t : DataSourceType) : Z :=
  match sourcePriorities !! t with
  | Some p => p
  | None => 0%Z
  end.

(** The comparison passed to [std::sort] in [PriorityBasedFusion::doFuse]. *)
Definition priority_before (sourcePriorities : gmap DataSourceType Z)
    (a b : LocationInfo) : bool :=
  let priorityA := getSourcePriority sourcePriorities (sourceType a) in
  let priorityB := getSourcePriority sourcePriorities (sourceType b) in
  if negb (priorityA =? priorityB)%Z then (priorityB <? priorityA)%Z
  else Rltb (accuracy a) (accuracy b).

(** [std::sort]: elements are inserted one by one in front of the first
    element that does not come strictly before them.  The C++ library leaves
    the relative order of equivalent elements open; here they keep their
    input order. *)
Fixpoint sort_insert {A : Type} (before : A -> A -> bool) (x : A) (l : list A)
    : list A :=
  match l with
  | [] => [x]
  | y :: l' => if before y x then y :: sort_insert before x l' else x :: l
  end.

Fixpoint std_sort {A : Type} (before : A -> A -> bool) (l : list A) : list A :=
  match l with
  | [] => []
  | x :: l' => sort_insert before x (std_sort before l')
  end.

Section WithFormat.
Context {fmt : StdFormat}.

(** [PriorityBasedFusion::doFuse].  [sortedLocations[0]] on an empty vector
    has no defined behaviour; [fuse] never passes one. *)
Definition PriorityBasedFusion_doFuse (sourcePriorities : gmap DataSourceType Z)
    (locations : list LocationInfo) : option LocationInfo :=
  let sortedLocations := std_sort (priority_before sourcePriorities) locations in
  match sortedLocations with
  | [] => None
  | first :: _ =>
      let fusedLocation := first in
      let fusedLocation := setExtra "fusionType" "PRIORITY_BASED" fusedLocation in
      let fusedLocation :=
        setExtra "selectedSourceType"
          (dataSourceTypeToString (sourceType first)) fusedLocation in
      let fusedLocation :=
        setExtra "selectedSourcePriority"
          (intToString (getSourcePriority sourcePriorities (sourceType first)))
          fusedLocation in
      Some fusedLocation
  end.

(** *** Weighted-average fusion *)

(** [WeightedAverageFusion::setCustomWeight] *)
Definition setCustomWeight (t : DataSourceType) (weight : R)
    (customWeights : gmap DataSourceType R) : gmap DataSourceType R :=
  <[t := Rmax 0 weight]> customWeights.

(** [WeightedAverageFusion::getCustomWeight] *)
Definition getCustomWeight (customWeights : gmap DataSourceType R)
    (t : DataSourceType) : R :=
  match customWeights !! t with
  | Some w => w
  | None => 1
  end.

(** The members of [WeightedAverageFusion]. *)
Record WeightedAverageFusion : Type := mkWeightedAverageFusion {
  weightStrategy : WeightStrategy;
  customWeights : gmap DataSourceType R
}.

(** [WeightedAverageFusion::WeightedAverageFusion()] *)
Definition WeightedAverageFusion_new : WeightedAverageFusion :=
  {| weightStrategy := ACCURACY_BASED; customWeights := ∅ |}.

(** [WeightedAverageFusion::setWeightStrategy] *)
Definition setWeightStrategy (s : WeightStrategy) (w : WeightedAverageFusion)
    : WeightedAverageFusion :=
  {| weightStrategy := s; customWeights := customWeights w |}.

(** [setCustomWeight] on the object. *)
Definition withCustomWeight (t : DataSourceType) (weight : R)
    (w : WeightedAverageFusion) : WeightedAverageFusion :=
  {| weightStrategy := weightStrategy w;
     customWeights := setCustomWeight t weight (customWeights w) |}.

(** The two accumulation loops of [calculateWeights]. *)
Definition totalAccuracyInverse (locations : list LocationInfo) : R :=
  fold_left
    (fun total location =>
       if Rgtb (accuracy location) 0 then total + 1 / accuracy location
       else total + 1)
    locations 0.

Definition totalCustomWeight (customWeights : gmap DataSourceType R)
    (locations : list LocationInfo) : R :=
  fold_left
    (fun total location =>
       total + getCustomWeight customWeights (sourceType location))
    locations 0.

(** [WeightedAverageFusion::calculateWeights] *)
Definition calculateWeights (w : WeightedAverageFusion)
    (locations : list LocationInfo) : list R :=
  let size := INR (length locations) in
  match weightStrategy w with
  | EQUAL_WEIGHT => map (fun _ => 1 / size) locations
  | ACCURACY_BASED =>
      let total := totalAccuracyInverse locations in
      map (fun location =>
             if Rgtb total 0 then
               if Rgtb (accuracy location) 0
               then (1 / accuracy location) / total
               else 1 / total
             else 1 / size)
          locations
  | CUSTOM =>
      let total := totalCustomWeight (customWeights w) locations in
      map (fun location =>
             if Rgtb total 0
             then getCustomWeight (customWeights w) (sourceType location) / total
             else 1 / size)
          locations
  end.

(** The running sums of the main loop of [WeightedAverageFusion::doFuse]. *)
Record WeightedSums : Type := mkWeightedSums {
  weightedLat : R;
  weightedLon : R;
  weightedAlt : R;
  weightedAccuracy : R
}.

Definition weighted_step (acc : WeightedSums) (lw : LocationInfo * R)
    : WeightedSums :=
  let (location, weight) := lw in
  {| weightedLat := weightedLat acc + latitude location * weight;
     weightedLon := weightedLon acc + longitude location * weight;
     weightedAlt := weightedAlt acc + altitude location * weight;
     weightedAccuracy :=
       if Rgtb (accuracy location) 0
       then weightedAccuracy acc + weight / accuracy location
       else weightedAccuracy acc |}.

Definition weighted_sums (locations : list LocationInfo) (weights : list R)
    : WeightedSums :=
  fold_left weighted_step (combine locations weights)
    {| weightedLat := 0; weightedLon := 0; weightedAlt := 0;
       weightedAccuracy := 0 |}.

(** The text stored under ["weights"]. *)
Fixpoint weightInfo_items (first : bool) (lws : list (LocationInfo * R))
    : string :=
  match lws with
  | [] => ""
  | (location, weight) :: rest =>
      ((if first then "" else ", ") ++
       dataSourceTypeToString (sourceType location) ++ ":" ++
       doubleToString weight 3 ++ weightInfo_items false rest)%string
  end.

(** [WeightedAverageFusion::doFuse]; [now] is the clock reading. *)
Definition WeightedAverageFusion_doFuse (w : WeightedAverageFusion) (now : Z)
    (locations : list LocationInfo) : option LocationInfo :=
  let weights := calculateWeights w locations in
  let sums := weighted_sums locations weights in
  let fusedLocation := LocationInfo_default in
  let fusedLocation := set_timestamp now fusedLocation in
  let fusedLocation := set_latitude (weightedLat sums) fusedLocation in
  let fusedLocation := set_longitude (weightedLon sums) fusedLocation in
  let fusedLocation := set_altitude (weightedAlt sums) fusedLocation in
  let fusedLocation :=
    if Rgtb (weightedAccuracy sums) 0
    then set_accuracy (1 / weightedAccuracy sums) fusedLocation
    else
      let avgAccuracy :=
        fold_left (fun a location => a + accuracy location) locations 0 in
      set_accuracy (avgAccuracy / INR (length locations)) fusedLocation in
  let fusedLocation := setExtra "fusionType" "WEIGHTED_AVERAGE" fusedLocation in
  let fusedLocation :=
    setExtra "weightStrategy" (weightStrategyToString (weightStrategy w))
      fusedLocation in
  let fusedLocation :=
    setExtra "weights"
      ("[" ++ weightInfo_items true (combine locations weights) ++ "]")%string
      fusedLocation in
  Some fusedLocation.

(** *** The engine: base class and the two strategies *)

Inductive FusionImpl : Type :=
  | BaseImpl
  | PriorityImpl (sourcePriorities : gmap DataSourceType Z)
  | WeightedImpl (w : WeightedAverageFusion).

Record FusionEngine : Type := mkFusionEngine {
  base : DataFusion;
  impl : FusionImpl
}.

(** The virtual [doFuse]; [DataFusion::doFuse] returns [nullptr]. *)
Definition doFuse (e : FusionEngine) (now : Z) (locations : list LocationInfo)
    : option LocationInfo :=
  match impl e with
  | BaseImpl => None
  | PriorityImpl sourcePriorities =>
      PriorityBasedFusion_doFuse sourcePriorities locations
  | WeightedImpl w => WeightedAverageFusion_doFuse w now locations
  end.

(** The filter of [DataFusion::fuse]. *)
Definition usable (location : LocationInfo) : bool :=
  isValid location && negb (bool_decide (status location = ANOMALY)).

(** [DataFusion::fuse] *)
Definition fuse (e : FusionEngine) (now : Z) (locations : list LocationInfo)
    : option LocationInfo :=
  if negb (enabled (base e)) then None
  else if (length locations <? minRequiredSources (base e))%nat then None
  else
    let validLocations := List.filter usable locations in
    if (length validLocations <? minRequiredSources (base e))%nat then None
    else
      match doFuse e now validLocations with
      | None => None
      | Some fusedLocation =>
          let fusedLocation := set_status NORMAL fusedLocation in
          let fusedLocation := set_sourceType FUSED fusedLocation in
          let fusedLocation :=
            setExtra "fusionStrategy"
              (fusionStrategyToString (fusionStrategy (base e))) fusedLocation in
          let fusedLocation :=
            setExtra "sourceCount" (sizeToString (length validLocations))
              fusedLocation in
          Some fusedLocation
      end.

End WithFormat.

(** Engines as the constructors leave them. *)
Definition PriorityBasedFusion_new : FusionEngine :=
  {| base := DataFusion_new; impl := PriorityImpl default_sourcePriorities |}.

Definition WeightedAverageFusion_engine (w : WeightedAverageFusion)
    : FusionEngine :=
  {| base := DataFusion_new; impl := WeightedImpl w |}.

(** A priority-based engine after [setMinRequiredSources(1)]. *)
Definition PriorityBasedFusion_single : FusionEngine :=
  {| base := setMinRequiredSources 1 DataFusion_new;
     impl := PriorityImpl default_sourcePriorities |}.

(** Objects reachable from the constructor through the setters. *)
Inductive configured : WeightedAverageFusion -> Prop :=
  | configured_new : configured WeightedAverageFusion_new
  | configured_strategy s w :
      configured w -> configured (setWeightStrategy s w)
  | configured_weight t weight w :
      configured w -> configured (withCustomWeight t weight w).

(** Smallest and largest element of a list of coordinates (0 when empty). *)
Definition Rmin_list (xs : list R) : R :=
  match xs with
  | [] => 0
  | x :: xs' => fold_left Rmin xs' x
  end.

Definition Rmax_list (xs : list R) : R :=
  match xs with
  | [] => 0
  | x :: xs' => fold_left Rmax xs' x
  end.

(** Largest element of a list of timestamps (0 when empty). *)
Definition Zmax_list (xs : list Z) : Z :=
  match xs with
  | [] => 0%Z
  | x :: xs' => fold_left Z.max xs' x
  end.

(** Sum of a list of reals. *)
Definition Rsum (xs : list R) : R := fold_right Rplus 0 xs.

(** The share a fix adds to [totalAccuracyInverse]. *)
Definition inverse_accuracy (location : LocationInfo) : R :=
  if Rgtb (accuracy location) 0 then 1 / accuracy location else 1.

End Fusion.

(** ** Utilities ([Utils.cpp]) *)

Module Utils.

(** [std::atan2] on real arguments. *)
Definition atan2 (y x : R) : R :=
  if Rgtb x 0 then atan (y / x)
  else if Rltb x 0 then
    if Rgeb y 0 then atan (y / x) + PI else atan (y / x) - PI
  else if Rgtb y 0 then PI / 2
  else if Rltb y 0 then - PI / 2
  else 0.

(** [calculateDistance(lat1, lon1, lat2, lon2)]: the haversine formula. *)
Definition calculateDistance (lat1 lon1 lat2 lon2 : R) : R :=
  let R_earth := 6371000 in
  let radLat1 := lat1 * PI / 180 in
  let radLon1 := lon1 * PI / 180 in
  let radLat2 := lat2 * PI / 180 in
  let radLon2 := lon2 * PI / 180 in
  let dLat := radLat2 - radLat1 in
  let dLon := radLon2 - radLon1 in
  let a := sin (dLat / 2) * sin (dLat / 2) +
           cos radLat1 * cos radLat2 * sin (dLon / 2) * sin (dLon / 2) in
  let c := 2 * atan2 (sqrt a) (sqrt (1 - a)) in
  R_earth * c.

(** [transformLat] *)
Definition transformLat (x y : R) : R :=
  let ret := -100 + 2 * x + 3 * y + 0.2 * y * y + 0.1 * x * y
             + 0.2 * sqrt (Rabs x) in
  let ret := ret + (20 * sin (6 * x * PI) + 20 * sin (2 * x * PI)) * 2 / 3 in
  let ret := ret + (20 * sin (y * PI) + 40 * sin (y / 3 * PI)) * 2 / 3 in
  let ret := ret + (160 * sin (y / 12 * PI) + 320 * sin (y * PI / 30)) * 2 / 3 in
  ret.

(** [transformLon] *)
Definition transformLon (x y : R) : R :=
  let ret := 300 + x + 2 * y + 0.1 * x * x + 0.1 * x * y
             + 0.1 * sqrt (Rabs x) in
  let ret := ret + (20 * sin (6 * x * PI) + 20 * sin (2 * x * PI)) * 2 / 3 in
  let ret := ret + (20 * sin (x * PI) + 40 * sin (x / 3 * PI)) * 2 / 3 in
  let ret := ret + (150 * sin (x / 12 * PI) + 300 * sin (x / 30 * PI)) * 2 / 3 in
  ret.

(** [isInsideChina] *)
Definition isInsideChina (lat lon : R) : bool :=
  Rgeb lat 0.8293 && Rleb lat 55.8271 && Rgeb lon 73.4976 && Rleb lon 135.0841.

(** The constants of the two datum conversions. *)
Definition ellipsoid_a : R := 6378245.
Definition ellipsoid_ee : R := 0.00669342162296594323.

(** The latitude and longitude offsets both conversions compute. *)
Definition datum_dLat (lat lon : R) : R :=
  let dLat := transformLat (lon - 105) (lat - 35) in
  let radLat := lat / 180 * PI in
  let magic := sin radLat in
  let magic := 1 - ellipsoid_ee * magic * magic in
  let sqrtMagic := sqrt magic in
  (dLat * 180) /
  ((ellipsoid_a * (1 - ellipsoid_ee)) / (magic * sqrtMagic) * PI).

Definition datum_dLon (lat lon : R) : R :=
  let dLon := transformLon (lon - 105) (lat - 35) in
  let radLat := lat / 180 * PI in
  let magic := sin radLat in
  let magic := 1 - ellipsoid_ee * magic * magic in
  let sqrtMagic := sqrt magic in
  (dLon * 180) / (ellipsoid_a / sqrtMagic * cos radLat * PI).

(** [wgs84ToGcj02] *)
Definition wgs84ToGcj02 (wgs84 : LocationInfo) : LocationInfo :=
  let gcj02 := wgs84 in
  let lat := latitude wgs84 in
  let lon := longitude wgs84 in
  if negb (isInsideChina lat lon) then gcj02
  else
    let gcj02 := set_latitude (lat + datum_dLat lat lon) gcj02 in
    let gcj02 := set_longitude (lon + datum_dLon lat lon) gcj02 in
    gcj02.

(** [gcj02ToWgs84] *)
Definition gcj02ToWgs84 (gcj02 : LocationInfo) : LocationInfo :=
  let wgs84 := gcj02 in
  let lat := latitude gcj02 in
  let lon := longitude gcj02 in
  if negb (isInsideChina lat lon) then wgs84
  else
    let wgs84 := set_latitude (lat - datum_dLat lat lon) wgs84 in
    let wgs84 := set_longitude (lon - datum_dLon lat lon) wgs84 in
    wgs84.

(** [calculateAverage] *)
Definition calculateAverage (values : list R) : R :=
  match values with
  | [] => 0
  | _ => fold_left Rplus values 0 / INR (length values)
  end.

(** [calculateStandardDeviation(values)] *)
Definition calculateStandardDeviation (values : list R) : R :=
  if (length values <? 2)%nat then 0
  else
    let avg := calculateAverage values in
    let sumSquaredDiff :=
      fold_left (fun sum value => let diff := value - avg in sum + diff * diff)
        values 0 in
    sqrt (sumSquaredDiff / INR (length values - 1)).

End Utils.

(** ** Processors ([DataProcessor.cpp]) *)

Module Processor.

Inductive CoordinateSystem : Set := WGS84 | GCJ02.

#[global] Instance CoordinateSystem_eq_dec : EqDecision CoordinateSystem.
Proof. solve_decision. Defined.

(** What a call of [doProcess] does to the location it is given: it returns
    [success] and leaves the location as [processed], or it throws. *)
Inductive DoProcessResult : Type :=
  | Returned (success : bool) (processed : LocationInfo)
  | Threw.

(** [BaseDataProcessor::process], for a stage with state [S].  The state
    changes made by [doProcess] stay, whatever it returns. *)
Definition BaseDataProcessor_process {S : Type}
    (doProcess : S -> Z -> LocationInfo -> S * DoProcessResult)
    (isEnabled : bool) (stage : S) (now : Z) (location : LocationInfo)
    : S * option LocationInfo :=
  if negb isEnabled then (stage, Some location)
  else
    match doProcess stage now location with
    | (stage', Returned true processedLocation) =>
        (stage', Some processedLocation)
    | (stage', Returned false _) => (stage', Some location)
    | (stage', Threw) => (stage', Some location)
    end.

(** [trimHistory]: [pop_front] while the history is longer than the limit. *)
Fixpoint trimHistory (maxHistorySize : nat) (history : list LocationInfo)
    : list LocationInfo :=
  match history with
  | [] => []
  | _ :: rest =>
      if (maxHistorySize <? length history)%nat
      then trimHistory maxHistorySize rest
      else history
  end.

(** The members of [OutlierDetectionProcessor]. *)
Record OutlierDetection : Type := mkOutlierDetection {
  thresholdFactor : R;
  maxHistorySize : nat;
  minSampleSize : nat;
  history : list LocationInfo
}.

(** [OutlierDetectionProcessor::OutlierDetectionProcessor()] *)
Definition OutlierDetection_new : OutlierDetection :=
  {| thresholdFactor := 2; maxHistorySize := 50; minSampleSize := 5;
     history := [] |}.

Definition set_history (h : list LocationInfo) (o : OutlierDetection)
    : OutlierDetection :=
  {| thresholdFactor := thresholdFactor o; maxHistorySize := maxHistorySize o;
     minSampleSize := minSampleSize o; history := h |}.

(** [OutlierDetectionProcessor::setThresholdFactor] *)
Definition setThresholdFactor (factor : R) (o : OutlierDetection)
    : OutlierDetection :=
  {| thresholdFactor := Rmax 1 factor; maxHistorySize := maxHistorySize o;
     minSampleSize := minSampleSize o; history := history o |}.

(** [OutlierDetectionProcessor::setMaxHistorySize] *)
Definition setMaxHistorySize (size : nat) (o : OutlierDetection)
    : OutlierDetection :=
  let newMax := Nat.max (minSampleSize o) size in
  {| thresholdFactor := thresholdFactor o; maxHistorySize := newMax;
     minSampleSize := minSampleSize o;
     history := trimHistory newMax (history o) |}.

(** [OutlierDetectionProcessor::clearHistory] *)
Definition clearHistory (o : OutlierDetection) : OutlierDetection :=
  set_history [] o.

(** [OutlierDetectionProcessor::calculateStatistics]: average latitude,
    average longitude and the deviation of the distances to that centre. *)
Definition calculateStatistics (history : list LocationInfo) : R * R * R :=
  let sumLat := fold_left (fun s loc => s + latitude loc) history 0 in
  let sumLon := fold_left (fun s loc => s + longitude loc) history 0 in
  let avgLat := sumLat / INR (length history) in
  let avgLon := sumLon / INR (length history) in
  let distances :=
    map (fun loc =>
           Utils.calculateDistance (latitude loc) (longitude loc) avgLat avgLon)
        history in
  let stdDev := Utils.calculateStandardDeviation distances in
  let stdDev := if Rltb stdDev 0.0001 then 1 else stdDev in
  (avgLat, avgLon, stdDev).

(** The processors of the chain, as a closed variant with their members. *)
Inductive Stage : Type :=
  | AccuracyFilter (minAccuracy maxAccuracy : R)
  | TimeFilter (maxTimeDiff : Z)
  | OutlierDetector (o : OutlierDetection)
  | CoordinateConverter (sourceSystem targetSystem : CoordinateSystem).

(** The constructors. *)
Definition AccuracyFilterProcessor_new : Stage := AccuracyFilter 0 100.
Definition TimeFilterProcessor_new : Stage := TimeFilter 300000.
Definition OutlierDetectionProcessor_new : Stage :=
  OutlierDetector OutlierDetection_new.
Definition CoordinateConverterProcessor_new : Stage :=
  CoordinateConverter WGS84 GCJ02.

Section WithFormat.
Context {fmt : StdFormat}.

(** The effect of [AccuracyFilterProcessor::doProcess] on the location. *)
Definition AccuracyFilter_apply (minAccuracy maxAccuracy : R)
    (location : LocationInfo) : LocationInfo :=
  if Rltb (accuracy location) minAccuracy
     || Rgtb (accuracy location) maxAccuracy
  then set_status LOW_ACCURACY location
  else location.

(** [AccuracyFilterProcessor::doProcess]: it returns [true] also when the
    accuracy is out of range. *)
Definition AccuracyFilter_doProcess (minAccuracy maxAccuracy : R)
    (location : LocationInfo) : DoProcessResult :=
  Returned true (AccuracyFilter_apply minAccuracy maxAccuracy location).

(** The effect of [TimeFilterProcessor::doProcess] on the location. *)
Definition TimeFilter_apply (maxTimeDiff : Z) (now : Z)
    (location : LocationInfo) : LocationInfo :=
  let currentTime := now in
  let timeDiff := (currentTime - timestamp location)%Z in
  if (maxTimeDiff <? timeDiff)%Z then set_status INVALID location
  else location.

(** [TimeFilterProcessor::doProcess] *)
Definition TimeFilter_doProcess (maxTimeDiff : Z) (now : Z)
    (location : LocationInfo) : DoProcessResult :=
  Returned true (TimeFilter_apply maxTimeDiff now location).

(** The effect of [OutlierDetectionProcessor::doProcess] on the history and
    on the location; every path of the function returns [true]. *)
Definition OutlierDetection_step (o : OutlierDetection)
    (location : LocationInfo) : OutlierDetection * LocationInfo :=
  if negb (isValid location) then (o, location)
  else if (length (history o) <? minSampleSize o)%nat then
    (set_history (history o ++ [location]) o, location)
  else
    let '(avgLat, avgLon, stdDev) := calculateStatistics (history o) in
    let distance :=
      Utils.calculateDistance (latitude location) (longitude location)
        avgLat avgLon in
    if Rgtb distance (thresholdFactor o * stdDev) then
      let location := set_status ANOMALY location in
      let location := setExtra "isOutlier" "true" location in
      let location :=
        setExtra "outlierDistance" (doubleToString distance 2) location in
      let location :=
        setExtra "threshold" (doubleToString (thresholdFactor o * stdDev) 2)
          location in
      (o, location)
    else
      (set_history
         (trimHistory (maxHistorySize o) (history o ++ [location])) o,
       location).

(** [OutlierDetectionProcessor::doProcess] *)
Definition OutlierDetection_doProcess (o : OutlierDetection)
    (location : LocationInfo) : OutlierDetection * DoProcessResult :=
  let r := OutlierDetection_step o location in
  (r.1, Returned true r.2).

(** The effect of [CoordinateConverterProcessor::doProcess] on the location;
    the conversions of [Utils.cpp] do not throw, so the function returns
    [true]. *)
Definition CoordinateConverter_convert
    (sourceSystem targetSystem : CoordinateSystem) (location : LocationInfo)
    : LocationInfo :=
  if bool_decide (sourceSystem = targetSystem) then location
  else if bool_decide (sourceSystem = WGS84) && bool_decide (targetSystem = GCJ02)
  then
    let gcj02 := Utils.wgs84ToGcj02 location in
    let location := set_latitude (latitude gcj02) location in
    let location := set_longitude (longitude gcj02) location in
    setExtra "coordinateSystem" "GCJ02" location
  else if bool_decide (sourceSystem = GCJ02) && bool_decide (targetSystem = WGS84)
  then
    let wgs84 := Utils.gcj02ToWgs84 location in
    let location := set_latitude (latitude wgs84) location in
    let location := set_longitude (longitude wgs84) location in
    setExtra "coordinateSystem" "WGS84" location
  else location.

(** [CoordinateConverterProcessor::doProcess] *)
Definition CoordinateConverter_doProcess
    (sourceSystem targetSystem : CoordinateSystem) (location : LocationInfo)
    : DoProcessResult :=
  Returned true (CoordinateConverter_convert sourceSystem targetSystem location).

(** The virtual [doProcess]. *)
Definition doProcess (stage : Stage) (now : Z) (location : LocationInfo)
    : Stage * DoProcessResult :=
  match stage with
  | AccuracyFilter minAccuracy maxAccuracy =>
      (stage, AccuracyFilter_doProcess minAccuracy maxAccuracy location)
  | TimeFilter maxTimeDiff =>
      (stage, TimeFilter_doProcess maxTimeDiff now location)
  | OutlierDetector o =>
      let r := OutlierDetection_doProcess o location in
      (OutlierDetector r.1, r.2)
  | CoordinateConverter sourceSystem targetSystem =>
      (stage, CoordinateConverter_doProcess sourceSystem targetSystem location)
  end.

(** A processor: the members of [DataProcessor] and the stage itself. *)
Record DataProcessor : Type := mkDataProcessor {
  enabled : bool;
  priority : Z;
  stage : Stage
}.

(** A processor as its constructor leaves it: enabled, priority 0. *)
Definition DataProcessor_new (s : Stage) : DataProcessor :=
  {| enabled := true; priority := 0%Z; stage := s |}.

(** [process] of one processor of the chain. *)
Definition process (p : DataProcessor) (now : Z) (location : LocationInfo)
    : DataProcessor * option LocationInfo :=
  let (stage', r) :=
    BaseDataProcessor_process doProcess (enabled p) (stage p) now location in
  ({| enabled := enabled p; priority := priority p; stage := stage' |}, r).

(** The members of [ProcessorChain]; [stopOnInvalid] stands for
    [getParameter("stopOnInvalid", "false") == "true"]. *)
Record ProcessorChain : Type := mkProcessorChain {
  processors : list DataProcessor;
  stopOnInvalid : bool
}.

(** [ProcessorChain::sortProcessorsByPriority] *)
Definition sortProcessorsByPriority (ps : list DataProcessor)
    : list DataProcessor :=
  Fusion.std_sort (fun p1 p2 => (priority p1 <? priority p2)%Z) ps.

(** [ProcessorChain::addProcessor] *)
Definition addProcessor (p : DataProcessor) (c : ProcessorChain)
    : ProcessorChain :=
  {| processors := sortProcessorsByPriority (processors c ++ [p]);
     stopOnInvalid := stopOnInvalid c |}.

(** The loop of [ProcessorChain::process] over the processors. *)
Fixpoint process_loop (stop : bool) (now : Z) (ps : list DataProcessor)
    (currentLocation : LocationInfo) : list DataProcessor * LocationInfo :=
  match ps with
  | [] => ([], currentLocation)
  | processor :: rest =>
      if enabled processor then
        let (processor', processed) := process processor now currentLocation in
        let currentLocation :=
          match processed with
          | Some l => l
          | None => currentLocation
          end in
        if negb (isValid currentLocation) && stop
        then (processor' :: rest, currentLocation)
        else
          let (rest', final) := process_loop stop now rest currentLocation in
          (processor' :: rest', final)
      else
        let (rest', final) := process_loop stop now rest currentLocation in
        (processor :: rest', final)
  end.

(** [ProcessorChain::process] *)
Definition chain_process (c : ProcessorChain) (now : Z)
    (location : LocationInfo) : ProcessorChain * option LocationInfo :=
  match processors c with
  | [] => (c, Some location)
  | _ =>
      let (ps', final) :=
        process_loop (stopOnInvalid c) now (processors c) location in
      ({| processors := ps'; stopOnInvalid := stopOnInvalid c |}, Some final)
  end.

End WithFormat.

(** A chain of the four stages in their order, each enabled, with the
    given parameters and outlier-detector state. *)
Definition four_stage_chain (minAccuracy maxAccuracy : R) (maxTimeDiff : Z)
    (o : OutlierDetection) (sourceSystem targetSystem : CoordinateSystem)
    : ProcessorChain :=
  {| processors :=
       [DataProcessor_new (AccuracyFilter minAccuracy maxAccuracy);
        DataProcessor_new (TimeFilter maxTimeDiff);
        DataProcessor_new (OutlierDetector o);
        DataProcessor_new (CoordinateConverter sourceSystem targetSystem)];
     stopOnInvalid := false |}.

(** Offsets from the point (35, 105) for which the datum shift is bounded
    below: a little east and a little south of it. *)
Definition near_centre (x y : R) : Prop := 0 <= x <= 0.02 /\ -0.01 <= y <= 0.

(** A valid satellite fix at latitude 35, longitude 105. *)
Definition centre_fix : LocationInfo :=
  {| latitude := 35; longitude := 105; altitude := 0;
     accuracy := 5; speed := 0; direction := 0; timestamp := 1000%Z;
     sourceType := GNSS; status := VALID;
     satelliteCount := 0%Z; signalStrength := 0%Z;
     locationType := ""%string; provider := ""%string; extras := ∅ |}.

(** The chain [BaseLocationService::initializeProcessorChain] builds. *)
Definition standard_chain : ProcessorChain :=
  addProcessor (DataProcessor_new CoordinateConverterProcessor_new)
    (addProcessor (DataProcessor_new OutlierDetectionProcessor_new)
       (addProcessor (DataProcessor_new TimeFilterProcessor_new)
          (addProcessor (DataProcessor_new AccuracyFilterProcessor_new)
             {| processors := []; stopOnInvalid := false |}))).

End Processor.

(** ** Ingest queue ([LocationService.cpp]) *)

Module Service.

(** The members of [BaseLocationService] that hold data; collaborators
    (data sources, chain, corrector, storage, listener) are left out. *)
Record BaseLocationService : Type := mkBaseLocationService {
  isRunning_ : bool;
  maxQueueSize : nat;
  locationDataQueue_ : list LocationInfo;
  lastLocation_ : option LocationInfo
}.

(** [BaseLocationService::onLocationDataReceived] *)
Definition onLocationDataReceived (location : LocationInfo)
    (s : BaseLocationService) : BaseLocationService :=
  let queue := locationDataQueue_ s ++ [location] in
  let queue :=
    if (maxQueueSize s <? length queue)%nat then tail queue else queue in
  {| isRunning_ := isRunning_ s; maxQueueSize := maxQueueSize s;
     locationDataQueue_ := queue; lastLocation_ := lastLocation_ s |}.

(** A service whose queue of capacity one holds the satellite fix. *)
Definition full_service : BaseLocationService :=
  {| isRunning_ := true; maxQueueSize := 1;
     locationDataQueue_ := [sat_fix]; lastLocation_ := None |}.

End Service.

(** ** Anomaly detectors ([AnomalyDetector.cpp]) *)

Module Detector.

(** [AnomalyResult], as the sources fill it. *)
Record AnomalyResult : Type := mkAnomalyResult {
  isAnomaly : bool;
  confidence : R;
  anomalyInfo : gmap string string
}.

(** [result.isAnomaly = false; result.confidence = 0.0;] *)
Definition AnomalyResult_clear : AnomalyResult :=
  {| isAnomaly := false; confidence := 0; anomalyInfo := ∅ |}.

(** The members of the base class [AnomalyDetector]. *)
Record AnomalyDetector : Type := mkAnomalyDetector {
  enabled : bool;
  threshold : R;
  minSampleSize : nat
}.

(** [AnomalyDetector::AnomalyDetector()] *)
Definition AnomalyDetector_new : AnomalyDetector :=
  {| enabled := true; threshold := 0; minSampleSize := 5 |}.

(** [AnomalyDetector::setThreshold] *)
Definition setThreshold (thresh : R) (d : AnomalyDetector) : AnomalyDetector :=
  {| enabled := enabled d; threshold := Rmax 0 thresh;
     minSampleSize := minSampleSize d |}.

(** [AnomalyDetector::setMinSampleSize] *)
Definition setMinSampleSize (size : nat) (d : AnomalyDetector)
    : AnomalyDetector :=
  {| enabled := enabled d; threshold := threshold d;
     minSampleSize := Nat.max 1 size |}.

(** [AnomalyDetector::detectAnomaly], for a detector with state [S]. *)
Definition detectAnomaly {S : Type}
    (doDetectAnomaly :
       S -> Z -> LocationInfo -> list LocationInfo -> S * AnomalyResult)
    (d : AnomalyDetector) (detector : S) (now : Z)
    (location : LocationInfo) (context : list LocationInfo)
    : S * AnomalyResult :=
  let result := AnomalyResult_clear in
  if negb (enabled d) || (length context <? minSampleSize d)%nat
  then (detector, result)
  else doDetectAnomaly detector now location context.

(** Modelled from the spec: [calculateMean] is called by
    [StatisticalAnomalyDetector::doDetectAnomaly] and defined in none of the
    files; the spec speaks of the window mean, so it is the arithmetic mean,
    as [calculateAverage] of [Utils.cpp]. *)
Definition calculateMean (values : list R) : R :=
  Utils.calculateAverage values.

(** Modelled from the spec: [calculateStandardDeviation(values, mean)] is
    called with the mean as second argument and defined in none of the files;
    the spec speaks of the window standard deviation, so it is the deviation
    around the given mean, with the divisor of the one-argument function of
    [Utils.cpp]. *)
Definition calculateStandardDeviation (values : list R) (mean : R) : R :=
  if (length values <? 2)%nat then 0
  else
    let sumSquaredDiff :=
      fold_left (fun sum value => let diff := value - mean in sum + diff * diff)
        values 0 in
    sqrt (sumSquaredDiff / INR (length values - 1)).

Section WithFormat.
Context {fmt : StdFormat}.

(** *** Time-gap detector *)

(** [TimeDifferenceAnomalyDetector::setMaxTimeDifference] *)
Definition setMaxTimeDifference (diffMs : Z) : Z := Z.max 0 diffMs.

(** [TimeDifferenceAnomalyDetector::doDetectAnomaly] *)
Definition TimeDifference_doDetectAnomaly (maxTimeDiff : Z) (now : Z)
    (location : LocationInfo) (context : list LocationInfo) : AnomalyResult :=
  let result := AnomalyResult_clear in
  let currentTime := now in
  let timeDiff := (currentTime - timestamp location)%Z in
  if (maxTimeDiff <? timeDiff)%Z then
    let normalizedDiff := IZR timeDiff / IZR maxTimeDiff in
    {| isAnomaly := true;
       confidence := Rmin 1 normalizedDiff;
       anomalyInfo :=
         <["maxAllowed"%string := longLongToString maxTimeDiff]>
           (<["timeDiff"%string := longLongToString timeDiff]>
              (<["type"%string := "TIME_DIFFERENCE"%string]>
                 (anomalyInfo result))) |}
  else result.

(** *** Speed detector *)

(** The state of the search loop of
    [DistanceDeviationAnomalyDetector::doDetectAnomaly]. *)
Record PreviousSearch : Type := mkPreviousSearch {
  previousLocation : LocationInfo;
  foundPrevious : bool;
  minTimeDiff : Z
}.

Definition LLONG_MAX : Z := 9223372036854775807.

Definition previous_step (location : LocationInfo) (st : PreviousSearch)
    (ctxLoc : LocationInfo) : PreviousSearch :=
  if (timestamp ctxLoc <? timestamp location)%Z then
    let timeDiff := (timestamp location - timestamp ctxLoc)%Z in
    if (timeDiff <? minTimeDiff st)%Z then
      {| previousLocation := ctxLoc; foundPrevious := true;
         minTimeDiff := timeDiff |}
    else st
  else st.

(** [DistanceDeviationAnomalyDetector::doDetectAnomaly] *)
Definition DistanceDeviation_doDetectAnomaly (d : AnomalyDetector)
    (maxSpeed : R) (location : LocationInfo) (context : list LocationInfo)
    : AnomalyResult :=
  let result := AnomalyResult_clear in
  if (length context <? minSampleSize d)%nat then result
  else
    let found :=
      fold_left (previous_step location) context
        {| previousLocation := LocationInfo_default; foundPrevious := false;
           minTimeDiff := LLONG_MAX |} in
    if foundPrevious found && (0 <? minTimeDiff found)%Z then
      let distance :=
        Utils.calculateDistance
          (latitude (previousLocation found))
          (longitude (previousLocation found))
          (latitude location) (longitude location) in
      let speed := distance / (IZR (minTimeDiff found) / 1000) in
      if Rgtb speed maxSpeed then
        let speedRatio := speed / maxSpeed in
        {| isAnomaly := true;
           confidence := Rmin 1 (speedRatio - 1);
           anomalyInfo :=
             <["timeDiff"%string := longLongToString (minTimeDiff found)]>
               (<["distance"%string := doubleToString distance 2]>
                  (<["maxAllowedSpeed"%string := doubleToString maxSpeed 2]>
                     (<["calculatedSpeed"%string := doubleToString speed 2]>
                        (<["type"%string := "SPEED_EXCEEDANCE"%string]>
                           (anomalyInfo result))))) |}
      else result
    else result.

(** *** Statistical detector *)

(** The members of [StatisticalAnomalyDetector]. *)
Record Statistical : Type := mkStatistical {
  base : AnomalyDetector;
  zScoreThreshold : R;
  historySize : nat;
  history : list LocationInfo
}.

(** [StatisticalAnomalyDetector::StatisticalAnomalyDetector()] *)
Definition Statistical_new : Statistical :=
  {| base := setThreshold 2 AnomalyDetector_new;
     zScoreThreshold := 2; historySize := 50; history := [] |}.

Definition set_history (h : list LocationInfo) (s : Statistical) : Statistical :=
  {| base := base s; zScoreThreshold := zScoreThreshold s;
     historySize := historySize s; history := h |}.

(** [StatisticalAnomalyDetector::setZScoreThreshold] *)
Definition setZScoreThreshold (t : R) (s : Statistical) : Statistical :=
  {| base := setThreshold (Rmax 0 t) (base s); zScoreThreshold := Rmax 0 t;
     historySize := historySize s; history := history s |}.

(** [StatisticalAnomalyDetector::addLocationToHistory] *)
Definition addLocationToHistory (location : LocationInfo) (s : Statistical)
    : Statistical :=
  set_history
    (Processor.trimHistory (historySize s) (history s ++ [location])) s.

(** The z-score of one quantity: 0 unless the deviation is positive. *)
Definition zScore (value mean stdDev : R) : R :=
  if Rgtb stdDev 0 then Rabs (value - mean) / stdDev else 0.

(** [StatisticalAnomalyDetector::doDetectAnomaly] *)
Definition Statistical_doDetectAnomaly (s : Statistical)
    (location : LocationInfo) (context : list LocationInfo)
    : Statistical * AnomalyResult :=
  let result := AnomalyResult_clear in
  let combinedContext := context ++ history s in
  if (length combinedContext <? minSampleSize (base s))%nat then
    (set_history
       (Processor.trimHistory (historySize s) (history s ++ [location])) s,
     result)
  else
    let latitudes := map latitude combinedContext in
    let longitudes := map longitude combinedContext in
    let accuracies := map accuracy combinedContext in
    let meanLat := calculateMean latitudes in
    let meanLon := calculateMean longitudes in
    let meanAccuracy := calculateMean accuracies in
    let stdDevLat := calculateStandardDeviation latitudes meanLat in
    let stdDevLon := calculateStandardDeviation longitudes meanLon in
    let stdDevAccuracy := calculateStandardDeviation accuracies meanAccuracy in
    let zScoreLat := zScore (latitude location) meanLat stdDevLat in
    let zScoreLon := zScore (longitude location) meanLon stdDevLon in
    let zScoreAccuracy :=
      zScore (accuracy location) meanAccuracy stdDevAccuracy in
    let isLatAnomaly := Rgtb zScoreLat (zScoreThreshold s) in
    let isLonAnomaly := Rgtb zScoreLon (zScoreThreshold s) in
    let isAccuracyAnomaly := Rgtb zScoreAccuracy (zScoreThreshold s * 2) in
    let anomalous := isLatAnomaly || isLonAnomaly || isAccuracyAnomaly in
    let maxZScore := Rmax (Rmax zScoreLat zScoreLon) (zScoreAccuracy / 2) in
    let conf :=
      Rmin 1 ((maxZScore - zScoreThreshold s) / zScoreThreshold s) in
    let info :=
      if anomalous then
        <["threshold"%string := doubleToString (zScoreThreshold s) 2]>
          (<["zScoreAccuracy"%string := doubleToString zScoreAccuracy 2]>
             (<["zScoreLon"%string := doubleToString zScoreLon 2]>
                (<["zScoreLat"%string := doubleToString zScoreLat 2]>
                   (<["type"%string := "STATISTICAL"%string]>
                      (anomalyInfo result)))))
      else anomalyInfo result in
    let s' :=
      if negb anomalous then
        set_history
          (Processor.trimHistory (historySize s) (history s ++ [location])) s
      else s in
    (s', {| isAnomaly := anomalous; confidence := conf; anomalyInfo := info |}).

(** [detectAnomaly] of the statistical detector. *)
Definition Statistical_detectAnomaly (s : Statistical)
    (location : LocationInfo) (context : list LocationInfo)
    : Statistical * AnomalyResult :=
  detectAnomaly (fun st _ => Statistical_doDetectAnomaly st)
    (base s) s 0%Z location context.

(** [detectAnomaly] of the time-gap detector. *)
Definition TimeDifference_detectAnomaly (d : AnomalyDetector)
    (maxTimeDiff : Z) (now : Z) (location : LocationInfo)
    (context : list LocationInfo) : AnomalyResult :=
  (detectAnomaly
     (fun m n l c => (m, TimeDifference_doDetectAnomaly m n l c))
     d maxTimeDiff now location context).2.

(** [detectAnomaly] of the speed detector. *)
Definition DistanceDeviation_detectAnomaly (d : AnomalyDetector)
    (maxSpeed : R) (location : LocationInfo) (context : list LocationInfo)
    : AnomalyResult :=
  (detectAnomaly
     (fun m _ l c => (m, DistanceDeviation_doDetectAnomaly d m l c))
     d maxSpeed 0%Z location context).2.

End WithFormat.

(** Five readings of the satellite fix. *)
Definition still_context : list LocationInfo :=
  [sat_fix; sat_fix; sat_fix; sat_fix; sat_fix].

(** The satellite fix after the outlier stage has marked it. *)
Definition marked_fix : LocationInfo := set_status ANOMALY sat_fix.

(** Five readings spread over two degrees of latitude, and a fix three
    degrees north of their mean. *)
Definition spread_context : list LocationInfo :=
  [set_latitude (-1) sat_fix; set_latitude 1 sat_fix;
   set_latitude (-1) sat_fix; set_latitude 1 sat_fix; set_latitude 0 sat_fix].

Definition far_fix : LocationInfo := set_latitude 3 sat_fix.

End Detector.

(** The calls that reach the history of an [OutlierDetectionProcessor]. *)
Inductive OutlierCall : Type :=
  | CallDoProcess (location : LocationInfo)
  | CallSetMaxHistorySize (size : nat)
  | CallSetThresholdFactor (factor : R)
  | CallClearHistory.

Definition outlier_call {fmt : StdFormat} (o : Processor.OutlierDetection)
    (c : OutlierCall) : Processor.OutlierDetection :=
  match c with
  | CallDoProcess location => (Processor.OutlierDetection_step o location).1
  | CallSetMaxHistorySize size => Processor.setMaxHistorySize size o
  | CallSetThresholdFactor factor => Processor.setThresholdFactor factor o
  | CallClearHistory => Processor.clearHistory o
  end.

Definition outlier_calls {fmt : StdFormat} (calls : list OutlierCall)
    (o : Processor.OutlierDetection) : Processor.OutlierDetection :=
  fold_left outlier_call calls o.

(** ** File store: one line per location ([DataStorage.cpp]) *)

Module Storage.

(** Stream insertion ([ss << value]) and the conversions [std::stoll],
    [std::stod], [std::stoi] belong to the C++ library and are taken as given.
    A conversion that throws returns [None]. *)
Class StdText : Type := {
  put_longlong : Z -> string;
  put_double : R -> string;
  put_int : Z -> string;
  stoll : string -> option Z;
  stod : string -> option R;
  stoi : string -> option Z
}.

(** [static_cast<int>(enumerator)] and [static_cast<Enum>(int)].  An integer
    that names no enumerator is kept by C++ as a value without a name; the
    model has no such value and reports it. *)
Definition DataSourceType_code (t : DataSourceType) : Z :=
  Z.of_nat (DataSourceType_to_nat t).

Definition DataSourceType_of_code (n : Z) : option DataSourceType :=
  if (0 <=? n)%Z && (n <=? 8)%Z then Some (DataSourceType_of_nat (Z.to_nat n))
  else None.

Definition LocationStatus_code (s : LocationStatus) : Z :=
  Z.of_nat (LocationStatus_to_nat s).

Definition LocationStatus_of_code (n : Z) : option LocationStatus :=
  if (0 <=? n)%Z && (n <=? 4)%Z then Some (LocationStatus_of_nat (Z.to_nat n))
  else None.

(** Does the character occur in the string? *)
Fixpoint contains (c : ascii) (s : string) : bool :=
  match s with
  | EmptyString => false
  | String c' s' => Ascii.eqb c c' || contains c s'
  end.

(** Iteration over a [std::map]: in ascending order of the keys. *)
Definition key_le (p q : string * string) : Prop := String.leb p.1 q.1 = true.

#[global] Instance key_le_dec : RelDecision key_le.
Proof. intros p q. unfold key_le. apply _. Defined.

Definition getExtras (location : LocationInfo) : list (string * string) :=
  merge_sort key_le (map_to_list (extras location)).

(** The text of the extras: [",[" << key << ":" << value << "]"] for each. *)
Fixpoint extras_text (kvs : list (string * string)) : string :=
  match kvs with
  | [] => ""
  | (key, value) :: rest =>
      (",[" ++ key ++ ":" ++ value ++ "]" ++ extras_text rest)%string
  end.

(** What went wrong in [deserializeLocation]. *)
Inductive ParseError : Set :=
  | InvalidArgument    (* std::stoll, std::stod or std::stoi threw *)
  | UnnamedEnumerator. (* the integer names no enumerator *)

(** Results with errors, and sequencing. *)
Definition Parse (A : Type) : Type := ParseError + A.

Definition bind {A B : Type} (c : Parse A) (k : A -> Parse B) : Parse B :=
  match c with
  | inl e => inl e
  | inr a => k a
  end.

Notation "x <- c ;; k" := (bind c (fun x => k))
  (at level 100, c at next level, right associativity).

(** The tokens [std::getline(ss, token, ',')] returns one after the other
    from a stream holding [data]: the pieces between commas; a stream that is
    empty, or exhausted right after a comma, gives no further token. *)
Fixpoint tokens_from (current : string) (data : string) : list string :=
  match data with
  | EmptyString => [current]
  | String c rest =>
      if Ascii.eqb c ","
      then current ::
           match rest with
           | EmptyString => []
           | _ => tokens_from "" rest
           end
      else tokens_from (current ++ String c "") rest
  end.

Definition stream_tokens (data : string) : list string :=
  match data with
  | EmptyString => []
  | _ => tokens_from "" data
  end.

(** [std::getline(ss, token, ',')]: the next token and the rest of the
    stream, or [None] when the stream has failed. *)
Definition getline (ss : list string) : option (string * list string) :=
  match ss with
  | [] => None
  | token :: rest => Some (token, rest)
  end.

(** [token.substr(1, token.size() - 2)] and the like. *)
Definition substr (pos len : nat) (s : string) : string :=
  String.substring pos len s.

(** [s.substr(pos)] *)
Definition substr_from (pos : nat) (s : string) : string :=
  String.substring pos (String.length s - pos) s.

(** [kv.find(':')] *)
Definition find_colon (kv : string) : option nat := String.index 0 ":" kv.

Section WithText.
Context {io : StdText}.

(** [FileStorage::serializeLocation] *)
Definition serializeLocation (location : LocationInfo) : string :=
  (put_longlong (timestamp location) ++ "," ++
   put_double (latitude location) ++ "," ++
   put_double (longitude location) ++ "," ++
   put_double (altitude location) ++ "," ++
   put_double (accuracy location) ++ "," ++
   put_int (DataSourceType_code (sourceType location)) ++ "," ++
   put_int (LocationStatus_code (status location)) ++
   extras_text (getExtras location))%string.

(** One line [if (std::getline(ss, token, ',')) location.field = conv(token);]:
    when the stream has failed the field keeps its value. *)
Definition read_field {A : Type} (conv : string -> Parse A)
    (assign : A -> LocationInfo -> LocationInfo)
    (st : list string * LocationInfo) : Parse (list string * LocationInfo) :=
  match getline st.1 with
  | None => inr st
  | Some (token, ss) =>
      v <- conv token ;;
      inr (ss, assign v st.2)
  end.

Definition thrown {A : Type} (r : option A) : Parse A :=
  match r with
  | Some a => inr a
  | None => inl InvalidArgument
  end.

Definition named {A : Type} (r : option A) : Parse A :=
  match r with
  | Some a => inr a
  | None => inl UnnamedEnumerator
  end.

Definition to_sourceType (token : string) : Parse DataSourceType :=
  n <- thrown (stoi token) ;; named (DataSourceType_of_code n).

Definition to_status (token : string) : Parse LocationStatus :=
  n <- thrown (stoi token) ;; named (LocationStatus_of_code n).

(** The body of the [while] loop of [deserializeLocation]. *)
Definition read_extra (token : string) (location : LocationInfo)
    : LocationInfo :=
  if (3 <=? String.length token)%nat
     && bool_decide (String.get 0 token = Some "["%char)
     && bool_decide (String.get (String.length token - 1) token = Some "]"%char)
  then
    let kv := substr 1 (String.length token - 2) token in
    match find_colon kv with
    | Some colonPos =>
        let key := substr 0 colonPos kv in
        let value := substr_from (colonPos + 1) kv in
        setExtra key value location
    | None => location
    end
  else location.

(** [while (std::getline(ss, token, ',')) ...] *)
Fixpoint read_extras (ss : list string) (location : LocationInfo)
    : LocationInfo :=
  match ss with
  | [] => location
  | token :: rest => read_extras rest (read_extra token location)
  end.

(** [FileStorage::deserializeLocation] *)
Definition deserializeLocation (data : string) : Parse LocationInfo :=
  let st := (stream_tokens data, LocationInfo_default) in
  st <- read_field (fun t => thrown (stoll t)) set_timestamp st ;;
  st <- read_field (fun t => thrown (stod t)) set_latitude st ;;
  st <- read_field (fun t => thrown (stod t)) set_longitude st ;;
  st <- read_field (fun t => thrown (stod t)) set_altitude st ;;
  st <- read_field (fun t => thrown (stod t)) set_accuracy st ;;
  st <- read_field to_sourceType set_sourceType st ;;
  st <- read_field to_status set_status st ;;
  inr (read_extras st.1 st.2).

(** A value whose text reads back: the conversion returns the value, and the
    text is non-empty and has no comma. *)
Definition reads_back {A : Type} (put : A -> string)
    (conv : string -> option A) (value : A) : Prop :=
  conv (put value) = Some value /\
  contains "," (put value) = false /\
  put value <> ""%string.

(** Extras that survive the line format: no comma in key or value, no colon
    in the key. *)
Definition plain_extra (key value : string) : Prop :=
  contains "," key = false /\ contains ":" key = false /\
  contains "," value = false.

End WithText.

(** The token one extra contributes to the line. *)
Definition extra_token (kv : string * string) : string :=
  ("[" ++ kv.1 ++ ":" ++ kv.2 ++ "]")%string.

(** A concrete reading of the library, used to run the model on sample
    inputs: integers in decimal, and a [double] that is a whole number
    printed without fraction, as the stream does. *)
Definition digit_of (c : ascii) : option Z :=
  let n := Z.of_N (N_of_ascii c) in
  if (48 <=? n)%Z && (n <=? 57)%Z then Some (n - 48)%Z else None.

Fixpoint parse_digits (acc : Z) (s : string) : option Z :=
  match s with
  | EmptyString => Some acc
  | String c s' =>
      match digit_of c with
      | Some d => parse_digits (10 * acc + d) s'
      | None => None
      end
  end.

Definition parse_integer (s : string) : option Z :=
  match s with
  | EmptyString => None
  | String "-" EmptyString => None
  | String "-" s' => Z.opp <$> parse_digits 0 s'
  | _ => parse_digits 0 s
  end.

Definition sample_text : StdText :=
  {| put_longlong := pretty;
     put_double := fun x => pretty (Int_part x);
     put_int := pretty;
     stoll := parse_integer;
     stod := fun s => IZR <$> parse_integer s;
     stoi := parse_integer |}.

(** The fix at (35, 105) with one extra. *)
Definition tagged_fix : LocationInfo :=
  setExtra "bssid" "ab:cd" Processor.centre_fix.

(** The satellite fix with an extra whose value holds a comma. *)
Definition comma_fix : LocationInfo := setExtra "note" "a,b" sat_fix.

End Storage.

(** * The rest of the library *)

(** ** Distances and bearings ([Utils.cpp]) *)

Module Geodesy.

(** [calculateDistance(loc1, loc2)] *)
Definition calculateDistance_between (loc1 loc2 : LocationInfo) : R :=
  Utils.calculateDistance (latitude loc1) (longitude loc1)
    (latitude loc2) (longitude loc2).

(** [calculateBearing(lat1, lon1, lat2, lon2)] *)
Definition calculateBearing (lat1 lon1 lat2 lon2 : R) : R :=
  let radLat1 := lat1 * PI / 180 in
  let radLon1 := lon1 * PI / 180 in
  let radLat2 := lat2 * PI / 180 in
  let radLon2 := lon2 * PI / 180 in
  let dLon := radLon2 - radLon1 in
  let y := sin dLon * cos radLat2 in
  let x := cos radLat1 * sin radLat2 - sin radLat1 * cos radLat2 * cos dLon in
  let bearing := Utils.atan2 y x * 180 / PI in
  if Rltb bearing 0 then bearing + 360 else bearing.

(** The quantity [a] of the haversine formula in [calculateDistance]. *)
Definition haversine (lat1 lon1 lat2 lon2 : R) : R :=
  let radLat1 := lat1 * PI / 180 in
  let radLon1 := lon1 * PI / 180 in
  let radLat2 := lat2 * PI / 180 in
  let radLon2 := lon2 * PI / 180 in
  let dLat := radLat2 - radLat1 in
  let dLon := radLon2 - radLon1 in
  sin (dLat / 2) * sin (dLat / 2) +
  cos radLat1 * cos radLat2 * sin (dLon / 2) * sin (dLon / 2).

End Geodesy.

(** [x == y] on [double] *)
Definition Reqb (x y : R) : bool := if Req_dec_T x y then true else false.

Module Statistics.

(** The two running sums of [calculateWeightedAverage]. *)
Definition weighted_totals (values weights : list R) : R * R :=
  fold_left (fun sums vw => (sums.1 + vw.1 * vw.2, sums.2 + vw.2))
    (combine values weights) (0, 0).

(** [calculateWeightedAverage] *)
Definition calculateWeightedAverage (values weights : list R) : R :=
  if bool_decide (values = []) || bool_decide (weights = [])
     || negb (length values =? length weights)%nat
  then 0
  else
    let (sumValues, sumWeights) := weighted_totals values weights in
    if Reqb sumWeights 0 then 0 else sumValues / sumWeights.

End Statistics.

(** [LocationInfo::getExtra] *)
Definition getExtra (key defaultValue : string) (l : LocationInfo) : string :=
  match extras l !! key with
  | Some value => value
  | None => defaultValue
  end.

(** [LocationInfo::hasExtra] *)
Definition hasExtra (key : string) (l : LocationInfo) : bool :=
  bool_decide (is_Some (extras l !! key)).

(** ** Correction results ([CorrectedLocation] of [LocationModel.cpp]) *)

Module Corrected.

(** The members of [CorrectedLocation], as the constructors initialise
    them. *)
Record CorrectedLocation : Type := mkCorrectedLocation {
  originalLocation : LocationInfo;
  correctedLatitude : R;
  correctedLongitude : R;
  correctedAltitude : R;
  correctionAccuracy : R;
  correctionMethod : string;
  confidenceScore : R;
  isAnomaly : bool;
  anomalyType : string;
  correctionTime : Z;
  correctionDistance : R;
  isFused : bool;
  sourceCount : Z;
  correctionDetails : gmap string string
}.

(** [CorrectedLocation::CorrectedLocation(const LocationInfo&)]; [now] is the
    clock reading. *)
Definition CorrectedLocation_of (original : LocationInfo) (now : Z)
    : CorrectedLocation :=
  {| originalLocation := original;
     correctedLatitude := latitude original;
     correctedLongitude := longitude original;
     correctedAltitude := altitude original;
     correctionAccuracy := accuracy original;
     correctionMethod := "none";
     confidenceScore := 1;
     isAnomaly := false;
     anomalyType := "";
     correctionTime := now;
     correctionDistance := 0;
     isFused := false;
     sourceCount := 1;
     correctionDetails := ∅ |}.

(** [CorrectedLocation::getCorrectedLocationInfo] *)
Definition getCorrectedLocationInfo (c : CorrectedLocation) : LocationInfo :=
  let corrected := originalLocation c in
  let corrected := set_latitude (correctedLatitude c) corrected in
  let corrected := set_longitude (correctedLongitude c) corrected in
  let corrected := set_altitude (correctedAltitude c) corrected in
  let corrected := set_accuracy (correctionAccuracy c) corrected in
  let corrected := set_timestamp (correctionTime c) corrected in
  corrected.

(** [CorrectedLocation::calculateCorrectionDistance] *)
Definition calculateCorrectionDistance (c : CorrectedLocation)
    : CorrectedLocation :=
  let R_earth := 6371000 in
  let lat1 := latitude (originalLocation c) * PI / 180 in
  let lon1 := longitude (originalLocation c) * PI / 180 in
  let lat2 := correctedLatitude c * PI / 180 in
  let lon2 := correctedLongitude c * PI / 180 in
  let dLat := lat2 - lat1 in
  let dLon := lon2 - lon1 in
  let a := sin (dLat / 2) * sin (dLat / 2) +
           cos lat1 * cos lat2 * sin (dLon / 2) * sin (dLon / 2) in
  let c' := 2 * Utils.atan2 (sqrt a) (sqrt (1 - a)) in
  {| originalLocation := originalLocation c;
     correctedLatitude := correctedLatitude c;
     correctedLongitude := correctedLongitude c;
     correctedAltitude := correctedAltitude c;
     correctionAccuracy := correctionAccuracy c;
     correctionMethod := correctionMethod c;
     confidenceScore := confidenceScore c;
     isAnomaly := isAnomaly c;
     anomalyType := anomalyType c;
     correctionTime := correctionTime c;
     correctionDistance := R_earth * c';
     isFused := isFused c;
     sourceCount := sourceCount c;
     correctionDetails := correctionDetails c |}.

End Corrected.

(** ** Footprint-coherence fusion ([DataFusion.cpp]) *)

Module Footprint.

(** [LocationFootprint], as [calculateFootprint] fills it. *)
Record LocationFootprint : Type := mkLocationFootprint {
  center : LocationInfo;
  radius : R
}.

(** The members of [FootprintCoherenceFusion]. *)
Record FootprintCoherenceFusion : Type := mkFootprintCoherenceFusion {
  base : Fusion.DataFusion;
  coherenceThreshold : R;
  maxFootprintRadius : R
}.

(** [FootprintCoherenceFusion::FootprintCoherenceFusion()] *)
Definition FootprintCoherenceFusion_new : FootprintCoherenceFusion :=
  {| base := Fusion.DataFusion_new; coherenceThreshold := 0.7;
     maxFootprintRadius := 50 |}.

(** [FootprintCoherenceFusion::setCoherenceThreshold] *)
Definition setCoherenceThreshold (threshold : R) (f : FootprintCoherenceFusion)
    : FootprintCoherenceFusion :=
  {| base := base f; coherenceThreshold := Rmax 0 (Rmin 1 threshold);
     maxFootprintRadius := maxFootprintRadius f |}.

(** [FootprintCoherenceFusion::setMaxFootprintRadius] *)
Definition setMaxFootprintRadius (r : R) (f : FootprintCoherenceFusion)
    : FootprintCoherenceFusion :=
  {| base := base f; coherenceThreshold := coherenceThreshold f;
     maxFootprintRadius := Rmax 0 r |}.

(** [setMinRequiredSources] of the base class, on the object. *)
Definition withMinRequiredSources (count : nat) (f : FootprintCoherenceFusion)
    : FootprintCoherenceFusion :=
  {| base := Fusion.setMinRequiredSources count (base f);
     coherenceThreshold := coherenceThreshold f;
     maxFootprintRadius := maxFootprintRadius f |}.

(** [FootprintCoherenceFusion::calculateFootprint] *)
Definition calculateFootprint (f : FootprintCoherenceFusion)
    (location : LocationInfo) : LocationFootprint :=
  {| center := location;
     radius := Rmin (accuracy location * 2) (maxFootprintRadius f) |}.

(** [FootprintCoherenceFusion::calculateFootprintOverlap] *)
Definition calculateFootprintOverlap (fp1 fp2 : LocationFootprint) : R :=
  let distance :=
    Utils.calculateDistance (latitude (center fp1)) (longitude (center fp1))
      (latitude (center fp2)) (longitude (center fp2)) in
  if Rgeb distance (radius fp1 + radius fp2) then 0
  else if Rleb (distance + Rmin (radius fp1) (radius fp2))
               (Rmax (radius fp1) (radius fp2))
  then
    let smallerArea := PI * Rmin (radius fp1) (radius fp2) ^ 2 in
    let largerArea := PI * Rmax (radius fp1) (radius fp2) ^ 2 in
    smallerArea / largerArea
  else
    let d := distance in
    let r1 := radius fp1 in
    let r2 := radius fp2 in
    let a := (r1 * r1 - r2 * r2 + d * d) / (2 * d) in
    let h := sqrt (r1 * r1 - a * a) in
    let area1 := r1 * r1 * acos (a / r1) - a * h in
    let area2 := r2 * r2 * acos ((d - a) / r2) - (d - a) * h in
    let totalOverlapArea := area1 + area2 in
    let totalArea := PI * (r1 * r1 + r2 * r2) - totalOverlapArea in
    totalOverlapArea / totalArea.

(** [coherenceMatrix[i][j]] once the double loop has filled the matrix: 1 on
    the diagonal, elsewhere the overlap of the footprint of smaller index
    with the one of larger index.  Only indices below the number of
    footprints are read. *)
Definition coherenceMatrix (footprints : list LocationFootprint) (i j : nat)
    : R :=
  if (i =? j)%nat then 1
  else
    match footprints !! Nat.min i j, footprints !! Nat.max i j with
    | Some fpi, Some fpj => calculateFootprintOverlap fpi fpj
    | _, _ => 0
    end.

(** [currentSet] of the selection loop: [i], then every other index whose
    coherence with [i] reaches the threshold, in ascending order. *)
Definition currentSet (f : FootprintCoherenceFusion)
    (footprints : list LocationFootprint) (i : nat) : list nat :=
  i :: List.filter
         (fun j =>
            negb (i =? j)%nat &&
            Rgeb (coherenceMatrix footprints i j) (coherenceThreshold f))
         (seq 0 (length footprints)).

(** The two nested loops over the pairs of [currentSet]: the sum of the
    coherences and the number of pairs. *)
Fixpoint pair_totals (footprints : list LocationFootprint) (set : list nat)
    (acc : R * Z) : R * Z :=
  match set with
  | [] => acc
  | a :: rest =>
      pair_totals footprints rest
        (fold_left
           (fun t b => (t.1 + coherenceMatrix footprints a b, (t.2 + 1)%Z))
           rest acc)
  end.

Definition currentScore (footprints : list LocationFootprint)
    (set : list nat) : R :=
  if (1 <? length set)%nat then
    let (totalCoherence, count) := pair_totals footprints set (0, 0%Z) in
    if (0 <? count)%Z then totalCoherence / IZR count else 0
  else 0.

(** One round of the selection loop. *)
Definition select_step (f : FootprintCoherenceFusion)
    (footprints : list LocationFootprint) (st : list nat * R) (i : nat)
    : list nat * R :=
  let set := currentSet f footprints i in
  let score := currentScore footprints set in
  if (Fusion.minRequiredSources (base f) <=? length set)%nat
     && Rgtb score st.2
  then (set, score) else st.

(** [selectedIndices] and [maxCoherenceScore] after the selection loop and
    the fallback to all indices. *)
Definition selection (f : FootprintCoherenceFusion) (n : nat)
    (footprints : list LocationFootprint) : list nat * R :=
  let st := fold_left (select_step f footprints) (seq 0 n) ([], 0) in
  if (length st.1 <? Fusion.minRequiredSources (base f))%nat
  then (st.1 ++ seq 0 n, st.2) else st.

Section WithFormat.
Context {fmt : StdFormat}.

(** [FootprintCoherenceFusion::doFuse]; [now] is the clock reading.  Every
    selected index is below [locations.size()]. *)
Definition doFuse (f : FootprintCoherenceFusion) (now : Z)
    (locations : list LocationInfo) : option LocationInfo :=
  let footprints := map (calculateFootprint f) locations in
  let (selectedIndices, maxCoherenceScore) :=
    selection f (length locations) footprints in
  let selectedLocations :=
    map (fun index => nth index locations LocationInfo_default)
      selectedIndices in
  let fusion :=
    Fusion.setWeightStrategy ACCURACY_BASED Fusion.WeightedAverageFusion_new in
  match Fusion.WeightedAverageFusion_doFuse fusion now selectedLocations with
  | Some fusedLocation =>
      let fusedLocation :=
        setExtra "fusionType" "FOOTPRINT_COHERENCE" fusedLocation in
      let fusedLocation :=
        setExtra "coherenceScore" (doubleToString maxCoherenceScore 3)
          fusedLocation in
      let fusedLocation :=
        setExtra "selectedSourceCount"
          (sizeToString (length selectedLocations)) fusedLocation in
      let fusedLocation :=
        setExtra "totalSourceCount" (sizeToString (length locations))
          fusedLocation in
      Some fusedLocation
  | None => None
  end.

End WithFormat.

End Footprint.

(** ** The processor chain: the remaining operations ([DataProcessor.cpp]) *)

Module Chain.

(** [getName] of the four processors. *)
Definition getName (s : Processor.Stage) : string :=
  match s with
  | Processor.AccuracyFilter _ _ => "AccuracyFilterProcessor"
  | Processor.TimeFilter _ => "TimeFilterProcessor"
  | Processor.OutlierDetector _ => "OutlierDetectionProcessor"
  | Processor.CoordinateConverter _ _ => "CoordinateConverterProcessor"
  end.

(** [DataProcessor::setEnabled] *)
Definition setEnabled (enable : bool) (p : Processor.DataProcessor)
    : Processor.DataProcessor :=
  {| Processor.enabled := enable; Processor.priority := Processor.priority p;
     Processor.stage := Processor.stage p |}.

(** [DataProcessor::setPriority] *)
Definition setPriority (pri : Z) (p : Processor.DataProcessor)
    : Processor.DataProcessor :=
  {| Processor.enabled := Processor.enabled p; Processor.priority := pri;
     Processor.stage := Processor.stage p |}.

(** [AccuracyFilterProcessor::setAccuracyRange] *)
Definition setAccuracyRange (minAcc maxAcc : R) : Processor.Stage :=
  let minAccuracy := Rmax 0 minAcc in
  let maxAccuracy := Rmax minAccuracy maxAcc in
  Processor.AccuracyFilter minAccuracy maxAccuracy.

(** [TimeFilterProcessor::setMaxTimeDiff] *)
Definition setMaxTimeDiff (diffMs : Z) : Processor.Stage :=
  Processor.TimeFilter (Z.max 0 diffMs).

Definition with_processors (ps : list Processor.DataProcessor)
    (c : Processor.ProcessorChain) : Processor.ProcessorChain :=
  {| Processor.processors := ps;
     Processor.stopOnInvalid := Processor.stopOnInvalid c |}.

(** [processors.erase(it)] for the first processor of that name. *)
Fixpoint erase_first (processorName : string)
    (ps : list Processor.DataProcessor) : option (list Processor.DataProcessor) :=
  match ps with
  | [] => None
  | p :: rest =>
      if String.eqb (getName (Processor.stage p)) processorName then Some rest
      else
        match erase_first processorName rest with
        | Some rest' => Some (p :: rest')
        | None => None
        end
  end.

(** [ProcessorChain::removeProcessor] *)
Definition removeProcessor (processorName : string)
    (c : Processor.ProcessorChain) : Processor.ProcessorChain * bool :=
  match erase_first processorName (Processor.processors c) with
  | Some ps => (with_processors ps c, true)
  | None => (c, false)
  end.

(** [ProcessorChain::getProcessorByName] *)
Definition getProcessorByName (name : string) (c : Processor.ProcessorChain)
    : option Processor.DataProcessor :=
  List.find (fun p => String.eqb (getName (Processor.stage p)) name)
    (Processor.processors c).

(** [ProcessorChain::getProcessorNames] *)
Definition getProcessorNames (c : Processor.ProcessorChain) : list string :=
  map (fun p => getName (Processor.stage p)) (Processor.processors c).

(** [ProcessorChain::clear] *)
Definition clear (c : Processor.ProcessorChain) : Processor.ProcessorChain :=
  with_processors [] c.

(** [ProcessorChain::enableAllProcessors] *)
Definition enableAllProcessors (c : Processor.ProcessorChain)
    : Processor.ProcessorChain :=
  with_processors (map (setEnabled true) (Processor.processors c)) c.

(** [ProcessorChain::disableAllProcessors] *)
Definition disableAllProcessors (c : Processor.ProcessorChain)
    : Processor.ProcessorChain :=
  with_processors (map (setEnabled false) (Processor.processors c)) c.

Section WithFormat.
Context {fmt : StdFormat}.

(** [ProcessorChain::batchProcess]: the locations are processed one after
    the other by the same chain. *)
Fixpoint batchProcess (c : Processor.ProcessorChain) (now : Z)
    (locations : list LocationInfo)
    : Processor.ProcessorChain * list (option LocationInfo) :=
  match locations with
  | [] => (c, [])
  | location :: rest =>
      let (c', processed) := Processor.chain_process c now location in
      let (c'', processedLocations) := batchProcess c' now rest in
      (c'', processed :: processedLocations)
  end.

End WithFormat.

End Chain.

(** ** The statistical detector: the remaining operations *)

Module StatisticalHistory.

(** [StatisticalAnomalyDetector::setHistorySize] *)
Definition setHistorySize (size : nat) (s : Detector.Statistical)
    : Detector.Statistical :=
  let newSize := Nat.max (Detector.minSampleSize (Detector.base s)) size in
  {| Detector.base := Detector.base s;
     Detector.zScoreThreshold := Detector.zScoreThreshold s;
     Detector.historySize := newSize;
     Detector.history := Processor.trimHistory newSize (Detector.history s) |}.

(** [StatisticalAnomalyDetector::clearHistory] *)
Definition clearHistory (s : Detector.Statistical) : Detector.Statistical :=
  Detector.set_history [] s.

(** [setMinSampleSize] and [setEnabled] of the base class, on the object. *)
Definition withMinSampleSize (size : nat) (s : Detector.Statistical)
    : Detector.Statistical :=
  {| Detector.base := Detector.setMinSampleSize size (Detector.base s);
     Detector.zScoreThreshold := Detector.zScoreThreshold s;
     Detector.historySize := Detector.historySize s;
     Detector.history := Detector.history s |}.

Definition withEnabled (enable : bool) (s : Detector.Statistical)
    : Detector.Statistical :=
  {| Detector.base :=
       {| Detector.enabled := enable;
          Detector.threshold := Detector.threshold (Detector.base s);
          Detector.minSampleSize := Detector.minSampleSize (Detector.base s) |};
     Detector.zScoreThreshold := Detector.zScoreThreshold s;
     Detector.historySize := Detector.historySize s;
     Detector.history := Detector.history s |}.

(** The calls that reach a [StatisticalAnomalyDetector]. *)
Inductive Call : Type :=
  | CallDetectAnomaly (location : LocationInfo) (context : list LocationInfo)
  | CallAddLocationToHistory (location : LocationInfo)
  | CallSetHistorySize (size : nat)
  | CallClearHistory
  | CallSetZScoreThreshold (threshold : R)
  | CallSetMinSampleSize (size : nat)
  | CallSetEnabled (enable : bool).

Definition call {fmt : StdFormat} (s : Detector.Statistical) (c : Call)
    : Detector.Statistical :=
  match c with
  | CallDetectAnomaly location context =>
      (Detector.Statistical_detectAnomaly s location context).1
  | CallAddLocationToHistory location => Detector.addLocationToHistory location s
  | CallSetHistorySize size => setHistorySize size s
  | CallClearHistory => clearHistory s
  | CallSetZScoreThreshold threshold => Detector.setZScoreThreshold threshold s
  | CallSetMinSampleSize size => withMinSampleSize size s
  | CallSetEnabled enable => withEnabled enable s
  end.

Definition calls {fmt : StdFormat} (cs : list Call) (s : Detector.Statistical)
    : Detector.Statistical :=
  fold_left call cs s.

End StatisticalHistory.

(** What the search loop has found after a part of the context. *)
Definition search_invariant (location : LocationInfo)
    (seen : list LocationInfo) (st : Detector.PreviousSearch) : Prop :=
  (Detector.foundPrevious st = true ->
   In (Detector.previousLocation st) seen /\
   (timestamp (Detector.previousLocation st) < timestamp location)%Z /\
   Detector.minTimeDiff st
   = (timestamp location - timestamp (Detector.previousLocation st))%Z) /\
  (Detector.foundPrevious st = false ->
   Detector.minTimeDiff st = Detector.LLONG_MAX) /\
  (forall c, In c seen -> (timestamp c < timestamp location)%Z ->
     (Detector.minTimeDiff st <= timestamp location - timestamp c)%Z).

(** ** Pattern matching detector ([AnomalyDetector.cpp]) *)

Module Pattern.

(** [LocationRegion], as [isPointInRegion] reads it. *)
Record LocationRegion : Type := mkLocationRegion {
  minLat : R;
  maxLat : R;
  minLon : R;
  maxLon : R
}.

(** [LocationPattern], as [matchPattern] and [doDetectAnomaly] read it.  The
    members [sourceType], [status] and [extras] carry the prefix [pattern_]
    here, the names being those of the members of [LocationInfo]. *)
Record LocationPattern : Type := mkLocationPattern {
  name : string;
  isStrict : bool;
  pattern_sourceType : option DataSourceType;
  minAccuracy : option R;
  maxAccuracy : option R;
  pattern_status : option LocationStatus;
  region : option LocationRegion;
  pattern_extras : gmap string string
}.

(** [PatternMatchingAnomalyDetector::isPointInRegion] *)
Definition isPointInRegion (point : LocationInfo) (r : LocationRegion) : bool :=
  if Rgeb (latitude point) (minLat r) && Rleb (latitude point) (maxLat r)
     && Rgeb (longitude point) (minLon r) && Rleb (longitude point) (maxLon r)
  then true else false.

(** The loop of [matchPattern] over [pattern.extras], in ascending order of
    the keys. *)
Definition match_extras (location : LocationInfo)
    (kvs : list (string * string)) (similarity : R) : R :=
  fold_left
    (fun similarity kv =>
       if bool_decide (extras location !! kv.1 = Some kv.2)
       then similarity + 0.05 else similarity)
    kvs similarity.

(** [PatternMatchingAnomalyDetector::matchPattern]; the counter
    [matchedConditions] is never read and is left out. *)
Definition matchPattern (location : LocationInfo) (pattern : LocationPattern)
    : R :=
  let similarity := 0 in
  let totalConditions := 0%Z in
  let '(similarity, totalConditions) :=
    match pattern_sourceType pattern with
    | Some t =>
        (if bool_decide (sourceType location = t)
         then similarity + 0.2 else similarity,
         (totalConditions + 1)%Z)
    | None => (similarity, totalConditions)
    end in
  let '(similarity, totalConditions) :=
    match minAccuracy pattern, maxAccuracy pattern with
    | Some lo, Some hi =>
        (if Rgeb (accuracy location) lo && Rleb (accuracy location) hi
         then similarity + 0.2 else similarity,
         (totalConditions + 1)%Z)
    | _, _ => (similarity, totalConditions)
    end in
  let '(similarity, totalConditions) :=
    match pattern_status pattern with
    | Some s =>
        (if bool_decide (status location = s)
         then similarity + 0.1 else similarity,
         (totalConditions + 1)%Z)
    | None => (similarity, totalConditions)
    end in
  let '(similarity, totalConditions) :=
    match region pattern with
    | Some r =>
        (if isPointInRegion location r
         then similarity + 0.3 else similarity,
         (totalConditions + 1)%Z)
    | None => (similarity, totalConditions)
    end in
  let kvs := merge_sort Storage.key_le (map_to_list (pattern_extras pattern)) in
  let '(similarity, totalConditions) :=
    match kvs with
    | [] => (similarity, totalConditions)
    | _ =>
        (match_extras location kvs similarity,
         (totalConditions + Z.of_nat (length kvs))%Z)
    end in
  if (0 <? totalConditions)%Z then Rmin 1 similarity else similarity.

Section WithFormat.
Context {fmt : StdFormat}.

(** The loop of [doDetectAnomaly] over the patterns, left at the first strict
    pattern that matches. *)
Fixpoint pattern_loop (patternThreshold : R) (location : LocationInfo)
    (patterns : list LocationPattern) (result : Detector.AnomalyResult)
    : Detector.AnomalyResult :=
  match patterns with
  | [] => result
  | pattern :: rest =>
      let similarity := matchPattern location pattern in
      if Rgeb similarity patternThreshold then
        let result :=
          {| Detector.isAnomaly := true;
             Detector.confidence := similarity;
             Detector.anomalyInfo :=
               <["similarity"%string := doubleToString similarity 3]>
                 (<["patternName"%string := name pattern]>
                    (<["type"%string := "PATTERN_MATCH"%string]>
                       (Detector.anomalyInfo result))) |} in
        if isStrict pattern then result
        else pattern_loop patternThreshold location rest result
      else pattern_loop patternThreshold location rest result
  end.

(** [PatternMatchingAnomalyDetector::doDetectAnomaly] *)
Definition doDetectAnomaly (patterns : list LocationPattern)
    (patternThreshold : R) (location : LocationInfo)
    (context : list LocationInfo) : Detector.AnomalyResult :=
  let result := Detector.AnomalyResult_clear in
  match patterns with
  | [] => result
  | _ => pattern_loop patternThreshold location patterns result
  end.

End WithFormat.

(** [PatternMatchingAnomalyDetector::setPatternThreshold]: the new value of
    [patternThreshold]. *)
Definition setPatternThreshold (threshold : R) : R := Rmax 0 (Rmin 1 threshold).

End Pattern.

(** ** Combining the verdicts of several detectors ([AnomalyDetector.cpp]) *)

Module MultiDetector.

(** The two running quantities of [fuseByMajorityVote]. *)
Definition vote_totals (results : list Detector.AnomalyResult) : Z * R :=
  fold_left
    (fun t result =>
       if Detector.isAnomaly result
       then ((t.1 + 1)%Z, t.2 + Detector.confidence result) else t)
    results (0%Z, 0).

(** [MultiDetectorAnomalyDetector::fuseByMajorityVote] *)
Definition fuseByMajorityVote (minRequiredDetectors : nat)
    (results : list Detector.AnomalyResult) : Detector.AnomalyResult :=
  let (anomalyCount, totalConfidence) := vote_totals results in
  {| Detector.isAnomaly := (Z.of_nat minRequiredDetectors <=? anomalyCount)%Z;
     Detector.confidence :=
       if (0 <? anomalyCount)%Z then totalConfidence / IZR anomalyCount else 0;
     Detector.anomalyInfo := ∅ |}.

(** The two running sums of [fuseByWeightedAverage]; the loop stops at the
    end of the shorter vector. *)
Definition weighted_totals (results : list Detector.AnomalyResult)
    (weights : list R) : R * R :=
  fold_left
    (fun t rw => (t.1 + Detector.confidence rw.1 * rw.2, t.2 + rw.2))
    (combine results weights) (0, 0).

(** [MultiDetectorAnomalyDetector::fuseByWeightedAverage]; [threshold] is the
    member of the base class. *)
Definition fuseByWeightedAverage (threshold : R)
    (results : list Detector.AnomalyResult) (weights : list R)
    : Detector.AnomalyResult :=
  let (weightedSum, totalWeight) := weighted_totals results weights in
  let confidence :=
    if Rgtb totalWeight 0 then weightedSum / totalWeight else 0 in
  {| Detector.isAnomaly := Rgeb confidence threshold;
     Detector.confidence := confidence;
     Detector.anomalyInfo := ∅ |}.

(** [MultiDetectorAnomalyDetector::setMinRequiredDetectors] *)
Definition setMinRequiredDetectors (count : nat) : nat := Nat.max 1 count.

End MultiDetector.

(** A strict pattern that asks for a Wi-Fi fix. *)
Definition wifi_pattern : Pattern.LocationPattern :=
  {| Pattern.name := "wifi"; Pattern.isStrict := true;
     Pattern.pattern_sourceType := Some WIFI;
     Pattern.minAccuracy := None; Pattern.maxAccuracy := None;
     Pattern.pattern_status := None; Pattern.region := None;
     Pattern.pattern_extras := ∅ |}.

(** ** Storage in memory ([DataStorage.cpp]) *)

Module MemoryStore.

(** The member of [StorageConfig] that [DataStorage::initialize] reads. *)
Record StorageConfig : Type := mkStorageConfig {
  capacity : Z
}.

(** The members of [DataStorage] and of [MemoryStorage]; the copy of the
    configuration, which [MemoryStorage] never reads, is left out. *)
Record MemoryStorage : Type := mkMemoryStorage {
  initialized : bool;
  enabled : bool;
  storageCapacity : nat;
  locations : list LocationInfo
}.

(** [MemoryStorage::MemoryStorage()] *)
Definition MemoryStorage_new : MemoryStorage :=
  {| initialized := false; enabled := true;
     storageCapacity := Z.to_nat 10000; locations := [] |}.

Definition set_locations (ls : list LocationInfo) (s : MemoryStorage)
    : MemoryStorage :=
  {| initialized := initialized s; enabled := enabled s;
     storageCapacity := storageCapacity s; locations := ls |}.

(** [MemoryStorage::initialize] *)
Definition initialize (config : StorageConfig) (s : MemoryStorage)
    : MemoryStorage * bool :=
  if initialized s then (s, true)
  else
    ({| initialized := true; enabled := enabled s;
        storageCapacity :=
          if (0 <? capacity config)%Z then Z.to_nat (capacity config)
          else storageCapacity s;
        locations := locations s |}, true).

(** [MemoryStorage::close] *)
Definition close (s : MemoryStorage) : MemoryStorage * bool :=
  ({| initialized := false; enabled := enabled s;
      storageCapacity := storageCapacity s; locations := [] |}, true).

(** [DataStorage::setEnabled] *)
Definition setEnabled (enable : bool) (s : MemoryStorage) : MemoryStorage :=
  {| initialized := initialized s; enabled := enable;
     storageCapacity := storageCapacity s; locations := locations s |}.

(** [DataStorage::setStorageCapacity] *)
Definition setStorageCapacity (c : nat) (s : MemoryStorage) : MemoryStorage :=
  if (0 <? c)%nat then
    {| initialized := initialized s; enabled := enabled s;
       storageCapacity := c; locations := locations s |}
  else s.

(** The body of the loop of [batchStore], which is also the body of [store]:
    [pop_front] when the capacity is reached, then [push_back].  The
    capacity is positive in every storage the constructor and the setters
    produce, so [pop_front] meets a deque that is not empty. *)
Definition push (capacity : nat) (ls : list LocationInfo)
    (location : LocationInfo) : list LocationInfo :=
  (if (capacity <=? length ls)%nat then tail ls else ls) ++ [location].

(** [MemoryStorage::store] *)
Definition store (location : LocationInfo) (s : MemoryStorage)
    : MemoryStorage * bool :=
  if negb (initialized s) || negb (enabled s) then (s, false)
  else (set_locations (push (storageCapacity s) (locations s) location) s, true).

(** [MemoryStorage::batchStore] *)
Definition batchStore (ls : list LocationInfo) (s : MemoryStorage)
    : MemoryStorage * bool :=
  if negb (initialized s) || negb (enabled s) then (s, false)
  else
    (set_locations (fold_left (push (storageCapacity s)) ls (locations s)) s,
     true).

(** [MemoryStorage::queryByTimeRange] *)
Definition queryByTimeRange (startTime endTime : Z) (s : MemoryStorage)
    : list LocationInfo :=
  if negb (initialized s) || negb (enabled s) then []
  else
    List.filter
      (fun location =>
         (startTime <=? timestamp location)%Z
         && (timestamp location <=? endTime)%Z)
      (locations s).

(** [MemoryStorage::queryByDataSource] *)
Definition queryByDataSource (t : DataSourceType) (s : MemoryStorage)
    : list LocationInfo :=
  if negb (initialized s) || negb (enabled s) then []
  else
    List.filter (fun location => bool_decide (sourceType location = t))
      (locations s).

(** [MemoryStorage::getLatestLocation] *)
Definition getLatestLocation (s : MemoryStorage) : option LocationInfo :=
  if negb (initialized s) || negb (enabled s) then None
  else last (locations s).

(** [MemoryStorage::getStoredCount] *)
Definition getStoredCount (s : MemoryStorage) : nat := length (locations s).

(** [MemoryStorage::clearAll] *)
Definition clearAll (s : MemoryStorage) : MemoryStorage * bool :=
  if negb (initialized s) || negb (enabled s) then (s, false)
  else (set_locations [] s, true).

End MemoryStore.

(** ** The registry of storages ([StorageManager] of [DataStorage.cpp]) *)

Module StorageManager.

(** Iteration over a [std::map] with string keys: in ascending order of the
    keys. *)
Definition name_le {V : Type} (p q : string * V) : Prop :=
  String.leb p.1 q.1 = true.

#[global] Instance name_le_dec {V : Type} : RelDecision (@name_le V).
Proof. intros p q. unfold name_le. apply _. Defined.

Section WithStorage.

(** A storage object is known to the registry by its address only. *)
Context {Storage : Type} `{EqDecision Storage}.

(** The members of [StorageManager]; a null pointer is [None]. *)
Record StorageManager : Type := mkStorageManager {
  defaultStorage : option Storage;
  namedStorages : gmap string Storage
}.

(** [StorageManager::StorageManager()] *)
Definition StorageManager_new : StorageManager :=
  {| defaultStorage := None; namedStorages := ∅ |}.

(** [namedStorages.begin()] *)
Definition begin (m : gmap string Storage) : option (string * Storage) :=
  head (merge_sort name_le (map_to_list m)).

(** [StorageManager::registerStorage] *)
Definition registerStorage (name : string) (storage : option Storage)
    (m : StorageManager) : StorageManager * bool :=
  match storage with
  | None => (m, false)
  | Some st =>
      match namedStorages m !! name with
      | Some _ => (m, false)
      | None =>
          ({| defaultStorage :=
                match defaultStorage m with
                | None => Some st
                | Some d => Some d
                end;
              namedStorages := <[name := st]> (namedStorages m) |}, true)
      end
  end.

(** [StorageManager::unregisterStorage]: the new default is looked up before
    the entry is erased. *)
Definition unregisterStorage (name : string) (m : StorageManager)
    : StorageManager * bool :=
  match namedStorages m !! name with
  | None => (m, false)
  | Some st =>
      let default :=
        if bool_decide (Some st = defaultStorage m) then
          match begin (namedStorages m) with
          | Some (_, first) => Some first
          | None => None
          end
        else defaultStorage m in
      ({| defaultStorage := default;
          namedStorages := delete name (namedStorages m) |}, true)
  end.

(** [StorageManager::getStorage] *)
Definition getStorage (name : string) (m : StorageManager) : option Storage :=
  namedStorages m !! name.

(** [StorageManager::getDefaultStorage] *)
Definition getDefaultStorage (m : StorageManager) : option Storage :=
  defaultStorage m.

(** [StorageManager::setDefaultStorage] *)
Definition setDefaultStorage (name : string) (m : StorageManager)
    : StorageManager * bool :=
  match namedStorages m !! name with
  | None => (m, false)
  | Some st =>
      ({| defaultStorage := Some st; namedStorages := namedStorages m |}, true)
  end.

(** [StorageManager::getRegisteredStorages] *)
Definition getRegisteredStorages (m : StorageManager) : list string :=
  map fst (merge_sort name_le (map_to_list (namedStorages m))).

End WithStorage.

Arguments StorageManager : clear implicits.

End StorageManager.

(** A memory storage initialised with room for two locations. *)
Definition open_store : MemoryStore.MemoryStorage :=
  (MemoryStore.initialize {| MemoryStore.capacity := 2 |}
     MemoryStore.MemoryStorage_new).1.

(** ** The batching service ([HighPerformanceLocationService]) *)

Module HighPerformance.

(** The members of [LocationServiceConfig] that
    [HighPerformanceLocationService::initialize] reads. *)
Record LocationServiceConfig : Type := mkLocationServiceConfig {
  cacheSize : Z;
  batchProcessingSize : Z
}.

(** The members of [HighPerformanceLocationService] that hold data, and
    [lastLocation_] of the base class. *)
Record HighPerformanceLocationService : Type :=
  mkHighPerformanceLocationService {
  cacheSize_ : nat;
  batchProcessingSize_ : nat;
  batchLocationQueue_ : list LocationInfo;
  locationCache_ : list LocationInfo;
  lastLocation_ : option LocationInfo
}.

(** [HighPerformanceLocationService::HighPerformanceLocationService()] *)
Definition HighPerformanceLocationService_new
    : HighPerformanceLocationService :=
  {| cacheSize_ := 100; batchProcessingSize_ := 10;
     batchLocationQueue_ := []; locationCache_ := []; lastLocation_ := None |}.

(** The first two statements of
    [HighPerformanceLocationService::initialize]. *)
Definition initialize (config : LocationServiceConfig)
    (s : HighPerformanceLocationService) : HighPerformanceLocationService :=
  {| cacheSize_ :=
       if (0 <? cacheSize config)%Z then Z.to_nat (cacheSize config)
       else cacheSize_ s;
     batchProcessingSize_ :=
       if (0 <? batchProcessingSize config)%Z
       then Z.to_nat (batchProcessingSize config)
       else batchProcessingSize_ s;
     batchLocationQueue_ := batchLocationQueue_ s;
     locationCache_ := locationCache_ s;
     lastLocation_ := lastLocation_ s |}.

Definition set_queue (q : list LocationInfo)
    (s : HighPerformanceLocationService) : HighPerformanceLocationService :=
  {| cacheSize_ := cacheSize_ s;
     batchProcessingSize_ := batchProcessingSize_ s;
     batchLocationQueue_ := q;
     locationCache_ := locationCache_ s;
     lastLocation_ := lastLocation_ s |}.

(** [HighPerformanceLocationService::onLocationDataReceived]: the service
    afterwards, and the batch handed to the thread that runs
    [processBatchData], if one is started. *)
Definition onLocationDataReceived (location : LocationInfo)
    (s : HighPerformanceLocationService)
    : HighPerformanceLocationService * option (list LocationInfo) :=
  let queue := batchLocationQueue_ s ++ [location] in
  if (batchProcessingSize_ s <=? length queue)%nat
  then (set_queue [] s, Some queue)
  else (set_queue queue s, None).

(** A sequence of calls of [onLocationDataReceived]: the service afterwards
    and the batches handed over, in the order they were started. *)
Fixpoint receive_all (ls : list LocationInfo)
    (s : HighPerformanceLocationService)
    : HighPerformanceLocationService * list (list LocationInfo) :=
  match ls with
  | [] => (s, [])
  | location :: rest =>
      let (s', batch) := onLocationDataReceived location s in
      let (s'', batches) := receive_all rest s' in
      (s'', match batch with
            | Some b => b :: batches
            | None => batches
            end)
  end.

(** [HighPerformanceLocationService::updateLocationCache] *)
Definition updateLocationCache (location : LocationInfo)
    (s : HighPerformanceLocationService) : HighPerformanceLocationService :=
  {| cacheSize_ := cacheSize_ s;
     batchProcessingSize_ := batchProcessingSize_ s;
     batchLocationQueue_ := batchLocationQueue_ s;
     locationCache_ :=
       Processor.trimHistory (cacheSize_ s) (locationCache_ s ++ [location]);
     lastLocation_ := lastLocation_ s |}.

(** [HighPerformanceLocationService::getCurrentLocation] *)
Definition getCurrentLocation (s : HighPerformanceLocationService)
    : option LocationInfo :=
  match locationCache_ s with
  | [] => lastLocation_ s
  | _ => last (locationCache_ s)
  end.

End HighPerformance.

(** A batching service initialised with a cache of one location and
    batches of two. *)
Definition batch_of_two : HighPerformance.HighPerformanceLocationService :=
  HighPerformance.initialize
    {| HighPerformance.cacheSize := 1; HighPerformance.batchProcessingSize := 2 |}
    HighPerformance.HighPerformanceLocationService_new.

(** ** Samples for the chain run twice *)

(** A valid fix on the equator, one degree east of [zero_accuracy_fix]. *)
Definition equator_fix : LocationInfo := set_longitude 1 zero_accuracy_fix.

(** The chain after it has processed the locations one after the other. *)
Definition chain_after {fmt : StdFormat} (c : Processor.ProcessorChain)
    (now : Z) (locations : list LocationInfo) : Processor.ProcessorChain :=
  fold_left (fun c location => (Processor.chain_process c now location).1)
    locations c.

(** * Properties *)

(** ** Boolean comparisons reflect the order of [R] *)

Lemma Rleb_true x y : Rleb x y = true <-> x <= y.
Proof. unfold Rleb. destruct (Rle_dec x y); split; intros; try easy. Qed.

Lemma Rltb_true x y : Rltb x y = true <-> x < y.
Proof. unfold Rltb. destruct (Rlt_dec x y); split; intros; try easy. Qed.

Lemma Rleb_false x y : Rleb x y = false <-> y < x.
Proof.
  unfold Rleb. destruct (Rle_dec x y); split; intros; try easy; lra.
Qed.

Lemma Rltb_false x y : Rltb x y = false <-> y <= x.
Proof.
  unfold Rltb. destruct (Rlt_dec x y); split; intros; try easy; lra.
Qed.

Lemma Rgeb_true x y : Rgeb x y = true <-> x >= y.
Proof. unfold Rgeb. rewrite Rleb_true. split; lra. Qed.

Lemma Rgtb_true x y : Rgtb x y = true <-> x > y.
Proof. unfold Rgtb. rewrite Rltb_true. split; lra. Qed.

Lemma Rgtb_false x y : Rgtb x y = false <-> x <= y.
Proof. unfold Rgtb. apply Rltb_false. Qed.

(** ** Validity ([LocationInfo::isValid]) *)

Lemma isValid_spec l :
  isValid l = true <->
  status l = VALID /\
  -90 <= latitude l <= 90 /\
  -180 <= longitude l <= 180 /\
  0 <= accuracy l /\
  (0 < timestamp l)%Z.
Proof.
  unfold isValid.
  rewrite !andb_true_iff, bool_decide_eq_true, !Rgeb_true, !Rleb_true,
    Z.ltb_lt.
  intuition lra.
Qed.

(** C7 (amended). A fix is valid exactly when its status is [VALID], its
    latitude lies in [-90, 90], its longitude lies in [-180, 180], its
    accuracy is greater than or equal to 0 and its capture time is strictly
    greater than 0. *)
Theorem isValid_characterisation (l : LocationInfo) :
  isValid l = true <->
  status l = VALID /\
  -90 <= latitude l <= 90 /\
  -180 <= longitude l <= 180 /\
  0 <= accuracy l /\
  (0 < timestamp l)%Z.
Proof. exact (isValid_spec l). Qed.

(** C7, as stated, fails for a fix of accuracy 0: [isValid] accepts it although
    its accuracy is not strictly positive. *)
Lemma isValid_accepts_zero_accuracy :
  isValid zero_accuracy_fix = true /\
  ~ (status zero_accuracy_fix = VALID /\
     -90 <= latitude zero_accuracy_fix <= 90 /\
     -180 <= longitude zero_accuracy_fix <= 180 /\
     0 < accuracy zero_accuracy_fix /\
     (0 < timestamp zero_accuracy_fix)%Z).
Proof.
  split.
  - apply isValid_spec. simpl. repeat split; (lra || lia).
  - simpl. intros (_ & _ & _ & Hacc & _). lra.
Qed.

(** ** Weighted-average fusion stays inside the bounding box *)

Import Fusion.

Section ConvexCombination.

(** The running minimum is below its seed and below every later element. *)
Lemma fold_Rmin_le_seed xs x : fold_left Rmin xs x <= x.
Proof.
  revert x. induction xs as [|y xs IH]; intros x; simpl; [lra|].
  etransitivity; [apply IH|]. apply Rmin_l.
Qed.

Lemma fold_Rmin_le_elem xs x y : In y xs -> fold_left Rmin xs x <= y.
Proof.
  revert x. induction xs as [|z xs IH]; intros x Hin; simpl in *; [easy|].
  destruct Hin as [->|Hin].
  - etransitivity; [apply fold_Rmin_le_seed|]. apply Rmin_r.
  - now apply IH.
Qed.

Lemma fold_Rmax_ge_seed xs x : x <= fold_left Rmax xs x.
Proof.
  revert x. induction xs as [|y xs IH]; intros x; simpl; [lra|].
  etransitivity; [|apply IH]. apply Rmax_l.
Qed.

Lemma fold_Rmax_ge_elem xs x y : In y xs -> y <= fold_left Rmax xs x.
Proof.
  revert x. induction xs as [|z xs IH]; intros x Hin; simpl in *; [easy|].
  destruct Hin as [->|Hin].
  - etransitivity; [|apply fold_Rmax_ge_seed]. apply Rmax_r.
  - now apply IH.
Qed.

Lemma Rmin_list_le xs y : In y xs -> Rmin_list xs <= y.
Proof.
  destruct xs as [|x xs]; simpl; [easy|]. intros [->|Hin].
  - apply fold_Rmin_le_seed.
  - now apply fold_Rmin_le_elem.
Qed.

Lemma Rmax_list_ge xs y : In y xs -> y <= Rmax_list xs.
Proof.
  destruct xs as [|x xs]; simpl; [easy|]. intros [->|Hin].
  - apply fold_Rmax_ge_seed.
  - now apply fold_Rmax_ge_elem.
Qed.

(** A weighted sum with non-negative weights lies between the bounds of its
    terms, scaled by the total weight. *)
Lemma weighted_sum_bounds (lo hi : R) (xs ws : list R) :
  Forall (fun x => lo <= x <= hi) xs ->
  Forall (fun w => 0 <= w) ws ->
  length xs = length ws ->
  lo * Rsum ws <= Rsum (zip_with Rmult xs ws) <= hi * Rsum ws.
Proof.
  intros Hx. revert ws.
  induction Hx as [|x xs Hx _ IH]; intros [|w ws] Hw Hlen; simpl in *;
    try discriminate; try lra.
  inversion Hw as [|? ? Hw0 Hws]; subst.
  specialize (IH ws Hws ltac:(lia)). nra.
Qed.

End ConvexCombination.

Section WeightedAverage.
Context {fmt : StdFormat}.

(** The main loop of [doFuse] computes the weighted sums of the coordinates. *)
Lemma weighted_sums_from (lws : list (LocationInfo * R)) (acc : WeightedSums) :
  weightedLat (fold_left weighted_step lws acc) =
    weightedLat acc + Rsum (map (fun lw => latitude lw.1 * lw.2) lws) /\
  weightedLon (fold_left weighted_step lws acc) =
    weightedLon acc + Rsum (map (fun lw => longitude lw.1 * lw.2) lws).
Proof.
  revert acc. induction lws as [|[l w] lws IH]; intros acc.
  - simpl. split; lra.
  - cbn [fold_left map].
    destruct (IH (weighted_step acc (l, w))) as [-> ->]. simpl. split; lra.
Qed.

Lemma map_combine_zip {A} (f : A -> R) (ls : list A) (ws : list R) :
  map (fun lw => f lw.1 * lw.2) (combine ls ws) = zip_with Rmult (map f ls) ws.
Proof.
  revert ws. induction ls as [|l ls IH]; intros [|w ws]; simpl; try easy.
  now rewrite IH.
Qed.

Lemma weightedLat_sum locations weights :
  weightedLat (weighted_sums locations weights) =
  Rsum (zip_with Rmult (map latitude locations) weights).
Proof.
  unfold weighted_sums.
  destruct (weighted_sums_from (combine locations weights)
              {| weightedLat := 0; weightedLon := 0; weightedAlt := 0;
                 weightedAccuracy := 0 |}) as [-> _].
  simpl. rewrite map_combine_zip. lra.
Qed.

Lemma weightedLon_sum locations weights :
  weightedLon (weighted_sums locations weights) =
  Rsum (zip_with Rmult (map longitude locations) weights).
Proof.
  unfold weighted_sums.
  destruct (weighted_sums_from (combine locations weights)
              {| weightedLat := 0; weightedLon := 0; weightedAlt := 0;
                 weightedAccuracy := 0 |}) as [_ ->].
  simpl. rewrite map_combine_zip. lra.
Qed.

Lemma inverse_accuracy_pos location : 0 < inverse_accuracy location.
Proof.
  unfold inverse_accuracy.
  destruct (Rgtb (accuracy location) 0) eqn:E; [|lra].
  apply Rgtb_true in E. apply Rdiv_lt_0_compat; lra.
Qed.

Lemma totalAccuracyInverse_from locations total0 :
  fold_left
    (fun total location =>
       if Rgtb (accuracy location) 0 then total + 1 / accuracy location
       else total + 1) locations total0 =
  total0 + Rsum (map inverse_accuracy locations).
Proof.
  revert total0. induction locations as [|l ls IH]; intros t; simpl; [lra|].
  rewrite IH. unfold inverse_accuracy.
  destruct (Rgtb (accuracy l) 0); lra.
Qed.

Lemma totalCustomWeight_from cw locations total0 :
  fold_left
    (fun total location => total + getCustomWeight cw (sourceType location))
    locations total0 =
  total0 + Rsum (map (fun l => getCustomWeight cw (sourceType l)) locations).
Proof.
  revert total0. induction locations as [|l ls IH]; intros t; simpl; [lra|].
  rewrite IH. lra.
Qed.

Lemma Rsum_pos (f : LocationInfo -> R) locations :
  (forall l, 0 < f l) -> locations <> [] -> 0 < Rsum (map f locations).
Proof.
  intros Hf. induction locations as [|l ls IH]; [easy|]. intros _. simpl.
  destruct ls as [|l' ls']; simpl in *.
  - specialize (Hf l). lra.
  - specialize (IH ltac:(easy)). specialize (Hf l). lra.
Qed.

Lemma Rsum_nonneg (f : LocationInfo -> R) locations :
  (forall l, 0 <= f l) -> 0 <= Rsum (map f locations).
Proof.
  intros Hf. induction locations as [|l ls IH]; simpl; [lra|].
  specialize (Hf l). lra.
Qed.

Lemma Rsum_map_div (f : LocationInfo -> R) (d : R) locations :
  Rsum (map (fun l => f l / d) locations) = Rsum (map f locations) / d.
Proof.
  induction locations as [|l ls IH]; simpl; [lra|]. rewrite IH. lra.
Qed.

Lemma Rsum_const (c : R) (locations : list LocationInfo) :
  Rsum (map (fun _ => c) locations) = INR (length locations) * c.
Proof.
  induction locations as [|l ls IH]; [simpl; lra|].
  cbn [map Rsum fold_right length]. fold (Rsum (map (fun _ => c) ls)).
  rewrite IH, S_INR. lra.
Qed.

Lemma length_pos_INR (locations : list LocationInfo) :
  locations <> [] -> 0 < INR (length locations).
Proof.
  destruct locations; [easy|]. intros _. apply lt_0_INR. simpl. lia.
Qed.

(** Equal weights: non-negative, summing to one. *)
Lemma equal_weights_ok (locations : list LocationInfo) :
  locations <> [] ->
  let ws := map (fun _ : LocationInfo => 1 / INR (length locations)) locations in
  Forall (fun w => 0 <= w) ws /\ Rsum ws = 1.
Proof.
  intros Hne ws. pose proof (length_pos_INR locations Hne) as Hn. split.
  - apply List.Forall_forall. intros w Hin. apply in_map_iff in Hin as (l & <- & _).
    apply Rlt_le, Rdiv_lt_0_compat; lra.
  - subst ws. rewrite Rsum_const. field. lra.
Qed.

(** Custom weights installed through [setCustomWeight] are non-negative. *)
Lemma configured_weights_nonneg w :
  configured w -> forall t, 0 <= getCustomWeight (customWeights w) t.
Proof.
  induction 1 as [|s w _ IH|t0 weight w _ IH]; intros t; simpl.
  - unfold getCustomWeight. rewrite lookup_empty. lra.
  - apply IH.
  - unfold getCustomWeight, setCustomWeight.
    destruct (decide (t0 = t)) as [->|Hne].
    + rewrite lookup_insert_eq. apply Rmax_l.
    + rewrite lookup_insert_ne by done. apply IH.
Qed.

(** Whatever the strategy, [calculateWeights] returns one non-negative weight
    per fix and the weights sum to one. *)
Lemma calculateWeights_ok w locations :
  configured w -> locations <> [] ->
  length (calculateWeights w locations) = length locations /\
  Forall (fun x => 0 <= x) (calculateWeights w locations) /\
  Rsum (calculateWeights w locations) = 1.
Proof.
  intros Hw Hne. split.
  { unfold calculateWeights. destruct (weightStrategy w);
      now rewrite length_map. }
  unfold calculateWeights. destruct (weightStrategy w).
  - apply equal_weights_ok, Hne.
  - unfold totalAccuracyInverse. rewrite totalAccuracyInverse_from, Rplus_0_l.
    pose proof (Rsum_pos inverse_accuracy locations inverse_accuracy_pos Hne)
      as Hpos.
    set (total := Rsum (map inverse_accuracy locations)) in *.
    assert (Rgtb total 0 = true) as -> by (apply Rgtb_true; lra).
    assert (Heq : map (fun location =>
               if Rgtb (accuracy location) 0
               then 1 / accuracy location / total else 1 / total) locations =
             map (fun l => inverse_accuracy l / total) locations).
    { apply map_ext. intros l. unfold inverse_accuracy.
      now destruct (Rgtb (accuracy l) 0). }
    rewrite Heq. split.
    + apply List.Forall_forall. intros x Hin.
      apply in_map_iff in Hin as (l & <- & _).
      pose proof (inverse_accuracy_pos l).
      apply Rlt_le, Rdiv_lt_0_compat; lra.
    + rewrite Rsum_map_div. fold total. field. lra.
  - unfold totalCustomWeight. rewrite totalCustomWeight_from, Rplus_0_l.
    pose proof (configured_weights_nonneg w Hw) as Hcw.
    set (total := Rsum (map _ locations)).
    destruct (Rgtb total 0) eqn:E.
    + apply Rgtb_true in E. split.
      * apply List.Forall_forall. intros x Hin.
        apply in_map_iff in Hin as (l & <- & _).
        specialize (Hcw (sourceType l)).
        apply Rmult_le_pos; [lra|]. apply Rlt_le, Rinv_0_lt_compat. lra.
      * rewrite (Rsum_map_div
                   (fun l => getCustomWeight (customWeights w) (sourceType l))).
        fold total. field. lra.
    + apply equal_weights_ok, Hne.
Qed.

(** A convex combination of the coordinates lies between their extremes. *)
Lemma convex_within_extremes (xs ws : list R) :
  xs <> [] -> length ws = length xs ->
  Forall (fun w => 0 <= w) ws -> Rsum ws = 1 ->
  Rmin_list xs <= Rsum (zip_with Rmult xs ws) <= Rmax_list xs.
Proof.
  intros Hne Hlen Hw Hsum.
  pose proof (weighted_sum_bounds (Rmin_list xs) (Rmax_list xs) xs ws) as H.
  rewrite Hsum, !Rmult_1_r in H. apply H; [|done|done].
  apply List.Forall_forall. intros x Hin. split.
  - now apply Rmin_list_le.
  - now apply Rmax_list_ge.
Qed.

(** The fused coordinates are convex combinations of the inputs. *)
Lemma WeightedAverageFusion_doFuse_bounds
    (w : WeightedAverageFusion) (now : Z) (locations : list LocationInfo)
    (fused : LocationInfo) :
  configured w ->
  locations <> [] ->
  WeightedAverageFusion_doFuse w now locations = Some fused ->
  Rmin_list (map latitude locations) <= latitude fused
    <= Rmax_list (map latitude locations) /\
  Rmin_list (map longitude locations) <= longitude fused
    <= Rmax_list (map longitude locations).
Proof.
  intros Hw Hne Hfuse.
  destruct (calculateWeights_ok w locations Hw Hne) as (Hlen & Hpos & Hsum).
  unfold WeightedAverageFusion_doFuse in Hfuse.
  assert (Hlat : latitude fused =
            weightedLat (weighted_sums locations (calculateWeights w locations))).
  { injection Hfuse as <-.
    now destruct (Rgtb (weightedAccuracy _) 0). }
  assert (Hlon : longitude fused =
            weightedLon (weighted_sums locations (calculateWeights w locations))).
  { injection Hfuse as <-.
    now destruct (Rgtb (weightedAccuracy _) 0). }
  rewrite Hlat, Hlon, weightedLat_sum, weightedLon_sum.
  split; apply convex_within_extremes;
    rewrite ?length_map; try done;
    destruct locations; simpl; congruence.
Qed.


End WeightedAverage.


(** ** What [fuse] returns: time stamp and single-source input *)

Lemma sat_fix_valid : isValid sat_fix = true.
Proof. apply isValid_spec. simpl. repeat split; (lra || lia). Qed.

Lemma wifi_fix_valid : isValid wifi_fix = true.
Proof. apply isValid_spec. simpl. repeat split; (lra || lia). Qed.

Lemma sat_fix_usable : usable sat_fix = true.
Proof. unfold usable. now rewrite sat_fix_valid. Qed.

Lemma wifi_fix_usable : usable wifi_fix = true.
Proof. unfold usable. now rewrite wifi_fix_valid. Qed.

Lemma calm_pair_usable : List.filter usable calm_pair = calm_pair.
Proof.
  unfold calm_pair. cbn [List.filter].
  now rewrite sat_fix_usable, wifi_fix_usable.
Qed.

(** Sorting neither adds nor loses elements. *)
Lemma In_sort_insert {A} (before : A -> A -> bool) x y l :
  In y (sort_insert before x l) <-> y = x \/ In y l.
Proof.
  induction l as [|z l IH]; simpl; [intuition|].
  destruct (before z x); simpl; rewrite ?IH; intuition.
Qed.

Lemma In_std_sort {A} (before : A -> A -> bool) y l :
  In y (std_sort before l) <-> In y l.
Proof.
  induction l as [|x l IH]; simpl; [easy|].
  rewrite In_sort_insert, IH. intuition.
Qed.

Lemma Zmax_list_ge xs y : In y xs -> (y <= Zmax_list xs)%Z.
Proof.
  destruct xs as [|x xs]; simpl; [easy|].
  assert (Hseed : forall l a, (a <= fold_left Z.max l a)%Z).
  { induction l as [|b l IH]; intros a; simpl; [lia|].
    specialize (IH (Z.max a b)). lia. }
  assert (Helem : forall l a b, In b l -> (b <= fold_left Z.max l a)%Z).
  { induction l as [|c l IH]; intros a b Hin; simpl in *; [easy|].
    destruct Hin as [->|Hin]; [|now apply IH].
    specialize (Hseed l (Z.max a b)). lia. }
  intros [->|Hin]; [apply Hseed | now apply Helem].
Qed.

(** ** Sorting: the first element *)

Section SortHead.
Context {A : Type} (before : A -> A -> bool).
Hypothesis before_irrefl : forall a, before a a = false.
Hypothesis before_asym : forall a b, before a b = true -> before b a = false.
Hypothesis before_negtrans :
  forall a b c, before a b = false -> before b c = false -> before a c = false.

(** No element of the input comes strictly before the first element of the
    sorted vector. *)
Lemma std_sort_head_minimal l h rest :
  std_sort before l = h :: rest ->
  forall z, In z l -> before z h = false.
Proof.
  revert h rest. induction l as [|x l IH]; intros h rest Hs z Hin; [easy|].
  cbn [std_sort] in Hs.
  destruct (std_sort before l) as [|h' r] eqn:E.
  - cbn in Hs. injection Hs as <- <-.
    destruct Hin as [<-|Hin]; [apply before_irrefl|].
    apply (In_std_sort before) in Hin. rewrite E in Hin. easy.
  - cbn [sort_insert] in Hs. destruct (before h' x) eqn:Eb.
    + injection Hs as <- <-.
      destruct Hin as [<-|Hin]; [now apply before_asym|].
      now apply (IH h' r).
    + injection Hs as <- <-.
      destruct Hin as [<-|Hin]; [apply before_irrefl|].
      apply before_negtrans with h'; [|done]. now apply (IH h' r).
Qed.

End SortHead.

(** Priority-based fusion: the order of the comparator. *)
Lemma priority_before_false sp a b :
  priority_before sp a b = false <->
  (getSourcePriority sp (sourceType a) < getSourcePriority sp (sourceType b))%Z
  \/ (getSourcePriority sp (sourceType a) = getSourcePriority sp (sourceType b)
      /\ accuracy b <= accuracy a).
Proof.
  unfold priority_before. cbv zeta.
  destruct (getSourcePriority sp (sourceType a)
            =? getSourcePriority sp (sourceType b))%Z eqn:E; cbn [negb].
  - apply Z.eqb_eq in E. rewrite Rltb_false. split; [tauto|].
    intros [H|[_ H]]; [lia|done].
  - apply Z.eqb_neq in E. rewrite Z.ltb_ge. split; [lia|].
    intros [H|[H _]]; lia.
Qed.

Lemma priority_before_true sp a b :
  priority_before sp a b = true <->
  (getSourcePriority sp (sourceType b) < getSourcePriority sp (sourceType a))%Z
  \/ (getSourcePriority sp (sourceType a) = getSourcePriority sp (sourceType b)
      /\ accuracy a < accuracy b).
Proof.
  unfold priority_before. cbv zeta.
  destruct (getSourcePriority sp (sourceType a)
            =? getSourcePriority sp (sourceType b))%Z eqn:E; cbn [negb].
  - apply Z.eqb_eq in E. rewrite Rltb_true. split; [tauto|].
    intros [H|[_ H]]; [lia|done].
  - apply Z.eqb_neq in E. rewrite Z.ltb_lt. split; [lia|].
    intros [H|[H _]]; lia.
Qed.

(** The vector sorted by [priority_before] starts with a fix of the highest
    source priority and, among those, of the smallest accuracy value. *)
Lemma priority_before_head_best sp locations first rest :
  std_sort (priority_before sp) locations = first :: rest ->
  In first locations /\
  forall other, In other locations ->
    (getSourcePriority sp (sourceType other)
     <= getSourcePriority sp (sourceType first))%Z /\
    (getSourcePriority sp (sourceType other)
     = getSourcePriority sp (sourceType first) ->
     accuracy first <= accuracy other).
Proof.
  intros E. split.
  { apply (In_std_sort (priority_before sp)). rewrite E. now left. }
  intros other Hin.
  assert (Hmin : priority_before sp other first = false).
  { apply (std_sort_head_minimal (priority_before sp)) with locations rest;
      try done.
    - intros a. apply priority_before_false. right. split; [done|lra].
    - intros a b Hab. apply priority_before_true in Hab.
      apply priority_before_false. destruct Hab as [H|[H1 H2]]; [now left|].
      right. split; [done|lra].
    - intros a b c Hab Hbc.
      apply priority_before_false in Hab, Hbc. apply priority_before_false.
      destruct Hab as [H|[H1 H2]], Hbc as [H'|[H1' H2']]; try (left; lia).
      right. split; [lia|lra]. }
  apply priority_before_false in Hmin. destruct Hmin as [H|[H1 H2]].
  - split; lia.
  - split; [lia|done].
Qed.

Section FuseResult.
Context {fmt : StdFormat}.

(** Priority-based fusion returns one of its inputs, with three entries
    added to [extras]. *)
Lemma PriorityBasedFusion_doFuse_selects sp locations fused :
  PriorityBasedFusion_doFuse sp locations = Some fused ->
  exists selected,
    In selected locations /\
    latitude fused = latitude selected /\
    longitude fused = longitude selected /\
    altitude fused = altitude selected /\
    accuracy fused = accuracy selected /\
    timestamp fused = timestamp selected.
Proof.
  unfold PriorityBasedFusion_doFuse.
  destruct (std_sort (priority_before sp) locations) as [|first rest] eqn:E;
    [discriminate|].
  intros [= <-]. exists first. split; [|done].
  apply (In_std_sort (priority_before sp)). rewrite E. now left.
Qed.

Lemma WeightedAverageFusion_doFuse_time w now locations fused :
  WeightedAverageFusion_doFuse w now locations = Some fused ->
  timestamp fused = now.
Proof.
  unfold WeightedAverageFusion_doFuse. intros [= <-].
  now destruct (Rgtb (weightedAccuracy _) 0).
Qed.

(** [fuse] keeps coordinates, accuracy and time of what [doFuse] returns. *)
Lemma fuse_Some e now locations fused :
  fuse e now locations = Some fused ->
  enabled (base e) = true /\
  (minRequiredSources (base e) <= length (List.filter usable locations))%nat /\
  exists inner,
    doFuse e now (List.filter usable locations) = Some inner /\
    latitude fused = latitude inner /\
    longitude fused = longitude inner /\
    altitude fused = altitude inner /\
    accuracy fused = accuracy inner /\
    timestamp fused = timestamp inner /\
    status fused = NORMAL /\
    sourceType fused = FUSED.
Proof.
  unfold fuse.
  destruct (enabled (base e)); [|discriminate]. cbn [negb].
  destruct (length locations <? _)%nat; [discriminate|].
  destruct (length (List.filter usable locations) <? _)%nat eqn:E2;
    [discriminate|].
  apply Nat.ltb_ge in E2.
  destruct (doFuse e now _) as [inner|] eqn:E; [|discriminate].
  intros [= <-]. split; [done|]. split; [done|]. now exists inner.
Qed.

(** C6 (amended). For every successful fusion, the fused time stamp is the
    clock reading taken during fusion when the strategy is weighted average,
    and the time stamp of the selected contributor when the strategy is
    priority based: a contributor such that no contributor has a source of
    higher priority and none of the same priority has a smaller accuracy
    value.  That time stamp is at most the maximum of the contributors' time
    stamps.  The contributors are the input fixes that pass the validity
    filter of [fuse]. *)
Theorem fused_time (e : FusionEngine) (now : Z) (locations : list LocationInfo)
    (fused : LocationInfo) :
  fuse e now locations = Some fused ->
  match impl e with
  | BaseImpl => False
  | WeightedImpl _ => timestamp fused = now
  | PriorityImpl sp =>
      let contributors := List.filter usable locations in
      exists selected,
        In selected contributors /\
        timestamp fused = timestamp selected /\
        (forall other, In other contributors ->
           (getSourcePriority sp (sourceType other)
            <= getSourcePriority sp (sourceType selected))%Z /\
           (getSourcePriority sp (sourceType other)
            = getSourcePriority sp (sourceType selected) ->
            accuracy selected <= accuracy other)) /\
        (timestamp fused <= Zmax_list (map timestamp contributors))%Z
  end.
Proof.
  intros Hfuse.
  apply fuse_Some in Hfuse
    as (_ & _ & inner & Hdo & _ & _ & _ & _ & Htime & _).
  unfold doFuse in Hdo. destruct (impl e) as [|sp|w].
  - discriminate.
  - cbv zeta. unfold PriorityBasedFusion_doFuse in Hdo.
    destruct (std_sort (priority_before sp) (List.filter usable locations))
      as [|first rest] eqn:E; [discriminate|].
    injection Hdo as <-.
    destruct (priority_before_head_best sp _ first rest E) as [Hin Hbest].
    exists first. split; [exact Hin|]. split; [exact Htime|].
    split; [exact Hbest|].
    rewrite Htime. apply Zmax_list_ge.
    exact (in_map timestamp _ first Hin).
  - rewrite Htime. eapply WeightedAverageFusion_doFuse_time, Hdo.
Qed.

(** The same bound for the public entry [fuse]: the contributors are the
    input fixes that pass its validity filter.  The setter and the
    constructor keep [minRequiredSources] at 1 or more. *)
Lemma fuse_weighted_in_bounding_box (b : DataFusion) (w : WeightedAverageFusion)
    (now : Z) (locations : list LocationInfo) (fused : LocationInfo) :
  configured w ->
  (1 <= minRequiredSources b)%nat ->
  fuse {| base := b; impl := WeightedImpl w |} now locations = Some fused ->
  let contributors := List.filter usable locations in
  Rmin_list (map latitude contributors) <= latitude fused
    <= Rmax_list (map latitude contributors) /\
  Rmin_list (map longitude contributors) <= longitude fused
    <= Rmax_list (map longitude contributors).
Proof.
  intros Hw Hmin Hfuse. cbv zeta.
  apply fuse_Some in Hfuse
    as (_ & Hlen & inner & Hdo & Hlat & Hlon & _).
  unfold doFuse in Hdo. cbn [impl base] in Hdo, Hlen.
  rewrite Hlat, Hlon.
  apply (WeightedAverageFusion_doFuse_bounds w now); [done| |done].
  intros Hnil. rewrite Hnil in Hlen. simpl in Hlen. lia.
Qed.

End FuseResult.

(** Witness of [fused_time]: the sample pair under weighted-average fusion
    and under priority-based fusion, which selects the satellite fix. *)
Lemma fused_time_witness :
  (exists fused,
     fuse (fmt := sample_format)
       (WeightedAverageFusion_engine WeightedAverageFusion_new) 2000 calm_pair
       = Some fused /\
     timestamp fused = 2000%Z) /\
  (exists fused,
     fuse (fmt := sample_format) PriorityBasedFusion_new 2000 calm_pair
       = Some fused /\
     timestamp fused = timestamp sat_fix).
Proof.
  split.
  - assert (Hrun : exists fused,
      fuse (fmt := sample_format)
        (WeightedAverageFusion_engine WeightedAverageFusion_new) 2000 calm_pair
        = Some fused).
    { unfold fuse. cbn [negb enabled base WeightedAverageFusion_engine
                        DataFusion_new minRequiredSources].
      rewrite calm_pair_usable. cbn. eauto. }
    destruct Hrun as [fused Hrun]. exists fused. split; [done|].
    exact (fused_time (fmt := sample_format) _ 2000 calm_pair fused Hrun).
  - assert (Hrun : exists fused,
      fuse (fmt := sample_format) PriorityBasedFusion_new 2000 calm_pair
        = Some fused).
    { unfold fuse. cbn [negb enabled base PriorityBasedFusion_new
                        DataFusion_new minRequiredSources].
      rewrite calm_pair_usable. cbn [length Nat.ltb Nat.leb].
      unfold doFuse, PriorityBasedFusion_new, impl.
      unfold PriorityBasedFusion_doFuse, calm_pair.
      cbn [std_sort sort_insert].
      assert (priority_before default_sourcePriorities wifi_fix sat_fix = false)
        as -> by now vm_compute.
      eauto. }
    destruct Hrun as [fused Hrun]. exists fused. split; [done|].
    pose proof (fused_time (fmt := sample_format) PriorityBasedFusion_new 2000
                  calm_pair fused Hrun) as H.
    cbn [impl PriorityBasedFusion_new] in H. cbv zeta in H.
    rewrite calm_pair_usable in H.
    destruct H as (selected & Hin & Htime & Hbest & _).
    rewrite Htime.
    destruct Hin as [<-|[<-|[]]]; [reflexivity|].
    destruct (Hbest sat_fix (or_introl eq_refl)) as [Hle _].
    exfalso. revert Hle. vm_compute. intros H. now apply H.
Defined.

(** C6, as stated, fails: fusing the sample pair (capture times 1000 and 1050)
    by weighted average at clock reading 2000 gives time stamp 2000, and
    priority-based fusion selects the satellite fix and gives 1000; the
    maximum of the contributors' time stamps is 1050. *)
Lemma fused_time_is_not_max :
  Zmax_list (map timestamp calm_pair) = 1050%Z /\
  (exists fused,
     fuse (fmt := sample_format)
       (WeightedAverageFusion_engine WeightedAverageFusion_new) 2000 calm_pair
       = Some fused /\ timestamp fused = 2000%Z) /\
  (exists fused,
     fuse (fmt := sample_format) PriorityBasedFusion_new 2000 calm_pair
       = Some fused /\ timestamp fused = 1000%Z).
Proof.
  split; [reflexivity|]. split.
  - unfold fuse. cbn [negb enabled base WeightedAverageFusion_engine
                      DataFusion_new minRequiredSources].
    rewrite calm_pair_usable. cbn [length Nat.ltb Nat.leb].
    unfold doFuse, WeightedAverageFusion_engine, impl.
    unfold WeightedAverageFusion_doFuse.
    eexists. split; [reflexivity|].
    cbn. now destruct (Rgtb _ 0).
  - unfold fuse. cbn [negb enabled base PriorityBasedFusion_new
                      DataFusion_new minRequiredSources].
    rewrite calm_pair_usable. cbn [length Nat.ltb Nat.leb].
    unfold doFuse, PriorityBasedFusion_new, impl.
    unfold PriorityBasedFusion_doFuse, calm_pair.
    cbn [std_sort sort_insert].
    assert (priority_before default_sourcePriorities wifi_fix sat_fix = false)
      as ->.
    { unfold priority_before. now vm_compute. }
    eexists. split; [reflexivity|]. reflexivity.
Qed.

Section SingleSource.
Context {fmt : StdFormat}.

(** With one fix, every weight strategy gives it weight one. *)
Lemma calculateWeights_single w l :
  exists x, calculateWeights w [l] = [x] /\ x = 1.
Proof.
  unfold calculateWeights. destruct (weightStrategy w); cbn [map length INR].
  - eexists. split; [reflexivity|]. field.
  - unfold totalAccuracyInverse. rewrite totalAccuracyInverse_from.
    cbn [map Rsum fold_right]. pose proof (inverse_accuracy_pos l) as Hpos.
    assert (Rgtb (0 + (inverse_accuracy l + 0)) 0 = true) as ->
      by (apply Rgtb_true; lra).
    eexists. split; [reflexivity|].
    unfold inverse_accuracy in *. destruct (Rgtb (accuracy l) 0) eqn:E.
    + apply Rgtb_true in E. field. lra.
    + field.
  - destruct (Rgtb _ 0) eqn:E; (eexists; split; [reflexivity|]).
    + apply Rgtb_true in E. unfold totalCustomWeight in *. simpl in *.
      field. lra.
    + field.
Qed.

(** Weighted-average fusion of a single fix of non-negative accuracy gives
    back its coordinates, altitude and accuracy, stamped with the clock. *)
Lemma WeightedAverageFusion_doFuse_single w now l :
  0 <= accuracy l ->
  exists fused,
    WeightedAverageFusion_doFuse w now [l] = Some fused /\
    latitude fused = latitude l /\
    longitude fused = longitude l /\
    altitude fused = altitude l /\
    accuracy fused = accuracy l /\
    timestamp fused = now.
Proof.
  intros Hacc. unfold WeightedAverageFusion_doFuse.
  destruct (calculateWeights_single w l) as (x & -> & ->).
  eexists. split; [reflexivity|].
  unfold weighted_sums. cbn [combine fold_left weighted_step].
  destruct (Rgtb (accuracy l) 0) eqn:E; cbn [weightedAccuracy].
  - apply Rgtb_true in E.
    assert (Rgtb (0 + 1 / accuracy l) 0 = true) as ->.
    { apply Rgtb_true. assert (0 < 1 / accuracy l); [|lra].
      apply Rdiv_lt_0_compat; lra. }
    cbn. repeat split; try lra. field. lra.
  - apply Rltb_false in E.
    assert (Rgtb 0 0 = false) as -> by (apply Rltb_false; lra).
    cbn. repeat split; lra.
Qed.

(** Priority-based fusion of a single fix selects it. *)
Lemma PriorityBasedFusion_doFuse_single sp l :
  PriorityBasedFusion_doFuse sp [l] =
  Some (setExtra "selectedSourcePriority"
          (intToString (getSourcePriority sp (sourceType l)))
          (setExtra "selectedSourceType"
             (dataSourceTypeToString (sourceType l))
             (setExtra "fusionType" "PRIORITY_BASED" l))).
Proof. reflexivity. Qed.


End SingleSource.



(** ** The processor chain run twice *)

Import Utils Processor.


(** ** Datum shift: size and sign of the offsets near (35, 105) *)

Lemma PI_gt_3 : 3 < PI.
Proof. pose proof PI2_3_2. lra. Qed.

Lemma sin_nonneg_small t : 0 <= t <= 3 -> 0 <= sin t.
Proof. intros [H0 H3]. pose proof PI_gt_3. apply sin_ge_0; lra. Qed.

Lemma sin_nonpos_small t : -3 <= t <= 0 -> sin t <= 0.
Proof.
  intros [H3 H0]. replace t with (- - t) by lra. rewrite sin_neg.
  assert (0 <= sin (- t)) by (apply sin_nonneg_small; lra). lra.
Qed.

Lemma sqrt_le_one x : 0 <= x <= 1 -> 0 <= sqrt x <= 1.
Proof.
  intros [H0 H1]. split; [apply sqrt_pos|].
  rewrite <- sqrt_1. apply sqrt_le_1; lra.
Qed.

(** [magic] and its square root stay within one percent of 1. *)
Lemma magic_bounds (radLat : R) :
  let magic := 1 - ellipsoid_ee * sin radLat * sin radLat in
  0.99 <= magic <= 1 /\ 0.99 <= sqrt magic <= 1.
Proof.
  intros magic.
  assert (Hs : 0 <= sin radLat * sin radLat <= 1).
  { pose proof (SIN_bound radLat). nra. }
  assert (Hm : 0.99 <= magic <= 1).
  { unfold magic, ellipsoid_ee. nra. }
  split; [exact Hm|].
  destruct (sqrt_le_one magic ltac:(lra)) as [Hq0 Hq1].
  split; [|exact Hq1].
  pose proof (sqrt_sqrt magic ltac:(lra)) as Hsq. nra.
Qed.


Lemma transformLat_near_centre x y :
  near_centre x y -> -500 <= transformLat x y <= -50.
Proof.
  intros [[Hx0 Hx1] [Hy0 Hy1]]. unfold transformLat.
  pose proof PI_gt_3 as Hpi3. pose proof PI_4 as Hpi4.
  pose proof (SIN_bound (6 * x * PI)) as S1.
  pose proof (SIN_bound (2 * x * PI)) as S2.
  pose proof (SIN_bound (y * PI)) as S3.
  pose proof (SIN_bound (y / 3 * PI)) as S4.
  pose proof (SIN_bound (y / 12 * PI)) as S5.
  pose proof (SIN_bound (y * PI / 30)) as S6.
  assert (N3 : sin (y * PI) <= 0) by (apply sin_nonpos_small; nra).
  assert (N4 : sin (y / 3 * PI) <= 0) by (apply sin_nonpos_small; nra).
  assert (N5 : sin (y / 12 * PI) <= 0) by (apply sin_nonpos_small; nra).
  assert (N6 : sin (y * PI / 30) <= 0) by (apply sin_nonpos_small; nra).
  assert (Hq : 0 <= sqrt (Rabs x) <= 1).
  { apply sqrt_le_one. rewrite Rabs_pos_eq by lra. lra. }
  assert (Hyy : 0 <= y * y <= 0.0001) by nra.
  assert (Hxy : -0.0002 <= x * y <= 0) by nra.
  split; lra.
Qed.

Lemma transformLon_near_centre x y :
  near_centre x y -> 200 <= transformLon x y <= 700.
Proof.
  intros [[Hx0 Hx1] [Hy0 Hy1]]. unfold transformLon.
  pose proof PI_gt_3 as Hpi3. pose proof PI_4 as Hpi4.
  pose proof (SIN_bound (6 * x * PI)) as S1.
  pose proof (SIN_bound (2 * x * PI)) as S2.
  pose proof (SIN_bound (x * PI)) as S3.
  pose proof (SIN_bound (x / 3 * PI)) as S4.
  pose proof (SIN_bound (x / 12 * PI)) as S5.
  pose proof (SIN_bound (x / 30 * PI)) as S6.
  assert (N1 : 0 <= sin (6 * x * PI)) by (apply sin_nonneg_small; nra).
  assert (N2 : 0 <= sin (2 * x * PI)) by (apply sin_nonneg_small; nra).
  assert (N3 : 0 <= sin (x * PI)) by (apply sin_nonneg_small; nra).
  assert (N4 : 0 <= sin (x / 3 * PI)) by (apply sin_nonneg_small; nra).
  assert (N5 : 0 <= sin (x / 12 * PI)) by (apply sin_nonneg_small; nra).
  assert (N6 : 0 <= sin (x / 30 * PI)) by (apply sin_nonneg_small; nra).
  assert (Hq : 0 <= sqrt (Rabs x) <= 1).
  { apply sqrt_le_one. rewrite Rabs_pos_eq by lra. lra. }
  assert (Hxx : 0 <= x * x <= 0.0004) by nra.
  assert (Hxy : -0.0002 <= x * y <= 0) by nra.
  split; lra.
Qed.

(** A quotient of a bounded numerator by a large positive denominator. *)
Lemma quotient_bounds (n d lo hi dmin : R) :
  lo <= n <= hi -> lo <= 0 -> 0 < dmin <= d ->
  lo / dmin <= n / d <= Rmax 0 hi / dmin.
Proof.
  intros [Hlo Hhi] Hneg [Hdmin Hd].
  assert (Hd0 : 0 < d) by lra.
  assert (Hinv : 0 < / d <= / dmin).
  { split; [now apply Rinv_0_lt_compat|]. apply Rinv_le_contravar; lra. }
  assert (Hinvmin : 0 < / dmin) by now apply Rinv_0_lt_compat.
  pose proof (Rmax_l 0 hi). pose proof (Rmax_r 0 hi).
  unfold Rdiv. split.
  - destruct (Rle_dec 0 n).
    + assert (0 <= n * / d) by (apply Rmult_le_pos; lra). nra.
    + nra.
  - destruct (Rle_dec 0 n).
    + assert (n * / d <= Rmax 0 hi * / dmin); [|lra].
      apply Rmult_le_compat; lra.
    + assert (n * / d <= 0) by nra.
      assert (0 <= Rmax 0 hi * / dmin) by (apply Rmult_le_pos; lra). lra.
Qed.

Lemma datum_dLat_near_centre lat lon :
  near_centre (lon - 105) (lat - 35) ->
  -0.01 <= datum_dLat lat lon < 0.
Proof.
  intros Hnear. unfold datum_dLat.
  pose proof (transformLat_near_centre _ _ Hnear) as Ht.
  set (t := transformLat (lon - 105) (lat - 35)) in *.
  destruct (magic_bounds (lat / 180 * PI)) as [Hm Hs]. cbv zeta in Hm, Hs.
  set (magic := 1 - ellipsoid_ee * sin (lat / 180 * PI) * sin (lat / 180 * PI))
    in *.
  set (s := sqrt magic) in *.
  pose proof PI_gt_3 as Hpi3. pose proof PI_4 as Hpi4.
  assert (Hms : 0.98 <= magic * s <= 1) by nra.
  assert (Hq : 6000000 <= ellipsoid_a * (1 - ellipsoid_ee) / (magic * s)).
  { unfold ellipsoid_a, ellipsoid_ee.
    apply Rle_trans with (6378245 * (1 - 0.00669342162296594323) / 1); [lra|].
    unfold Rdiv. apply Rmult_le_compat_l; [lra|].
    apply Rinv_le_contravar; lra. }
  set (q := ellipsoid_a * (1 - ellipsoid_ee) / (magic * s)) in *.
  assert (Hd : 0 < 18000000 <= q * PI) by nra.
  pose proof (quotient_bounds (t * 180) (q * PI) (-90000) (-9000) 18000000
                ltac:(lra) ltac:(lra) Hd) as [Hlo _].
  split; [lra|].
  assert (0 < / (q * PI)) by (apply Rinv_0_lt_compat; lra).
  unfold Rdiv. nra.
Qed.

Lemma cos_near_centre lat : 0 <= lat <= 60 -> 1 / 2 <= cos (lat / 180 * PI).
Proof.
  intros [H0 H60]. pose proof PI_gt_3 as Hpi3.
  rewrite <- cos_PI3. apply cos_decr_1; nra.
Qed.

Lemma datum_dLon_near_centre lat lon :
  near_centre (lon - 105) (lat - 35) ->
  0 <= datum_dLon lat lon <= 0.02.
Proof.
  intros Hnear. unfold datum_dLon.
  pose proof (transformLon_near_centre _ _ Hnear) as Ht.
  set (t := transformLon (lon - 105) (lat - 35)) in *.
  destruct (magic_bounds (lat / 180 * PI)) as [Hm Hs]. cbv zeta in Hm, Hs.
  set (magic := 1 - ellipsoid_ee * sin (lat / 180 * PI) * sin (lat / 180 * PI))
    in *.
  set (s := sqrt magic) in *.
  pose proof PI_gt_3 as Hpi3. pose proof PI_4 as Hpi4.
  assert (Hc : 1 / 2 <= cos (lat / 180 * PI)).
  { apply cos_near_centre. destruct Hnear as [_ Hy]. lra. }
  pose proof (COS_bound (lat / 180 * PI)) as [_ Hc1].
  set (c := cos (lat / 180 * PI)) in *.
  assert (Hq : 6378245 <= ellipsoid_a / s).
  { unfold ellipsoid_a.
    apply Rle_trans with (6378245 / 1); [lra|].
    unfold Rdiv. apply Rmult_le_compat_l; [lra|].
    apply Rinv_le_contravar; lra. }
  set (q := ellipsoid_a / s) in *.
  assert (Hd : 0 < 9000000 <= q * c * PI).
  { split; [lra|]. assert (3189122 <= q * c) by nra. nra. }
  pose proof (quotient_bounds (t * 180) (q * c * PI) 0 126000 9000000
                ltac:(lra) ltac:(lra) Hd) as [Hlo Hhi].
  rewrite Rmax_right in Hhi by lra. lra.
Qed.

(** One conversion from the centre stays near the centre and inside the
    region. *)
Lemma near_centre_inside lat lon :
  near_centre (lon - 105) (lat - 35) -> isInsideChina lat lon = true.
Proof.
  intros [[Hx0 Hx1] [Hy0 Hy1]]. unfold isInsideChina.
  rewrite !andb_true_iff, !Rgeb_true, !Rleb_true. lra.
Qed.

Lemma wgs84ToGcj02_near_centre l :
  near_centre (longitude l - 105) (latitude l - 35) ->
  latitude (wgs84ToGcj02 l) < latitude l /\
  latitude l - 0.01 <= latitude (wgs84ToGcj02 l) /\
  longitude l <= longitude (wgs84ToGcj02 l) <= longitude l + 0.02.
Proof.
  intros Hnear. unfold wgs84ToGcj02.
  rewrite (near_centre_inside _ _ Hnear). cbn.
  pose proof (datum_dLat_near_centre _ _ Hnear).
  pose proof (datum_dLon_near_centre _ _ Hnear). lra.
Qed.


Section Chain.
Context {fmt : StdFormat}.

(** One run of the four-stage chain, stage after stage. *)
Lemma four_stage_chain_run a1 a2 m o src tgt now x :
  let y := TimeFilter_apply m now (AccuracyFilter_apply a1 a2 x) in
  let r := OutlierDetection_step o y in
  chain_process (four_stage_chain a1 a2 m o src tgt) now x =
  (four_stage_chain a1 a2 m r.1 src tgt,
   Some (CoordinateConverter_convert src tgt r.2)).
Proof.
  intros y r. unfold chain_process, four_stage_chain.
  cbn -[OutlierDetection_step CoordinateConverter_convert TimeFilter_apply
        AccuracyFilter_apply isValid].
  rewrite !andb_false_r. reflexivity.
Qed.

Lemma standard_chain_four_stage :
  standard_chain = four_stage_chain 0 100 300000 OutlierDetection_new WGS84 GCJ02.
Proof. reflexivity. Qed.

(** The conversion keeps accuracy, time stamp and status. *)
Lemma convert_keeps src tgt z :
  accuracy (CoordinateConverter_convert src tgt z) = accuracy z /\
  timestamp (CoordinateConverter_convert src tgt z) = timestamp z /\
  status (CoordinateConverter_convert src tgt z) = status z.
Proof.
  unfold CoordinateConverter_convert.
  repeat (case_bool_decide || destruct (_ && _)); done.
Qed.

(** The outlier stage keeps accuracy and time stamp; it changes the status
    only of a valid location. *)
Lemma step_keeps o y :
  accuracy (OutlierDetection_step o y).2 = accuracy y /\
  timestamp (OutlierDetection_step o y).2 = timestamp y /\
  (status (OutlierDetection_step o y).2 = status y \/ isValid y = true).
Proof.
  unfold OutlierDetection_step.
  destruct (isValid y) eqn:Hv; cbn [negb]; [|auto].
  destruct (_ <? _)%nat; [auto|].
  destruct (calculateStatistics _) as [[avgLat avgLon] stdDev].
  destruct (Rgtb _ _); cbn; auto.
Qed.

(** The outlier stage leaves a location that is not valid, and its own
    state, as they are. *)
Lemma step_skips o u :
  isValid u = false -> OutlierDetection_step o u = (o, u).
Proof. intros Hu. unfold OutlierDetection_step. now rewrite Hu. Qed.

(** Accuracy filter followed by staleness filter, applied to a location that
    already carries their verdict. *)
Lemma filters_settled a1 a2 m now x u :
  accuracy u = accuracy x -> timestamp u = timestamp x ->
  (status u = status (TimeFilter_apply m now (AccuracyFilter_apply a1 a2 x)) \/
   isValid (TimeFilter_apply m now (AccuracyFilter_apply a1 a2 x)) = true) ->
  TimeFilter_apply m now (AccuracyFilter_apply a1 a2 u) = u.
Proof.
  intros Hacc Hts Hst. destruct u, x. cbn in Hacc, Hts. subst.
  revert Hst. unfold TimeFilter_apply, AccuracyFilter_apply, isValid.
  cbn -[Rltb Rgtb Rgeb Rleb Z.ltb Z.sub].
  destruct (_ || _);
    cbn -[Rltb Rgtb Rgeb Rleb Z.ltb Z.sub];
    destruct (m <? _)%Z;
    cbn -[Rltb Rgtb Rgeb Rleb Z.ltb Z.sub];
    intros [->|Hv]; try reflexivity; try discriminate.
Qed.

Lemma set_coordinates_same u :
  set_longitude (longitude u) (set_latitude (latitude u) u) = u.
Proof. now destruct u. Qed.

Lemma setExtra_present k v u :
  extras u !! k = Some v -> setExtra k v u = u.
Proof.
  intros H. destruct u. unfold setExtra. cbn in *. now rewrite insert_id.
Qed.

(** A second conversion of a converted location that lies outside the
    region, or with equal source and target systems, changes nothing. *)
Lemma convert_settled src tgt z :
  let once := CoordinateConverter_convert src tgt z in
  src = tgt \/ isInsideChina (latitude once) (longitude once) = false ->
  CoordinateConverter_convert src tgt once = once.
Proof.
  intros once Hfix. subst once. unfold CoordinateConverter_convert in *.
  destruct (decide (src = tgt)) as [Heq|Hne].
  { now rewrite !bool_decide_eq_true_2 by done. }
  destruct Hfix as [Heq|Hout]; [done|].
  rewrite !(bool_decide_eq_false_2 (src = tgt)) in * by done.
  destruct src, tgt; try done; cbn [bool_decide andb] in *;
    rewrite ?bool_decide_eq_true_2, ?bool_decide_eq_false_2 in * by done;
    cbn [andb] in *.
  - set (once := setExtra _ _ _) in *.
    unfold wgs84ToGcj02 at 1 2. rewrite Hout. cbn [negb].
    rewrite set_coordinates_same. apply setExtra_present.
    subst once. cbn. apply lookup_insert_eq.
  - set (once := setExtra _ _ _) in *.
    unfold gcj02ToWgs84 at 1 2. rewrite Hout. cbn [negb].
    rewrite set_coordinates_same. apply setExtra_present.
    subst once. cbn. apply lookup_insert_eq.
Qed.

(** The outlier stage hands the location on as it is, or marks it. *)
Lemma step_verdict o y :
  (OutlierDetection_step o y).2 = y \/
  status (OutlierDetection_step o y).2 = ANOMALY.
Proof.
  unfold OutlierDetection_step.
  destruct (isValid y); cbn [negb]; [|now left].
  destruct (_ <? _)%nat; [now left|].
  destruct (calculateStatistics _) as [[avgLat avgLon] stdDev].
  destruct (Rgtb _ _); [right; reflexivity|now left].
Qed.

Lemma step_short_history o y :
  (length (history o) < minSampleSize o)%nat ->
  (OutlierDetection_step o y).2 = y.
Proof.
  intros Hlen. unfold OutlierDetection_step.
  destruct (isValid y); cbn [negb]; [|reflexivity].
  assert ((length (history o) <? minSampleSize o)%nat = true) as ->
    by (apply Nat.ltb_lt; lia).
  reflexivity.
Qed.


(** A valid location that passes both filters while the history is short is
    stored in the history and handed to the conversion. *)
Lemma four_stage_chain_accepts a1 a2 m o src tgt now x :
  isValid x = true -> a1 <= accuracy x <= a2 ->
  (now - timestamp x <= m)%Z ->
  (length (history o) < minSampleSize o)%nat ->
  chain_process (four_stage_chain a1 a2 m o src tgt) now x =
  (four_stage_chain a1 a2 m (set_history (history o ++ [x]) o) src tgt,
   Some (CoordinateConverter_convert src tgt x)).
Proof.
  intros Hv [Ha1 Ha2] Hm Hlen. rewrite four_stage_chain_run. cbv zeta.
  assert (AccuracyFilter_apply a1 a2 x = x) as ->.
  { unfold AccuracyFilter_apply.
    assert (Rltb (accuracy x) a1 = false) as -> by (apply Rltb_false; lra).
    assert (Rgtb (accuracy x) a2 = false) as -> by (apply Rltb_false; lra).
    reflexivity. }
  assert (TimeFilter_apply m now x = x) as ->.
  { unfold TimeFilter_apply.
    assert ((m <? now - timestamp x)%Z = false) as -> by (apply Z.ltb_ge; lia).
    reflexivity. }
  unfold OutlierDetection_step. rewrite Hv. cbn [negb].
  assert ((length (history o) <? minSampleSize o)%nat = true) as ->
    by (apply Nat.ltb_lt; lia).
  reflexivity.
Qed.

End Chain.

Lemma origin_outside : isInsideChina 0 0 = false.
Proof.
  unfold isInsideChina.
  assert (Rgeb 0 0.8293 = false) as -> by (apply Rleb_false; lra).
  reflexivity.
Qed.

(** The standard chain on a stale fix far from the region of the transform:
    the staleness filter marks it, the conversion only records the system. *)
Lemma standard_chain_stale_run :
  chain_process (fmt := sample_format) standard_chain 400000 zero_accuracy_fix
  = (standard_chain,
     Some (setExtra "coordinateSystem" "GCJ02"
             (set_status INVALID zero_accuracy_fix))).
Proof.
  rewrite standard_chain_four_stage, four_stage_chain_run. cbv zeta.
  assert (TimeFilter_apply 300000 400000
            (AccuracyFilter_apply 0 100 zero_accuracy_fix)
          = set_status INVALID zero_accuracy_fix) as ->.
  { unfold AccuracyFilter_apply. now destruct (_ || _). }
  rewrite step_skips by reflexivity. cbn [fst snd].
  unfold CoordinateConverter_convert. cbn [bool_decide decide_rel andb].
  assert (wgs84ToGcj02 (set_status INVALID zero_accuracy_fix)
          = set_status INVALID zero_accuracy_fix) as ->.
  { unfold wgs84ToGcj02. cbn [latitude longitude set_status zero_accuracy_fix].
    now rewrite origin_outside. }
  reflexivity.
Qed.

Lemma zero_accuracy_fix_valid : isValid zero_accuracy_fix = true.
Proof. apply isValid_spec. simpl. repeat split; (lra || lia). Qed.

Lemma convert_outside l :
  isInsideChina (latitude l) (longitude l) = false ->
  CoordinateConverter_convert WGS84 GCJ02 l
  = setExtra "coordinateSystem" "GCJ02" l.
Proof.
  intros Hout. unfold CoordinateConverter_convert.
  cbn [bool_decide decide_rel andb]. unfold wgs84ToGcj02. rewrite Hout.
  cbn [negb]. now rewrite set_coordinates_same.
Qed.


Lemma centre_fix_valid : isValid centre_fix = true.
Proof. apply isValid_spec. simpl. repeat split; (lra || lia). Qed.


Lemma equator_fix_valid : isValid equator_fix = true.
Proof. apply isValid_spec. simpl. repeat split; (lra || lia). Qed.

Lemma equator_outside : isInsideChina 0 1 = false.
Proof.
  unfold isInsideChina.
  assert (Rgeb 0 0.8293 = false) as -> by (apply Rleb_false; lra).
  reflexivity.
Qed.

(** Along the equator the distance is the difference of the longitudes, in
    radians, times the radius. *)
Lemma calculateDistance_equator lon1 lon2 :
  -180 < lon2 - lon1 < 180 ->
  Utils.calculateDistance 0 lon1 0 lon2
  = 6371000 * (Rabs (lon2 - lon1) * PI / 180).
Proof.
  intros Hd. pose proof PI_RGT_0 as Hpi.
  unfold Utils.calculateDistance. cbv zeta.
  replace (0 * PI / 180) with 0 by lra.
  replace ((0 - 0) / 2) with 0 by lra. rewrite sin_0, cos_0.
  set (h := (lon2 * PI / 180 - lon1 * PI / 180) / 2).
  assert (Hh : - (PI / 2) < h < PI / 2).
  { unfold h. split; nra. }
  assert (Hcos : 0 < cos h) by (apply cos_gt_0; lra).
  replace (0 * 0 + 1 * 1 * sin h * sin h) with (Rsqr (sin h))
    by (unfold Rsqr; ring).
  replace (1 - Rsqr (sin h)) with (Rsqr (cos h))
    by (rewrite (sin2 h); ring).
  rewrite sqrt_Rsqr_abs, (sqrt_Rsqr (cos h)) by lra.
  unfold Utils.atan2.
  assert (Rgtb (cos h) 0 = true) as -> by (apply Rgtb_true; lra).
  assert (Habs : Rabs (lon2 - lon1) * PI / 180 = 2 * Rabs h).
  { unfold h. replace ((lon2 * PI / 180 - lon1 * PI / 180) / 2)
      with ((lon2 - lon1) * (PI / 360)) by lra.
    rewrite Rabs_mult, (Rabs_pos_eq (PI / 360)) by lra. lra. }
  rewrite Habs. f_equal. f_equal.
  destruct (Rle_dec 0 h) as [Hpos|Hneg].
  - rewrite (Rabs_pos_eq h) by done.
    rewrite Rabs_pos_eq by (apply sin_ge_0; lra).
    change (sin h / cos h) with (tan h). apply atan_tan. lra.
  - rewrite (Rabs_left h) by lra.
    rewrite Rabs_left by (apply sin_lt_0_var; lra).
    replace (- sin h / cos h) with (tan (- h)).
    + apply atan_tan. lra.
    + unfold tan. rewrite sin_neg, cos_neg. lra.
Qed.

(** The history after four fixes at the origin and one a degree east: the
    stage marks the fix a degree east. *)
Lemma outlier_after_four :
  let h := [zero_accuracy_fix; zero_accuracy_fix; zero_accuracy_fix;
            zero_accuracy_fix; equator_fix] in
  forall once,
    latitude once = 0 -> longitude once = 1 -> isValid once = true ->
    status (OutlierDetection_step (fmt := sample_format)
              (set_history h OutlierDetection_new) once).2 = ANOMALY.
Proof.
  intros h once Hlat Hlon Hv. pose proof PI_RGT_0 as Hpi.
  pose proof PI_gt_3 as Hpi3.
  unfold OutlierDetection_step. rewrite Hv. cbn [negb].
  change ((length (history (set_history h OutlierDetection_new))
           <? minSampleSize (set_history h OutlierDetection_new))%nat)
    with false. cbv iota.
  cbn [history set_history].
  unfold calculateStatistics. cbv zeta.
  set (avgLat := fold_left _ h 0 / _).
  set (avgLon := fold_left _ h 0 / _).
  assert (HavgLat : avgLat = 0).
  { unfold avgLat, h. cbn. lra. }
  assert (HavgLon : avgLon = 1 / 5).
  { unfold avgLon, h. cbn. lra. }
  set (k := 6371000 * (PI / 180)).
  assert (Hk : 100000 < k) by (unfold k; lra).
  assert (Hd1 : Utils.calculateDistance 0 0 avgLat avgLon = k / 5).
  { rewrite HavgLat, HavgLon, calculateDistance_equator by lra.
    rewrite Rabs_pos_eq by lra. unfold k. lra. }
  assert (Hd2 : Utils.calculateDistance 0 1 avgLat avgLon = 4 * k / 5).
  { rewrite HavgLat, HavgLon, calculateDistance_equator by lra.
    rewrite Rabs_left by lra. unfold k. lra. }
  assert (Hdist : map (fun loc => Utils.calculateDistance (latitude loc)
                                    (longitude loc) avgLat avgLon) h
                  = [k / 5; k / 5; k / 5; k / 5; 4 * k / 5]).
  { unfold h. cbn [map latitude longitude zero_accuracy_fix equator_fix
                   set_longitude]. now rewrite Hd1, Hd2. }
  rewrite Hdist, Hlat, Hlon, Hd2. clear Hdist.
  set (sd := Utils.calculateStandardDeviation _).
  assert (Hsd : sd = sqrt (9 / 125 * (k * k))).
  { unfold sd, Utils.calculateStandardDeviation.
    cbn [length Nat.ltb Nat.leb Nat.sub INR].
    unfold Utils.calculateAverage. cbn [fold_left length INR]. cbv zeta.
    f_equal. field. }
  assert (Hlt : sd < 2 / 5 * k).
  { rewrite Hsd. rewrite <- (sqrt_square (2 / 5 * k)) by lra.
    apply sqrt_lt_1_alt. nra. }
  change (thresholdFactor (set_history h OutlierDetection_new)) with 2.
  clearbody k sd.
  destruct (Rltb sd 0.0001) eqn:Eclamp.
  - assert (Rgtb (4 * k / 5) (2 * 1) = true) as ->
      by (apply Rgtb_true; lra).
    reflexivity.
  - assert (Rgtb (4 * k / 5) (2 * sd) = true) as ->
      by (apply Rgtb_true; lra).
    reflexivity.
Qed.

(** The standard chain takes in four fixes at the origin. *)
Lemma standard_chain_warm :
  chain_after (fmt := sample_format) standard_chain 1
    [zero_accuracy_fix; zero_accuracy_fix; zero_accuracy_fix; zero_accuracy_fix]
  = four_stage_chain 0 100 300000
      (set_history [zero_accuracy_fix; zero_accuracy_fix; zero_accuracy_fix;
                    zero_accuracy_fix] OutlierDetection_new) WGS84 GCJ02.
Proof.
  unfold chain_after. cbn [fold_left]. rewrite standard_chain_four_stage.
  repeat (rewrite (four_stage_chain_accepts (fmt := sample_format));
          [cbn [fst history set_history app OutlierDetection_new]
          |exact zero_accuracy_fix_valid|simpl; lra|simpl; lia|simpl; lia]).
  reflexivity.
Qed.

(** C2 fails at the outlier stage too, where the transform moves nothing:
    after four fixes at the origin the standard chain accepts a fix one
    degree east (the history is still short) and returns it valid; run again
    on the fix it returned, the chain marks it as an anomaly, the history now
    holding five fixes, this one among them. *)
Lemma outlier_stage_not_idempotent :
  exists c1 once c2 twice,
    chain_process (fmt := sample_format)
      (chain_after (fmt := sample_format) standard_chain 1
         [zero_accuracy_fix; zero_accuracy_fix; zero_accuracy_fix;
          zero_accuracy_fix]) 1 equator_fix = (c1, Some once) /\
    latitude once = latitude equator_fix /\
    longitude once = longitude equator_fix /\
    status once = VALID /\
    chain_process (fmt := sample_format) c1 1 once = (c2, Some twice) /\
    status twice = ANOMALY.
Proof.
  rewrite standard_chain_warm.
  set (once := setExtra "coordinateSystem" "GCJ02" equator_fix).
  assert (Hvalid : isValid once = true) by exact equator_fix_valid.
  eexists _, once, _, _. split; [|split; [|split; [|split; [|split]]]].
  - rewrite (four_stage_chain_accepts (fmt := sample_format));
      [|exact equator_fix_valid|simpl; lra|simpl; lia|simpl; lia].
    rewrite convert_outside by exact equator_outside. reflexivity.
  - reflexivity.
  - reflexivity.
  - reflexivity.
  - rewrite four_stage_chain_run. cbv zeta. reflexivity.
  - cbn [snd].
    destruct (convert_keeps WGS84 GCJ02
      (OutlierDetection_step (fmt := sample_format)
         (set_history
            (history
               (set_history
                  [zero_accuracy_fix; zero_accuracy_fix; zero_accuracy_fix;
                   zero_accuracy_fix] OutlierDetection_new) ++ [equator_fix])
            (set_history
               [zero_accuracy_fix; zero_accuracy_fix; zero_accuracy_fix;
                zero_accuracy_fix] OutlierDetection_new))
         (TimeFilter_apply 300000 1 (AccuracyFilter_apply 0 100 once))).2)
      as (_ & _ & ->).
    assert (TimeFilter_apply 300000 1 (AccuracyFilter_apply 0 100 once) = once)
      as ->.
    { unfold AccuracyFilter_apply.
      assert (Rltb (accuracy once) 0 = false) as ->
        by (apply Rltb_false; simpl; lra).
      assert (Rgtb (accuracy once) 100 = false) as ->
        by (apply Rltb_false; simpl; lra).
      reflexivity. }
    apply outlier_after_four; [reflexivity|reflexivity|exact Hvalid].
Qed.

(** ** One stage is atomic on error ([BaseDataProcessor::process]) *)

(** C10. [BaseDataProcessor::process] returns a location for every input
    (never [nullptr]); when the stage is disabled, when [doProcess] reports
    failure, or when [doProcess] throws, the returned location is the input
    location, whatever [doProcess] did to its working copy. *)
Theorem process_atomic_on_error {S : Type}
    (doProcess : S -> Z -> LocationInfo -> S * DoProcessResult)
    (isEnabled : bool) (stage : S) (now : Z) (location : LocationInfo) :
  (exists returned,
     (BaseDataProcessor_process doProcess isEnabled stage now location).2
     = Some returned) /\
  (isEnabled = false \/
   (exists stage' partial,
      doProcess stage now location = (stage', Returned false partial)) \/
   (exists stage', doProcess stage now location = (stage', Threw)) ->
   (BaseDataProcessor_process doProcess isEnabled stage now location).2
   = Some location).
Proof.
  unfold BaseDataProcessor_process. split.
  - destruct isEnabled; cbn [negb]; [|eauto].
    destruct (doProcess stage now location) as [stage' [[|] processed|]];
      eauto.
  - intros [->|[(stage' & partial & ->)|(stage' & ->)]].
    + reflexivity.
    + now destruct isEnabled.
    + now destruct isEnabled.
Qed.

(** Witness of [process_atomic_on_error]: a disabled accuracy filter. *)
Lemma process_atomic_on_error_witness :
  (BaseDataProcessor_process (doProcess (fmt := sample_format)) false
     AccuracyFilterProcessor_new 2000 sat_fix).2 = Some sat_fix.
Proof.
  apply (proj2 (process_atomic_on_error (doProcess (fmt := sample_format))
                  false AccuracyFilterProcessor_new 2000 sat_fix)).
  left. reflexivity.
Defined.

(** ** The ingest queue *)

Import Service.

(** C9 (amended). [onLocationDataReceived] appends the fix to the queue; when
    the queue then holds more than [maxQueueSize] elements, the element at
    the front (the oldest) is removed, so a queue that was at capacity keeps
    its length and loses its oldest element (with capacity 0 the fix just
    pushed is the one removed).  Nothing else in the service changes: no drop
    counter is kept.  (Waiting for the queue mutex is not part of this
    model.) *)
Theorem push_evicts_oldest (location : LocationInfo) (s : BaseLocationService) :
  let s' := onLocationDataReceived location s in
  isRunning_ s' = isRunning_ s /\
  maxQueueSize s' = maxQueueSize s /\
  lastLocation_ s' = lastLocation_ s /\
  ((length (locationDataQueue_ s) < maxQueueSize s)%nat ->
   locationDataQueue_ s' = locationDataQueue_ s ++ [location]) /\
  (forall oldest rest,
     locationDataQueue_ s = oldest :: rest ->
     (maxQueueSize s <= length (locationDataQueue_ s))%nat ->
     locationDataQueue_ s' = rest ++ [location] /\
     length (locationDataQueue_ s') = length (locationDataQueue_ s)) /\
  (locationDataQueue_ s = [] -> maxQueueSize s = 0%nat ->
   locationDataQueue_ s' = []).
Proof.
  cbv zeta. unfold onLocationDataReceived. cbn [isRunning_ maxQueueSize
    lastLocation_ locationDataQueue_].
  split; [reflexivity|]. split; [reflexivity|]. split; [reflexivity|].
  split; [|split; [intros oldest rest H Hcap; split|]].
  - intros Hlt.
    assert ((maxQueueSize s <? length (locationDataQueue_ s ++ [location]))%nat
            = false) as ->; [|done].
    apply Nat.ltb_ge. rewrite length_app. simpl. lia.
  - assert ((maxQueueSize s <? length (locationDataQueue_ s ++ [location]))%nat
            = true) as ->.
    { apply Nat.ltb_lt. rewrite length_app. simpl. lia. }
    now rewrite H.
  - assert ((maxQueueSize s <? length (locationDataQueue_ s ++ [location]))%nat
            = true) as ->.
    { apply Nat.ltb_lt. rewrite length_app. simpl. lia. }
    rewrite H. simpl. rewrite length_app. simpl. lia.
  - intros -> ->. reflexivity.
Qed.

(** Witness of [push_evicts_oldest]: a full queue of capacity one. *)
Lemma push_evicts_oldest_witness :
  locationDataQueue_ (onLocationDataReceived wifi_fix full_service)
  = [wifi_fix].
Proof.
  destruct (push_evicts_oldest wifi_fix full_service)
    as (_ & _ & _ & _ & H & _).
  apply (H sat_fix []).
  - reflexivity.
  - simpl. lia.
Defined.

(** C9, as stated, fails: no quantity read off the service can count the
    evictions.  Pushing the satellite fix onto the full queue that holds it
    evicts one element and leaves the service exactly as it was. *)
Lemma no_drop_counter :
  length (locationDataQueue_ full_service) = maxQueueSize full_service /\
  onLocationDataReceived sat_fix full_service = full_service /\
  ~ (exists dropCounter : BaseLocationService -> nat,
       forall s location,
         length (locationDataQueue_ s) = maxQueueSize s ->
         dropCounter (onLocationDataReceived location s)
         = Datatypes.S (dropCounter s)).
Proof.
  split; [reflexivity|]. split; [reflexivity|].
  intros [dropCounter Hcount].
  specialize (Hcount full_service sat_fix eq_refl).
  change (onLocationDataReceived sat_fix full_service) with full_service
    in Hcount.
  lia.
Qed.


(** ** History of the statistical stages, confidence of the detectors *)

Lemma trimHistory_incl n h l : In l (trimHistory n h) -> In l h.
Proof.
  induction h as [|x h IH]; [easy|]. cbn [trimHistory].
  destruct (n <? length (x :: h))%nat; [|easy].
  intros Hin. right. now apply IH.
Qed.

Lemma trimHistory_short n h : (length h <= n)%nat -> trimHistory n h = h.
Proof.
  destruct h as [|x h]; [easy|]. intros Hlen. cbn [trimHistory].
  now assert ((n <? length (x :: h))%nat = false) as ->
    by (apply Nat.ltb_ge; lia).
Qed.

Section OutlierHistory.
Context {fmt : StdFormat}.

(** Every call keeps the history made of locations that were valid when
    they were stored. *)
Lemma outlier_call_keeps_valid o c :
  (forall l, In l (history o) -> isValid l = true) ->
  forall l, In l (history (outlier_call o c)) -> isValid l = true.
Proof.
  intros Hinv l. destruct c as [location|size|factor|]; cbn [outlier_call].
  - unfold OutlierDetection_step.
    destruct (isValid location) eqn:Hv; cbn [negb fst]; [|apply Hinv].
    destruct (_ <? _)%nat; cbn [fst history set_history].
    { rewrite in_app_iff. intros [Hin|[<-|[]]]; [now apply Hinv|done]. }
    destruct (calculateStatistics _) as [[avgLat avgLon] stdDev].
    destruct (Rgtb _ _); cbn [fst history set_history]; [apply Hinv|].
    intros Hin. apply trimHistory_incl, in_app_iff in Hin.
    destruct Hin as [Hin|[<-|[]]]; [now apply Hinv|done].
  - cbn [setMaxHistorySize history]. intros Hin.
    apply Hinv. eapply trimHistory_incl, Hin.
  - apply Hinv.
  - intros [].
Qed.

Lemma outlier_calls_keep_valid calls o :
  (forall l, In l (history o) -> isValid l = true) ->
  forall l, In l (history (outlier_calls calls o)) -> isValid l = true.
Proof.
  revert o. induction calls as [|c calls IH]; intros o Hinv; [exact Hinv|].
  cbn [outlier_calls fold_left]. apply IH.
  now apply outlier_call_keeps_valid.
Qed.

(** The statistical detector stores nothing when it reports an anomaly. *)
Lemma Statistical_anomaly_not_stored s location context :
  Detector.isAnomaly
    (Detector.Statistical_doDetectAnomaly s location context).2 = true ->
  (Detector.Statistical_doDetectAnomaly s location context).1 = s.
Proof.
  unfold Detector.Statistical_doDetectAnomaly.
  destruct (_ <? _)%nat; [discriminate|].
  cbn [snd fst Detector.isAnomaly]. now intros ->.
Qed.

(** C3 (amended). The history of the outlier-detection processor, after any
    sequence of calls on a freshly constructed processor, holds only
    locations that were valid when stored, so their status is [VALID] and
    never [ANOMALY]; the statistical anomaly detector leaves its history
    unchanged whenever it reports the location as an anomaly.  The
    statistical detector does not look at the status of the incoming
    location. *)
Theorem anomaly_kept_out_of_history :
  (forall (calls : list OutlierCall) (l : LocationInfo),
     In l (history (outlier_calls calls OutlierDetection_new)) ->
     status l = VALID /\ status l <> ANOMALY) /\
  (forall (s : Detector.Statistical) (location : LocationInfo)
          (context : list LocationInfo),
     Detector.isAnomaly
       (Detector.Statistical_detectAnomaly s location context).2 = true ->
     (Detector.Statistical_detectAnomaly s location context).1 = s).
Proof.
  split.
  - intros calls l Hin.
    assert (Hv : isValid l = true).
    { apply (outlier_calls_keep_valid calls OutlierDetection_new); [|done].
      intros l' []. }
    apply isValid_spec in Hv as [Hs _]. split; [done|]. now rewrite Hs.
  - intros s location context.
    unfold Detector.Statistical_detectAnomaly, Detector.detectAnomaly.
    destruct (_ || _); [done|].
    apply Statistical_anomaly_not_stored.
Qed.

End OutlierHistory.

(** Mean and deviation of five equal readings. *)
Lemma calculateMean_five v : Detector.calculateMean [v; v; v; v; v] = v.
Proof.
  unfold Detector.calculateMean, calculateAverage. simpl. field.
Qed.

Lemma calculateStandardDeviation_five v :
  Detector.calculateStandardDeviation [v; v; v; v; v] v = 0.
Proof.
  unfold Detector.calculateStandardDeviation. simpl.
  match goal with |- sqrt ?x = 0 => replace x with 0 by field end.
  apply sqrt_0.
Qed.

Lemma zScore_flat value mean : Detector.zScore value mean 0 = 0.
Proof.
  unfold Detector.zScore.
  now assert (Rgtb 0 0 = false) as -> by (apply Rltb_false; lra).
Qed.

(** The statistical detector on a location that repeats the five readings
    of its context: no anomaly, the location is stored, confidence -1. *)
Lemma Statistical_still_run (location : LocationInfo) :
  latitude location = latitude sat_fix ->
  longitude location = longitude sat_fix ->
  accuracy location = accuracy sat_fix ->
  Detector.Statistical_detectAnomaly (fmt := sample_format)
    Detector.Statistical_new location Detector.still_context =
  (Detector.set_history [location] Detector.Statistical_new,
   {| Detector.isAnomaly := false; Detector.confidence := Rmin 1 ((0 - 2) / 2);
      Detector.anomalyInfo := ∅ |}).
Proof.
  intros Hlat Hlon Hacc.
  unfold Detector.Statistical_detectAnomaly, Detector.detectAnomaly.
  cbn [Detector.enabled Detector.base Detector.Statistical_new
       Detector.setThreshold Detector.AnomalyDetector_new negb orb
       Detector.minSampleSize Detector.still_context length Nat.ltb Nat.leb].
  unfold Detector.Statistical_doDetectAnomaly.
  cbn [Detector.enabled Detector.base Detector.Statistical_new
       Detector.setThreshold Detector.AnomalyDetector_new negb orb
       Detector.minSampleSize Detector.still_context length Nat.ltb Nat.leb
       Detector.history app map Detector.zScoreThreshold
       Detector.historySize].
  rewrite !calculateMean_five, !calculateStandardDeviation_five, !zScore_flat.
  assert (Rgtb 0 2 = false) as -> by (apply Rltb_false; lra).
  assert (Rgtb 0 (2 * 2) = false) as -> by (apply Rltb_false; lra).
  cbn [orb negb].
  replace (Rmax (Rmax 0 0) (0 / 2)) with 0.
  2:{ rewrite (Rmax_left 0 0) by lra. rewrite Rmax_left; lra. }
  reflexivity.
Qed.

(** Mean and deviation of the spread latitudes. *)
Lemma calculateMean_spread : Detector.calculateMean [-1; 1; -1; 1; 0] = 0.
Proof.
  unfold Detector.calculateMean, calculateAverage. simpl. field.
Qed.

Lemma calculateStandardDeviation_spread :
  Detector.calculateStandardDeviation [-1; 1; -1; 1; 0] 0 = 1.
Proof.
  unfold Detector.calculateStandardDeviation. simpl.
  match goal with |- sqrt ?x = 1 => replace x with 1 by field end.
  apply sqrt_1.
Qed.

(** The statistical detector reports the fix three deviations north of the
    spread readings. *)
Lemma Statistical_far_fix_flagged :
  Detector.isAnomaly
    (Detector.Statistical_detectAnomaly (fmt := sample_format)
       Detector.Statistical_new Detector.far_fix Detector.spread_context).2
  = true.
Proof.
  unfold Detector.Statistical_detectAnomaly, Detector.detectAnomaly.
  cbn [Detector.enabled Detector.base Detector.Statistical_new
       Detector.setThreshold Detector.AnomalyDetector_new negb orb
       Detector.minSampleSize Detector.spread_context length Nat.ltb Nat.leb].
  unfold Detector.Statistical_doDetectAnomaly.
  cbn [Detector.enabled Detector.base Detector.Statistical_new
       Detector.setThreshold Detector.AnomalyDetector_new negb orb
       Detector.minSampleSize Detector.spread_context length Nat.ltb Nat.leb
       Detector.history app map Detector.zScoreThreshold
       Detector.historySize snd Detector.isAnomaly
       latitude set_latitude].
  rewrite calculateMean_spread, calculateStandardDeviation_spread.
  assert (Detector.zScore (latitude Detector.far_fix) 0 1 = 3) as ->.
  { unfold Detector.zScore.
    assert (Rgtb 1 0 = true) as -> by (apply Rgtb_true; lra).
    cbn [latitude Detector.far_fix set_latitude].
    rewrite Rabs_pos_eq by lra. field. }
  assert (Rgtb 3 2 = true) as -> by (apply Rgtb_true; lra).
  reflexivity.
Qed.

(** Witness of [anomaly_kept_out_of_history]: the satellite fix stored by the
    first call of the outlier stage, and the far fix that the statistical
    detector reports and does not store. *)
Lemma anomaly_kept_out_of_history_witness :
  (status sat_fix = VALID /\ status sat_fix <> ANOMALY) /\
  (Detector.Statistical_detectAnomaly (fmt := sample_format)
     Detector.Statistical_new Detector.far_fix Detector.spread_context).1
  = Detector.Statistical_new.
Proof.
  split.
  - apply (proj1 (anomaly_kept_out_of_history (fmt := sample_format))
             [CallDoProcess sat_fix] sat_fix).
    cbn [outlier_calls fold_left outlier_call].
    unfold OutlierDetection_step. rewrite sat_fix_valid. cbn. now left.
  - apply (proj2 (anomaly_kept_out_of_history (fmt := sample_format))).
    exact Statistical_far_fix_flagged.
Defined.

(** C8, at the failing input: for a location that repeats the five readings
    of its context the statistical detector reports no anomaly with
    confidence -1, outside [0, 1]. *)
Theorem statistical_confidence_below_zero :
  let result :=
    (Detector.Statistical_detectAnomaly (fmt := sample_format)
       Detector.Statistical_new sat_fix Detector.still_context).2 in
  Detector.isAnomaly result = false /\
  Detector.confidence result = -1 /\
  ~ (0 <= Detector.confidence result <= 1).
Proof.
  cbv zeta. rewrite (Statistical_still_run sat_fix) by reflexivity.
  cbn [snd Detector.isAnomaly Detector.confidence].
  assert (Rmin 1 ((0 - 2) / 2) = -1) as ->.
  { rewrite Rmin_right by lra. lra. }
  split; [done|]. split; [done|]. lra.
Qed.

(** C3, as stated, fails: a location whose status is [ANOMALY] and whose
    coordinates repeat the context is reported as no anomaly by the
    statistical detector and is stored in its history. *)
Lemma statistical_history_admits_marked_fix :
  status Detector.marked_fix = ANOMALY /\
  Detector.history
    (Detector.Statistical_detectAnomaly (fmt := sample_format)
       Detector.Statistical_new Detector.marked_fix Detector.still_context).1
  = [Detector.marked_fix].
Proof.
  split; [reflexivity|].
  now rewrite (Statistical_still_run Detector.marked_fix) by reflexivity.
Qed.

Section SiblingDetectors.
Context {fmt : StdFormat}.

(** Whenever the statistical detector evaluates a location, the sign of the
    confidence follows the verdict: at most 0 when it reports no anomaly, in
    (0, 1] when it reports one. *)
Lemma Statistical_confidence_sign s location context :
  0 < Detector.zScoreThreshold s ->
  (Detector.minSampleSize (Detector.base s)
   <= length (context ++ Detector.history s))%nat ->
  let result := (Detector.Statistical_doDetectAnomaly s location context).2 in
  (Detector.isAnomaly result = false -> Detector.confidence result <= 0) /\
  (Detector.isAnomaly result = true -> 0 < Detector.confidence result <= 1).
Proof.
  intros Hthr Hlen. unfold Detector.Statistical_doDetectAnomaly.
  assert ((length (context ++ Detector.history s)
           <? Detector.minSampleSize (Detector.base s))%nat = false) as ->
    by (apply Nat.ltb_ge; lia).
  cbv zeta. cbn [snd Detector.isAnomaly Detector.confidence].
  set (t := Detector.zScoreThreshold s) in *.
  set (z1 := Detector.zScore (latitude location) _ _).
  set (z2 := Detector.zScore (longitude location) _ _).
  set (z3 := Detector.zScore (accuracy location) _ _).
  assert (Hquot : forall m, (m <= t -> (m - t) / t <= 0) /\
                            (t < m -> 0 < (m - t) / t)).
  { intros m. pose proof (Rinv_0_lt_compat t Hthr). unfold Rdiv.
    split; intros; nra. }
  split.
  - rewrite !orb_false_iff, !Rgtb_false. intros [[H1 H2] H3].
    assert (Rmax (Rmax z1 z2) (z3 / 2) <= t) as Hmax.
    { repeat apply Rmax_lub; lra. }
    apply Hquot in Hmax. etransitivity; [apply Rmin_r|exact Hmax].
  - rewrite !orb_true_iff, !Rgtb_true. intros Hsome.
    assert (t < Rmax (Rmax z1 z2) (z3 / 2)) as Hmax.
    { pose proof (Rmax_l (Rmax z1 z2) (z3 / 2)).
      pose proof (Rmax_r (Rmax z1 z2) (z3 / 2)).
      pose proof (Rmax_l z1 z2). pose proof (Rmax_r z1 z2).
      destruct Hsome as [[Hz|Hz]|Hz]; lra. }
    apply Hquot in Hmax. split; [|apply Rmin_l].
    apply Rmin_glb_lt; lra.
Qed.

(** The time-gap detector and the speed detector keep their confidence in
    [0, 1]: they set it only when they report an anomaly. *)
Lemma TimeDifference_confidence_range maxTimeDiff now location context :
  (0 < maxTimeDiff)%Z ->
  0 <= Detector.confidence
         (Detector.TimeDifference_doDetectAnomaly maxTimeDiff now location
            context) <= 1.
Proof.
  intros Hmax. unfold Detector.TimeDifference_doDetectAnomaly.
  destruct (_ <? _)%Z eqn:E; cbn [Detector.confidence Detector.AnomalyResult_clear];
    [|lra].
  apply Z.ltb_lt in E.
  assert (0 < IZR maxTimeDiff) by now apply IZR_lt.
  assert (IZR maxTimeDiff < IZR (now - timestamp location)) by now apply IZR_lt.
  assert (1 < IZR (now - timestamp location) / IZR maxTimeDiff).
  { apply Rmult_lt_reg_r with (IZR maxTimeDiff); [done|].
    unfold Rdiv. rewrite Rmult_assoc, Rinv_l by lra. lra. }
  rewrite Rmin_left by lra. lra.
Qed.

Lemma DistanceDeviation_confidence_range d maxSpeed location context :
  0 < maxSpeed ->
  0 <= Detector.confidence
         (Detector.DistanceDeviation_doDetectAnomaly d maxSpeed location
            context) <= 1.
Proof.
  intros Hmax. unfold Detector.DistanceDeviation_doDetectAnomaly.
  destruct (_ <? _)%nat;
    cbn [Detector.confidence Detector.AnomalyResult_clear]; [lra|].
  destruct (_ && _);
    cbn [Detector.confidence Detector.AnomalyResult_clear]; [|lra].
  destruct (Rgtb _ _) eqn:E;
    cbn [Detector.confidence Detector.AnomalyResult_clear]; [|lra].
  apply Rgtb_true in E.
  match type of E with ?speed > _ =>
    assert (1 < speed / maxSpeed) as Hratio
  end.
  { apply Rmult_lt_reg_r with maxSpeed; [done|].
    unfold Rdiv. rewrite Rmult_assoc, Rinv_l by lra. lra. }
  split.
  - apply Rmin_glb; lra.
  - apply Rmin_l.
Qed.

End SiblingDetectors.


(** ** The line format of the file store *)

Import Storage.

Lemma append_cons (c : ascii) (a b : string) :
  (String c a ++ b)%string = String c (a ++ b).
Proof. reflexivity. Qed.

Lemma append_empty_l (b : string) : ("" ++ b)%string = b.
Proof. reflexivity. Qed.

Ltac unfold_append := rewrite ?append_cons, ?append_empty_l.

Lemma append_empty_r (s : string) : (s ++ "")%string = s.
Proof. induction s as [|c s IH]; unfold_append; congruence. Qed.

Lemma append_assoc (a b c : string) :
  ((a ++ b) ++ c)%string = (a ++ (b ++ c))%string.
Proof. induction a as [|x a IH]; unfold_append; congruence. Qed.

Lemma length_append (a b : string) :
  String.length (a ++ b) = (String.length a + String.length b)%nat.
Proof. induction a as [|x a IH]; unfold_append; simpl; congruence. Qed.

Lemma contains_append c (a b : string) :
  contains c (a ++ b) = contains c a || contains c b.
Proof.
  induction a as [|x a IH]; unfold_append; simpl; [done|].
  rewrite IH. now rewrite orb_assoc.
Qed.

(** *** Tokens of a comma-separated line *)

Lemma tokens_from_piece current piece rest :
  contains "," piece = false ->
  tokens_from current (piece ++ "," ++ rest) =
  (current ++ piece)%string :: stream_tokens rest.
Proof.
  revert current. induction piece as [|c piece IH]; intros current Hplain.
  - unfold_append. cbn [tokens_from Ascii.eqb Bool.eqb].
    rewrite append_empty_r. now destruct rest.
  - cbn [contains] in Hplain. apply orb_false_iff in Hplain as [Hc Hplain].
    rewrite Ascii.eqb_sym in Hc.
    unfold_append. cbn [tokens_from]. rewrite Hc, IH by done.
    now rewrite append_assoc.
Qed.

Lemma tokens_from_end current piece :
  contains "," piece = false ->
  tokens_from current piece = [(current ++ piece)%string].
Proof.
  revert current. induction piece as [|c piece IH]; intros current Hplain.
  - cbn. now rewrite append_empty_r.
  - cbn [contains] in Hplain. apply orb_false_iff in Hplain as [Hc Hplain].
    rewrite Ascii.eqb_sym in Hc.
    cbn [tokens_from]. rewrite Hc, IH by done.
    now rewrite append_assoc.
Qed.

Lemma stream_tokens_piece piece rest :
  contains "," piece = false ->
  stream_tokens (piece ++ "," ++ rest) = piece :: stream_tokens rest.
Proof.
  intros Hplain.
  pose proof (tokens_from_piece "" piece rest Hplain) as H.
  destruct piece; exact H.
Qed.

Lemma stream_tokens_end piece :
  contains "," piece = false -> piece <> ""%string ->
  stream_tokens piece = [piece].
Proof.
  intros Hplain Hne. destruct piece as [|c piece]; [done|].
  exact (tokens_from_end "" (String c piece) Hplain).
Qed.

(** No token holds a comma. *)
Lemma tokens_from_plain current data token :
  contains "," current = false ->
  In token (tokens_from current data) -> contains "," token = false.
Proof.
  revert current. induction data as [|c data IH]; intros current Hcur.
  - cbn. now intros [<-|[]].
  - cbn [tokens_from]. destruct (Ascii.eqb c ",") eqn:Hc.
    + intros [<-|Hin]; [done|]. destruct data as [|c' data']; [done|].
      now apply (IH ""%string).
    + apply IH. rewrite contains_append, Hcur. cbn [contains orb].
      rewrite Ascii.eqb_sym, Hc. reflexivity.
Qed.

Lemma stream_tokens_plain data token :
  In token (stream_tokens data) -> contains "," token = false.
Proof.
  destruct data as [|c data]; [done|]. now apply tokens_from_plain.
Qed.

(** *** One extra *)

Lemma substring_prefix (a b : string) :
  String.substring 0 (String.length a) (a ++ b) = a.
Proof.
  induction a as [|c a IH]; unfold_append; cbn [String.length String.substring];
    [now destruct b|].
  now rewrite IH.
Qed.

Lemma substring_whole (a : string) :
  String.substring 0 (String.length a) a = a.
Proof. induction a as [|c a IH]; simpl; [done|]. now rewrite IH. Qed.

Lemma substring_skip (a b : string) (n : nat) :
  String.substring (String.length a) n (a ++ b) = String.substring 0 n b.
Proof.
  induction a as [|c a IH]; unfold_append;
    cbn [String.length String.substring]; [done|].
  exact IH.
Qed.

Lemma get_after (a : string) (c : ascii) (b : string) :
  String.get (String.length a) (a ++ String c b) = Some c.
Proof.
  induction a as [|x a IH]; unfold_append; cbn [String.length String.get];
    [done|].
  exact IH.
Qed.

Lemma index_colon (key value : string) :
  contains ":" key = false ->
  String.index 0 ":" (key ++ String ":" value) = Some (String.length key).
Proof.
  induction key as [|c key IH]; intros Hplain.
  - now destruct value.
  - cbn [contains] in Hplain. apply orb_false_iff in Hplain as [Hc Hplain].
    apply Ascii.eqb_neq in Hc.
    unfold_append. cbn [String.index String.prefix].
    destruct (ascii_dec ":" c) as [Heq|Hne]; [done|].
    rewrite IH by done. reflexivity.
Qed.

Section RoundTrip.
Context {io : StdText}.

Lemma read_extra_token key value location :
  contains ":" key = false ->
  read_extra (extra_token (key, value)) location = setExtra key value location.
Proof.
  intros Hkey. unfold read_extra, extra_token. cbn [fst snd].
  set (kv := (key ++ String ":" value)%string).
  assert (Htoken : ("[" ++ key ++ ":" ++ value ++ "]")%string
                   = String "[" (kv ++ "]")).
  { subst kv. unfold_append. rewrite append_assoc. now unfold_append. }
  rewrite Htoken.
  assert (Hkv : String.length kv
                = (String.length key + S (String.length value))%nat).
  { subst kv. now rewrite length_append. }
  assert (Hlen : String.length (String "[" (kv ++ "]"))
                 = S (S (String.length kv))).
  { cbn [String.length]. rewrite length_append. cbn [String.length]. lia. }
  rewrite Hlen.
  assert ((3 <=? S (S (String.length kv)))%nat = true) as ->
    by (apply Nat.leb_le; lia).
  replace (S (S (String.length kv)) - 1)%nat with (S (String.length kv))
    by lia.
  replace (S (S (String.length kv)) - 2)%nat with (String.length kv) by lia.
  assert (String.get 0 (String "[" (kv ++ "]")) = Some "["%char) as ->
    by reflexivity.
  assert (String.get (S (String.length kv)) (String "[" (kv ++ "]"))
          = Some "]"%char) as ->.
  { cbn [String.get]. apply get_after. }
  rewrite !bool_decide_eq_true_2 by done. cbn [andb].
  assert (substr 1 (String.length kv) (String "[" (kv ++ "]")) = kv) as ->.
  { unfold substr. cbn [String.substring]. apply substring_prefix. }
  unfold find_colon. subst kv. rewrite index_colon by done.
  unfold substr, substr_from. rewrite substring_prefix.
  replace (String.length key + 1)%nat with (String.length (key ++ ":"))
    by (rewrite length_append; reflexivity).
  replace (key ++ String ":" value)%string with ((key ++ ":") ++ value)%string
    by (rewrite append_assoc; now unfold_append).
  rewrite substring_skip, length_append.
  replace (String.length (key ++ ":") + String.length value
           - String.length (key ++ ":"))%nat with (String.length value)
    by lia.
  now rewrite substring_whole.
Qed.

(** The tokens of a line: the last fixed field, then one token per extra. *)
Lemma stream_tokens_extras piece kvs :
  contains "," piece = false -> piece <> ""%string ->
  Forall (fun kv => plain_extra kv.1 kv.2) kvs ->
  stream_tokens (piece ++ extras_text kvs) = piece :: map extra_token kvs.
Proof.
  intros Hplain Hne Hkvs. revert piece Hplain Hne.
  induction Hkvs as [|[key value] kvs (Hk & _ & Hv) _ IH]; intros piece Hp Hne.
  - cbn. rewrite append_empty_r. now apply stream_tokens_end.
  - cbn [extras_text map].
    change (",[" ++ key ++ ":" ++ value ++ "]" ++ extras_text kvs)%string
      with ("," ++ ("[" ++ key ++ ":" ++ value ++ "]" ++ extras_text kvs))%string.
    rewrite stream_tokens_piece by done. f_equal.
    replace ("[" ++ key ++ ":" ++ value ++ "]" ++ extras_text kvs)%string
      with (extra_token (key, value) ++ extras_text kvs)%string.
    2:{ unfold extra_token. cbn [fst snd].
        repeat (progress (unfold_append; rewrite ?append_assoc)).
        reflexivity. }
    apply IH.
    + unfold extra_token. cbn [fst snd] in *.
      rewrite !contains_append, Hk, Hv. reflexivity.
    + discriminate.
Qed.

(** Reading the extras back in any order rebuilds the map. *)
Lemma read_extras_tokens kvs location :
  Forall (fun kv => plain_extra kv.1 kv.2) kvs ->
  read_extras (map extra_token kvs) location =
  fold_left (fun l kv => setExtra kv.1 kv.2 l) kvs location.
Proof.
  intros Hkvs. revert location.
  induction Hkvs as [|[key value] kvs (_ & Hk & _) _ IH]; intros location;
    [done|].
  cbn [map read_extras fold_left]. now rewrite read_extra_token, IH.
Qed.

Lemma fold_setExtra_fixed kvs location :
  let l' := fold_left (fun l kv => setExtra kv.1 kv.2 l) kvs location in
  timestamp l' = timestamp location /\ latitude l' = latitude location /\
  longitude l' = longitude location /\ altitude l' = altitude location /\
  accuracy l' = accuracy location /\ sourceType l' = sourceType location /\
  status l' = status location /\
  extras l' = fold_left (fun m kv => <[kv.1 := kv.2]> m) kvs (extras location).
Proof.
  revert location. induction kvs as [|kv kvs IH]; intros location; [done|].
  cbn [fold_left]. cbv zeta in IH.
  destruct (IH (setExtra kv.1 kv.2 location))
    as (-> & -> & -> & -> & -> & -> & -> & ->).
  done.
Qed.

Lemma fold_insert_list_to_map (kvs : list (string * string)) :
  fold_left (fun m kv => <[kv.1 := kv.2]> m) kvs (∅ : gmap string string)
  = list_to_map (reverse kvs).
Proof.
  assert (H : forall (m : gmap string string),
    fold_left (fun m kv => <[kv.1 := kv.2]> m) kvs m
    = foldr (fun kv m => <[kv.1 := kv.2]> m) m (reverse kvs)).
  { induction kvs as [|kv kvs IH]; intros m; [done|].
    cbn [fold_left]. rewrite IH, reverse_cons, foldr_app. done. }
  rewrite H. reflexivity.
Qed.

Lemma getExtras_rebuilds (location : LocationInfo) :
  fold_left (fun m kv => <[kv.1 := kv.2]> m) (getExtras location)
    (∅ : gmap string string) = extras location.
Proof.
  rewrite fold_insert_list_to_map.
  transitivity (list_to_map (map_to_list (extras location))
                : gmap string string); [|apply list_to_map_to_list].
  apply list_to_map_proper.
  - rewrite reverse_Permutation.
    unfold getExtras. rewrite merge_sort_Permutation.
    apply NoDup_fst_map_to_list.
  - rewrite reverse_Permutation. unfold getExtras.
    apply merge_sort_Permutation.
Qed.

Lemma getExtras_plain (location : LocationInfo) :
  (forall key value,
     extras location !! key = Some value -> plain_extra key value) ->
  Forall (fun kv => plain_extra kv.1 kv.2) (getExtras location).
Proof.
  intros Hplain. apply List.Forall_forall. intros [key value] Hin.
  apply list_elem_of_In in Hin. unfold getExtras in Hin.
  rewrite merge_sort_Permutation in Hin.
  apply elem_of_map_to_list in Hin. now apply Hplain.
Qed.

Lemma DataSourceType_code_back t :
  DataSourceType_of_code (DataSourceType_code t) = Some t.
Proof. now destruct t. Qed.

Lemma LocationStatus_code_back s :
  LocationStatus_of_code (LocationStatus_code s) = Some s.
Proof. now destruct s. Qed.


(** Whatever the line, the extras read from it hold no comma. *)
Lemma read_extra_plain token location :
  contains "," token = false ->
  (forall key value, extras location !! key = Some value ->
                     contains "," value = false) ->
  forall key value, extras (read_extra token location) !! key = Some value ->
                    contains "," value = false.
Proof.
  intros Htoken Hloc key value. unfold read_extra.
  destruct (_ && _); [|apply Hloc].
  destruct (find_colon _) as [colonPos|]; [|apply Hloc].
  cbn [extras setExtra]. rewrite lookup_insert.
  case_decide as Hk; [|apply Hloc]. intros [= <-].
  unfold substr_from, substr.
  assert (Hsub : forall n m s, contains "," s = false ->
                   contains "," (String.substring n m s) = false).
  { intros n m s. revert n m.
    induction s as [|c s IH]; intros n m Hs.
    - now destruct n, m.
    - cbn [contains] in Hs. apply orb_false_iff in Hs as [Hc Hs].
      destruct n as [|n]; [destruct m as [|m]|];
        cbn [String.substring contains]; [done| |now apply IH].
      rewrite Hc. now apply IH. }
  now apply Hsub, Hsub.
Qed.

Lemma read_extras_plain ss location :
  (forall token, In token ss -> contains "," token = false) ->
  (forall key value, extras location !! key = Some value ->
                     contains "," value = false) ->
  forall key value, extras (read_extras ss location) !! key = Some value ->
                    contains "," value = false.
Proof.
  revert location. induction ss as [|token ss IH]; intros location Hss Hloc;
    [exact Hloc|].
  cbn [read_extras]. apply IH.
  - intros t Ht. apply Hss. now right.
  - apply read_extra_plain; [|done]. apply Hss. now left.
Qed.

Lemma read_field_keeps {A} (conv : string -> Parse A) assign st st' :
  (forall v l, extras (assign v l) = extras l) ->
  read_field conv assign st = inr st' ->
  extras st'.2 = extras st.2 /\ (forall t, In t st'.1 -> In t st.1).
Proof.
  intros Hassign. unfold read_field. destruct st as [[|token ss] l]; cbn.
  - now intros [= <-].
  - destruct (conv token) as [e|v]; cbn; [done|]. intros [= <-]. cbn.
    split; [apply Hassign|]. intros t Ht. now right.
Qed.

Lemma deserializeLocation_plain data parsed :
  deserializeLocation data = inr parsed ->
  forall key value, extras parsed !! key = Some value ->
                    contains "," value = false.
Proof.
  unfold deserializeLocation.
  set (st0 := (stream_tokens data, LocationInfo_default)).
  destruct (read_field _ set_timestamp st0) as [|st1] eqn:E1; [done|].
  cbn [bind].
  destruct (read_field _ set_latitude st1) as [|st2] eqn:E2; [done|].
  cbn [bind].
  destruct (read_field _ set_longitude st2) as [|st3] eqn:E3; [done|].
  cbn [bind].
  destruct (read_field _ set_altitude st3) as [|st4] eqn:E4; [done|].
  cbn [bind].
  destruct (read_field _ set_accuracy st4) as [|st5] eqn:E5; [done|].
  cbn [bind].
  destruct (read_field _ set_sourceType st5) as [|st6] eqn:E6; [done|].
  cbn [bind].
  destruct (read_field _ set_status st6) as [|st7] eqn:E7; [done|].
  cbn [bind]. intros [= <-].
  apply read_field_keeps in E1 as [X1 T1]; [|done].
  apply read_field_keeps in E2 as [X2 T2]; [|done].
  apply read_field_keeps in E3 as [X3 T3]; [|done].
  apply read_field_keeps in E4 as [X4 T4]; [|done].
  apply read_field_keeps in E5 as [X5 T5]; [|done].
  apply read_field_keeps in E6 as [X6 T6]; [|done].
  apply read_field_keeps in E7 as [X7 T7]; [|done].
  apply read_extras_plain.
  - intros token Hin. apply (stream_tokens_plain data). subst st0. cbn in *.
    auto 10.
  - rewrite X7, X6, X5, X4, X3, X2, X1. subst st0. cbn.
    intros key value. now rewrite lookup_empty.
Qed.

End RoundTrip.



Lemma Int_part_IZR (z : Z) : Int_part (IZR z) = z.
Proof. symmetry. apply Int_part_spec. lra. Qed.

Lemma whole_double_reads_back (z : Z) :
  parse_integer (pretty z) = Some z ->
  contains "," (pretty z) = false ->
  pretty z <> ""%string ->
  reads_back (@put_double sample_text) (@stod sample_text) (IZR z).
Proof.
  intros Hparse Hplain Hne. unfold reads_back. cbn [put_double stod sample_text].
  rewrite Int_part_IZR, Hparse. done.
Qed.

Ltac by_running :=
  first [ vm_compute; reflexivity | vm_compute; discriminate ].


(** * Properties of the rest of the library *)

(** ** Distances and bearings *)

Lemma atan_pos t : 0 < t -> 0 < atan t.
Proof. intros H. rewrite <- atan_0. now apply atan_increasing. Qed.

Lemma atan_neg t : t < 0 -> atan t < 0.
Proof. intros H. rewrite <- atan_0. now apply atan_increasing. Qed.

Lemma atan_nonneg t : 0 <= t -> 0 <= atan t.
Proof.
  intros [H| <-]; [apply Rlt_le, atan_pos, H|rewrite atan_0; lra].
Qed.

Lemma atan_nonpos t : t <= 0 -> atan t <= 0.
Proof.
  intros [H| ->]; [apply Rlt_le, atan_neg, H|rewrite atan_0; lra].
Qed.

(** [std::atan2] returns an angle in (-PI, PI]. *)
Lemma atan2_range y x : - PI < Utils.atan2 y x <= PI.
Proof.
  pose proof PI_RGT_0 as Hpi. unfold Utils.atan2.
  pose proof (atan_bound (y / x)) as Hb.
  destruct (Rgtb x 0) eqn:Ex; [lra|]. apply Rgtb_false in Ex.
  destruct (Rltb x 0) eqn:Ex'.
  - apply Rltb_true in Ex'.
    destruct (Rgeb y 0) eqn:Ey.
    + apply Rgeb_true in Ey.
      assert (atan (y / x) <= 0).
      { apply atan_nonpos. unfold Rdiv.
        assert (/ x < 0) by now apply Rinv_lt_0_compat. nra. }
      lra.
    + assert (Hy : y < 0).
      { unfold Rgeb in Ey. apply Rleb_false in Ey. lra. }
      assert (0 < atan (y / x)).
      { apply atan_pos. unfold Rdiv.
        assert (/ x < 0) by now apply Rinv_lt_0_compat. nra. }
      lra.
  - destruct (Rgtb y 0); [lra|]. destruct (Rltb y 0); lra.
Qed.

(** With both arguments non-negative the angle lies in the first quadrant. *)
Lemma atan2_first_quadrant y x :
  0 <= y -> 0 <= x -> 0 <= Utils.atan2 y x <= PI / 2.
Proof.
  intros Hy Hx. pose proof PI_RGT_0 as Hpi. unfold Utils.atan2.
  pose proof (atan_bound (y / x)) as Hb.
  destruct (Rgtb x 0) eqn:Ex.
  - apply Rgtb_true in Ex. split; [|lra].
    apply atan_nonneg. unfold Rdiv.
    assert (0 < / x) by now apply Rinv_0_lt_compat. nra.
  - destruct (Rltb x 0) eqn:Ex'; [apply Rltb_true in Ex'; lra|].
    destruct (Rgtb y 0); [lra|].
    destruct (Rltb y 0) eqn:Ey; [apply Rltb_true in Ey; lra|lra].
Qed.

Lemma calculateDistance_haversine lat1 lon1 lat2 lon2 :
  Utils.calculateDistance lat1 lon1 lat2 lon2 =
  6371000 * (2 * Utils.atan2 (sqrt (Geodesy.haversine lat1 lon1 lat2 lon2))
                   (sqrt (1 - Geodesy.haversine lat1 lon1 lat2 lon2))).
Proof. reflexivity. Qed.

(** The haversine of two points lies in [0, 1]: both square roots of
    [calculateDistance] are taken of non-negative numbers. *)
Lemma haversine_range lat1 lon1 lat2 lon2 :
  0 <= Geodesy.haversine lat1 lon1 lat2 lon2 <= 1.
Proof.
  unfold Geodesy.haversine. cbv zeta.
  set (p1 := lat1 * PI / 180). set (p2 := lat2 * PI / 180).
  set (l := (lon2 * PI / 180 - lon1 * PI / 180) / 2).
  set (d := (p2 - p1) / 2).
  assert (Hd : sin d * sin d = (1 - cos (p2 - p1)) / 2).
  { replace (p2 - p1) with (2 * d) by (unfold d; lra).
    rewrite cos_2a_sin. lra. }
  assert (Hc : cos p1 * cos p2 = (cos (p2 - p1) + cos (p2 + p1)) / 2).
  { rewrite cos_minus, cos_plus. lra. }
  pose proof (COS_bound (p2 - p1)) as [? ?].
  pose proof (COS_bound (p2 + p1)) as [? ?].
  pose proof (SIN_bound l) as [? ?].
  assert (Hs : 0 <= sin l * sin l <= 1) by nra.
  set (s := sin l * sin l) in *.
  replace (sin d * sin d + cos p1 * cos p2 * sin l * sin l)
    with (sin d * sin d + cos p1 * cos p2 * s) by (unfold s; ring).
  rewrite Hd, Hc. nra.
Qed.

Lemma calculateDistance_bounds lat1 lon1 lat2 lon2 :
  0 <= Utils.calculateDistance lat1 lon1 lat2 lon2 <= 6371000 * PI.
Proof.
  rewrite calculateDistance_haversine.
  pose proof (atan2_first_quadrant
                (sqrt (Geodesy.haversine lat1 lon1 lat2 lon2))
                (sqrt (1 - Geodesy.haversine lat1 lon1 lat2 lon2))
                (sqrt_pos _) (sqrt_pos _)) as [H1 H2].
  split; nra.
Qed.

Lemma haversine_sym lat1 lon1 lat2 lon2 :
  Geodesy.haversine lat1 lon1 lat2 lon2 = Geodesy.haversine lat2 lon2 lat1 lon1.
Proof.
  unfold Geodesy.haversine. cbv zeta.
  replace ((lat1 * PI / 180 - lat2 * PI / 180) / 2)
    with (- ((lat2 * PI / 180 - lat1 * PI / 180) / 2)) by lra.
  replace ((lon1 * PI / 180 - lon2 * PI / 180) / 2)
    with (- ((lon2 * PI / 180 - lon1 * PI / 180) / 2)) by lra.
  rewrite !sin_neg. ring.
Qed.

Lemma haversine_self lat lon : Geodesy.haversine lat lon lat lon = 0.
Proof.
  unfold Geodesy.haversine. cbv zeta.
  replace ((lat * PI / 180 - lat * PI / 180) / 2) with 0 by lra.
  replace ((lon * PI / 180 - lon * PI / 180) / 2) with 0 by lra.
  rewrite sin_0. ring.
Qed.

Lemma calculateDistance_self lat lon :
  Utils.calculateDistance lat lon lat lon = 0.
Proof.
  rewrite calculateDistance_haversine, haversine_self.
  rewrite Rminus_0_r, sqrt_0, sqrt_1. unfold Utils.atan2.
  assert (Rgtb 1 0 = true) as -> by (apply Rgtb_true; lra).
  replace (0 / 1) with 0 by lra. rewrite atan_0. lra.
Qed.

Lemma calculateDistance_sym lat1 lon1 lat2 lon2 :
  Utils.calculateDistance lat1 lon1 lat2 lon2 =
  Utils.calculateDistance lat2 lon2 lat1 lon1.
Proof. now rewrite !calculateDistance_haversine, haversine_sym. Qed.

(** X2. The distance does not depend on the order of the two points, and the
    distance of a point to itself is 0. *)
Theorem distance_symmetric lat1 lon1 lat2 lon2 :
  Utils.calculateDistance lat1 lon1 lat2 lon2 =
  Utils.calculateDistance lat2 lon2 lat1 lon1 /\
  Utils.calculateDistance lat1 lon1 lat1 lon1 = 0.
Proof. split; [apply calculateDistance_sym|apply calculateDistance_self]. Qed.


(** ** Averages and deviations *)

Lemma Reqb_true x y : Reqb x y = true <-> x = y.
Proof. unfold Reqb. destruct (Req_dec_T x y); split; intros; easy. Qed.

Lemma Reqb_false x y : Reqb x y = false <-> x <> y.
Proof. unfold Reqb. destruct (Req_dec_T x y); split; intros; easy. Qed.


Lemma fold_Rplus_Rsum (xs : list R) (a : R) :
  fold_left Rplus xs a = a + Rsum xs.
Proof.
  revert a. induction xs as [|x xs IH]; intros a; simpl; [lra|].
  rewrite IH. unfold Rsum. lra.
Qed.

Lemma Rsum_bounds (lo hi : R) (xs : list R) :
  (forall v, In v xs -> lo <= v <= hi) ->
  INR (length xs) * lo <= Rsum xs <= INR (length xs) * hi.
Proof.
  induction xs as [|x xs IH]; intros H.
  - simpl. lra.
  - cbn [Rsum fold_right length]. fold (Rsum xs). rewrite S_INR.
    pose proof (H x (or_introl eq_refl)).
    assert (forall v, In v xs -> lo <= v <= hi) as H' by (intros; apply H; now right).
    specialize (IH H'). lra.
Qed.

Lemma INR_length_pos {A} (xs : list A) : xs <> [] -> 0 < INR (length xs).
Proof. destruct xs; [easy|]. intros _. apply lt_0_INR. simpl. lia. Qed.

Lemma calculateAverage_Rsum (values : list R) :
  values <> [] ->
  Utils.calculateAverage values = Rsum values / INR (length values).
Proof.
  destruct values as [|v vs]; [easy|]. intros _. unfold Utils.calculateAverage.
  rewrite fold_Rplus_Rsum. f_equal. lra.
Qed.

Lemma fold_squares_from (avg : R) (values : list R) (a : R) :
  fold_left (fun sum value => let diff := value - avg in sum + diff * diff)
    values a =
  a + Rsum (map (fun v => (v - avg) * (v - avg)) values).
Proof.
  revert a. induction values as [|v vs IH]; intros a; simpl; [lra|].
  rewrite IH. unfold Rsum. lra.
Qed.

Lemma Rsum_map_plus (c : R) (values : list R) :
  Rsum (map (Rplus c) values) = INR (length values) * c + Rsum values.
Proof.
  induction values as [|v vs IH]; [simpl; lra|].
  cbn [map Rsum fold_right length]. fold (Rsum (map (Rplus c) vs)).
  fold (Rsum vs). rewrite IH, S_INR. lra.
Qed.

Lemma calculateAverage_shift (c : R) (values : list R) :
  values <> [] ->
  Utils.calculateAverage (map (Rplus c) values) =
  c + Utils.calculateAverage values.
Proof.
  intros Hne. rewrite !calculateAverage_Rsum; [|done|now destruct values].
  rewrite length_map, Rsum_map_plus.
  pose proof (INR_length_pos values Hne). field. lra.
Qed.

Lemma weighted_totals_Rsum (values weights : list R) :
  Statistics.weighted_totals values weights =
  (Rsum (zip_with Rmult values weights),
   Rsum (take (length values) weights)).
Proof.
  unfold Statistics.weighted_totals.
  assert (H : forall a b,
    fold_left (fun (sums : R * R) (vw : R * R) =>
                 (sums.1 + vw.1 * vw.2, sums.2 + vw.2))
      (combine values weights) (a, b) =
    (a + Rsum (zip_with Rmult values weights),
     b + Rsum (take (length values) weights))).
  { revert weights. induction values as [|v vs IH]; intros [|w ws] a b; simpl;
      try (f_equal; lra).
    rewrite IH. simpl. unfold Rsum. f_equal; lra. }
  rewrite H. f_equal; lra.
Qed.

(** ** Extras and correction results *)

(** X7. [setExtra] followed by [getExtra] or [hasExtra] on the same key gives
    the value stored and [true]; other keys are not affected; a key that is
    absent reads as the default; validity does not depend on [extras]. *)
Theorem extras_roundtrip (key other value defaultValue : string)
    (l : LocationInfo) :
  getExtra key defaultValue (setExtra key value l) = value /\
  hasExtra key (setExtra key value l) = true /\
  (other <> key ->
   getExtra other defaultValue (setExtra key value l)
   = getExtra other defaultValue l /\
   hasExtra other (setExtra key value l) = hasExtra other l) /\
  (hasExtra key l = false -> getExtra key defaultValue l = defaultValue) /\
  isValid (setExtra key value l) = isValid l.
Proof.
  unfold getExtra, hasExtra, setExtra. cbn [extras].
  split; [now rewrite lookup_insert_eq|].
  split. { rewrite lookup_insert_eq. now apply bool_decide_eq_true_2. }
  split. { intros Hne. now rewrite lookup_insert_ne. }
  split; [|reflexivity].
  intros H. apply bool_decide_eq_false_1 in H.
  destruct (extras l !! key) eqn:E; [|done]. now destruct H.
Qed.

Lemma extras_roundtrip_witness :
  getExtra "floor" "0" (setExtra "bssid" "ab" sat_fix) = "0"%string.
Proof.
  destruct (extras_roundtrip "bssid" "floor" "ab" "0" sat_fix)
    as (_ & _ & H & _).
  destruct H as [-> _]; [discriminate|]. reflexivity.
Defined.


(** ** What [fuse] keeps of its input *)

Section FuseFilter.
Context {fmt : StdFormat}.

Lemma usable_isValid l : usable l = isValid l.
Proof.
  unfold usable. destruct (isValid l) eqn:E; [|reflexivity].
  apply isValid_spec in E as [-> _]. reflexivity.
Qed.

Lemma filter_usable_isValid locations :
  List.filter usable locations = List.filter isValid locations.
Proof. apply List.filter_ext. intros l. apply usable_isValid. Qed.

Lemma filter_filter_same {A} (f : A -> bool) (l : list A) :
  List.filter f (List.filter f l) = List.filter f l.
Proof.
  induction l as [|x l IH]; [reflexivity|]. simpl.
  destruct (f x) eqn:E; [|done]. simpl. now rewrite E, IH.
Qed.

Lemma filter_length_le {A} (f : A -> bool) (l : list A) :
  (length (List.filter f l) <= length l)%nat.
Proof.
  induction l as [|x l IH]; [simpl; lia|]. simpl.
  destruct (f x); simpl; lia.
Qed.

(** X9. The filter of [fuse] keeps exactly the valid fixes (its test of the
    status against [ANOMALY] never rejects a fix that [isValid] accepts), and
    [fuse] gives the same result on the valid fixes alone as on the whole
    input. *)
Theorem fuse_ignores_invalid (e : FusionEngine) (now : Z)
    (locations : list LocationInfo) :
  List.filter usable locations = List.filter isValid locations /\
  fuse e now (List.filter isValid locations) = fuse e now locations.
Proof.
  split; [apply filter_usable_isValid|].
  rewrite <- filter_usable_isValid. unfold fuse.
  destruct (negb (Fusion.enabled (Fusion.base e))); [reflexivity|].
  rewrite filter_filter_same.
  pose proof (filter_length_le usable locations) as Hle.
  destruct (length (List.filter usable locations) <? _)%nat eqn:E.
  - now destruct (length locations <? _)%nat.
  - apply Nat.ltb_ge in E.
    assert ((length locations <? minRequiredSources (Fusion.base e))%nat = false)
      as -> by (apply Nat.ltb_ge; lia).
    reflexivity.
Qed.

End FuseFilter.

(** ** Priority-based fusion *)

Section PrioritySelection.
Context {fmt : StdFormat}.

(** X10. Priority-based fusion returns the coordinates, accuracy, time and
    source of one of its inputs; no input has a source of higher priority,
    and no input of the same priority has a smaller accuracy value. *)
Theorem priority_fusion_selects_best (sp : gmap DataSourceType Z)
    (locations : list LocationInfo) (fused : LocationInfo) :
  PriorityBasedFusion_doFuse sp locations = Some fused ->
  exists selected,
    In selected locations /\
    latitude fused = latitude selected /\
    longitude fused = longitude selected /\
    altitude fused = altitude selected /\
    accuracy fused = accuracy selected /\
    timestamp fused = timestamp selected /\
    sourceType fused = sourceType selected /\
    forall other, In other locations ->
      (getSourcePriority sp (sourceType other)
       <= getSourcePriority sp (sourceType selected))%Z /\
      (getSourcePriority sp (sourceType other)
       = getSourcePriority sp (sourceType selected) ->
       accuracy selected <= accuracy other).
Proof.
  unfold PriorityBasedFusion_doFuse.
  destruct (std_sort (priority_before sp) locations) as [|first rest] eqn:E;
    [discriminate|].
  intros [= <-]. exists first.
  split. { apply (In_std_sort (priority_before sp)). rewrite E. now left. }
  do 6 (split; [reflexivity|]).
  intros other Hin.
  assert (Hmin : priority_before sp other first = false).
  { apply (std_sort_head_minimal (priority_before sp)) with locations rest;
      try done.
    - intros a. apply priority_before_false. right. split; [done|lra].
    - intros a b Hab. apply priority_before_true in Hab.
      apply priority_before_false. destruct Hab as [H|[H1 H2]]; [now left|].
      right. split; [done|lra].
    - intros a b c Hab Hbc.
      apply priority_before_false in Hab, Hbc. apply priority_before_false.
      destruct Hab as [H|[H1 H2]], Hbc as [H'|[H1' H2']]; try (left; lia).
      right. split; [lia|lra]. }
  apply priority_before_false in Hmin. destruct Hmin as [H|[H1 H2]].
  - split; lia.
  - split; [lia|done].
Qed.

End PrioritySelection.

Lemma priority_fusion_selects_best_witness :
  exists selected,
    In selected calm_pair /\
    forall other, In other calm_pair ->
      (getSourcePriority default_sourcePriorities (sourceType other)
       <= getSourcePriority default_sourcePriorities (sourceType selected))%Z.
Proof.
  assert (Hrun : exists fused,
    PriorityBasedFusion_doFuse (fmt := sample_format)
      default_sourcePriorities calm_pair = Some fused).
  { unfold PriorityBasedFusion_doFuse, calm_pair.
    cbn [std_sort sort_insert].
    assert (priority_before default_sourcePriorities wifi_fix sat_fix = false)
      as -> by now vm_compute.
    eauto. }
  destruct Hrun as [fused Hrun].
  destruct (priority_fusion_selects_best (fmt := sample_format)
              default_sourcePriorities calm_pair fused Hrun)
    as (selected & Hin & _ & _ & _ & _ & _ & _ & Hbest).
  exists selected. split; [done|]. intros other Ho. now apply Hbest.
Defined.

(** ** Altitude and accuracy of a weighted average *)

Section WeightedAccuracy.
Context {fmt : StdFormat}.

Lemma weighted_sums_rest (lws : list (LocationInfo * R)) (acc : WeightedSums) :
  weightedAlt (fold_left weighted_step lws acc) =
    weightedAlt acc + Rsum (map (fun lw => altitude lw.1 * lw.2) lws) /\
  ((forall lw, In lw lws -> 0 < accuracy lw.1) ->
   weightedAccuracy (fold_left weighted_step lws acc) =
     weightedAccuracy acc + Rsum (map (fun lw => / accuracy lw.1 * lw.2) lws)).
Proof.
  revert acc. induction lws as [|[l w] lws IH]; intros acc.
  - simpl. split; intros; lra.
  - cbn [fold_left map]. destruct (IH (weighted_step acc (l, w))) as [-> H].
    split; [simpl; lra|]. intros Hpos. rewrite H.
    2:{ intros lw Hin. apply Hpos. now right. }
    specialize (Hpos (l, w) (or_introl eq_refl)). cbn [fst] in Hpos.
    cbn [weighted_step weightedAccuracy map Rsum fold_right fst snd].
    assert (Rgtb (accuracy l) 0 = true) as -> by (apply Rgtb_true; lra).
    fold (Rsum (map (fun lw : LocationInfo * R => / accuracy lw.1 * lw.2) lws)).
    unfold Rdiv. lra.
Qed.

Lemma Forall_map_bounds (f : LocationInfo -> R) lo hi locations :
  (forall l, In l locations -> lo <= f l <= hi) ->
  Forall (fun x => lo <= x <= hi) (map f locations).
Proof.
  intros H. apply List.Forall_forall. intros x Hin.
  apply in_map_iff in Hin as (l & <- & Hl). now apply H.
Qed.

End WeightedAccuracy.

(** ** Footprints *)

Lemma fold_Rmin_ge_lower xs x lo :
  lo <= x -> (forall y, In y xs -> lo <= y) -> lo <= fold_left Rmin xs x.
Proof.
  revert x. induction xs as [|y xs IH]; intros x Hx H; simpl; [done|].
  apply IH.
  - apply Rmin_glb; [done|]. apply H. now left.
  - intros z Hz. apply H. now right.
Qed.

Lemma fold_Rmax_le_upper xs x hi :
  x <= hi -> (forall y, In y xs -> y <= hi) -> fold_left Rmax xs x <= hi.
Proof.
  revert x. induction xs as [|y xs IH]; intros x Hx H; simpl; [done|].
  apply IH.
  - apply Rmax_lub; [done|]. apply H. now left.
  - intros z Hz. apply H. now right.
Qed.

Lemma Rmin_list_ge_lower xs lo :
  xs <> [] -> (forall y, In y xs -> lo <= y) -> lo <= Rmin_list xs.
Proof.
  destruct xs as [|x xs]; [easy|]. intros _ H. simpl.
  apply fold_Rmin_ge_lower; [apply H; now left|].
  intros y Hy. apply H. now right.
Qed.

Lemma Rmax_list_le_upper xs hi :
  xs <> [] -> (forall y, In y xs -> y <= hi) -> Rmax_list xs <= hi.
Proof.
  destruct xs as [|x xs]; [easy|]. intros _ H. simpl.
  apply fold_Rmax_le_upper; [apply H; now left|].
  intros y Hy. apply H. now right.
Qed.

Section FootprintFusion.
Context {fmt : StdFormat}.

Lemma currentSet_below f footprints i :
  (i < length footprints)%nat ->
  forall j, In j (Footprint.currentSet f footprints i) ->
            (j < length footprints)%nat.
Proof.
  intros Hi j [<-|Hin]; [done|].
  apply filter_In in Hin as [Hin _]. apply in_seq in Hin. lia.
Qed.

Lemma select_loop_below f footprints idxs st :
  (forall i, In i idxs -> (i < length footprints)%nat) ->
  (forall j, In j st.1 -> (j < length footprints)%nat) ->
  forall j, In j (fold_left (Footprint.select_step f footprints) idxs st).1 ->
            (j < length footprints)%nat.
Proof.
  revert st. induction idxs as [|i idxs IH]; intros st His Hst; [exact Hst|].
  cbn [fold_left]. apply IH.
  - intros k Hk. apply His. now right.
  - unfold Footprint.select_step. cbv zeta.
    destruct (_ && _); [|exact Hst]. cbn [fst].
    apply currentSet_below, His. now left.
Qed.

(** The selected indices are below the number of locations, and there is at
    least one when a source is required and a location is given. *)
Lemma selection_indices f footprints :
  let st := Footprint.selection f (length footprints) footprints in
  (forall j, In j st.1 -> (j < length footprints)%nat) /\
  ((1 <= minRequiredSources (Footprint.base f))%nat ->
   (0 < length footprints)%nat -> st.1 <> []).
Proof.
  cbv zeta. unfold Footprint.selection. cbv zeta.
  set (st := fold_left _ _ _).
  assert (Hst : forall j, In j st.1 -> (j < length footprints)%nat).
  { apply select_loop_below; [|intros j []].
    intros i Hi. apply in_seq in Hi. lia. }
  destruct (length st.1 <? _)%nat eqn:E; cbn [fst].
  - split.
    + intros j Hin. apply in_app_iff in Hin as [Hin|Hin]; [now apply Hst|].
      apply in_seq in Hin. lia.
    + intros _ Hn Hnil. apply (f_equal (@length nat)) in Hnil.
      rewrite length_app, length_seq in Hnil. simpl in Hnil. lia.
  - split; [exact Hst|]. apply Nat.ltb_ge in E.
    intros Hmin _ Hnil. rewrite Hnil in E. simpl in E. lia.
Qed.

(** X13. Footprint-coherence fusion of a non-empty list of fixes, with at
    least one source required, selects at least one fix, reads [locations]
    only at indices below its size, and returns a location; the extras of
    the result record how many fixes were given and how many selected. *)
Theorem footprint_fusion_selects_inputs (f : Footprint.FootprintCoherenceFusion)
    (now : Z) (locations : list LocationInfo) :
  locations <> [] ->
  (1 <= minRequiredSources (Footprint.base f))%nat ->
  let footprints := map (Footprint.calculateFootprint f) locations in
  let selectedIndices :=
    (Footprint.selection f (length locations) footprints).1 in
  selectedIndices <> [] /\
  (forall index, In index selectedIndices ->
     (index < length locations)%nat) /\
  exists fused,
    Footprint.doFuse f now locations = Some fused /\
    extras fused !! "totalSourceCount"%string
      = Some (sizeToString (length locations)) /\
    extras fused !! "selectedSourceCount"%string
      = Some (sizeToString (length selectedIndices)).
Proof.
  intros Hne Hmin. cbv zeta. unfold Footprint.doFuse. cbv zeta.
  set (footprints := map (Footprint.calculateFootprint f) locations).
  assert (Hlen : length footprints = length locations)
    by (unfold footprints; apply length_map).
  pose proof (selection_indices f footprints) as Hsel. cbv zeta in Hsel.
  rewrite Hlen in Hsel.
  destruct (Footprint.selection f (length locations) footprints)
    as [selectedIndices maxCoherenceScore].
  cbn [fst] in *. destruct Hsel as [Hbelow Hnonempty].
  split. { apply Hnonempty; [done|]. destruct locations; [done|simpl; lia]. }
  split; [exact Hbelow|].
  unfold WeightedAverageFusion_doFuse. cbv zeta.
  eexists. split; [reflexivity|]. cbn [extras setExtra].
  split; [now simplify_map_eq|].
  rewrite length_map. now simplify_map_eq.
Qed.

End FootprintFusion.

Lemma footprint_fusion_selects_inputs_witness :
  exists fused,
    Footprint.doFuse (fmt := sample_format)
      Footprint.FootprintCoherenceFusion_new 2000 calm_pair = Some fused /\
    extras fused !! "totalSourceCount"%string
      = Some (@sizeToString sample_format 2).
Proof.
  destruct (footprint_fusion_selects_inputs (fmt := sample_format)
              Footprint.FootprintCoherenceFusion_new 2000 calm_pair)
    as (_ & _ & fused & Hrun & Htotal & _).
  - discriminate.
  - simpl. lia.
  - exists fused. split; [exact Hrun|exact Htotal].
Defined.

(** ** The history window *)

Lemma trimHistory_drop n h : trimHistory n h = drop (length h - n) h.
Proof.
  induction h as [|x h IH]; [reflexivity|]. cbn [trimHistory].
  destruct (n <? length (x :: h))%nat eqn:E.
  - apply Nat.ltb_lt in E. rewrite IH. simpl in E |- *.
    replace (S (length h) - n)%nat with (S (length h - n)) by lia.
    reflexivity.
  - apply Nat.ltb_ge in E.
    replace (length (x :: h) - n)%nat with 0%nat by lia. reflexivity.
Qed.

Lemma trimHistory_length n h : length (trimHistory n h) = Nat.min n (length h).
Proof. rewrite trimHistory_drop, length_drop. lia. Qed.

Section HistoryBound.
Context {fmt : StdFormat}.

Lemma outlier_call_bounded o c :
  (minSampleSize o <= maxHistorySize o)%nat ->
  (length (history o) <= maxHistorySize o)%nat ->
  (minSampleSize (outlier_call o c) <= maxHistorySize (outlier_call o c))%nat /\
  (length (history (outlier_call o c)) <= maxHistorySize (outlier_call o c))%nat.
Proof.
  intros Hmin Hlen. destruct c as [location|size|factor|]; cbn [outlier_call].
  - unfold OutlierDetection_step.
    destruct (isValid location); cbn [negb fst]; [|done].
    destruct (_ <? _)%nat eqn:E;
      cbn [fst history set_history minSampleSize maxHistorySize].
    { apply Nat.ltb_lt in E. rewrite length_app. simpl. lia. }
    destruct (calculateStatistics _) as [[avgLat avgLon] stdDev].
    destruct (Rgtb _ _);
      cbn [fst history set_history minSampleSize maxHistorySize]; [done|].
    rewrite trimHistory_length. lia.
  - cbn [setMaxHistorySize history minSampleSize maxHistorySize].
    rewrite trimHistory_length. lia.
  - done.
  - cbn. lia.
Qed.

(** X14. However an outlier-detection processor is used after its
    construction (locations processed, limit and threshold changed, history
    cleared), its history never holds more than [maxHistorySize] locations,
    and [maxHistorySize] never falls below [minSampleSize]. *)
Theorem outlier_history_bounded (calls : list OutlierCall) :
  let o := outlier_calls calls OutlierDetection_new in
  (length (history o) <= maxHistorySize o)%nat /\
  (minSampleSize o <= maxHistorySize o)%nat.
Proof.
  cbv zeta.
  assert (H : forall o,
    (minSampleSize o <= maxHistorySize o)%nat ->
    (length (history o) <= maxHistorySize o)%nat ->
    (length (history (outlier_calls calls o))
     <= maxHistorySize (outlier_calls calls o))%nat /\
    (minSampleSize (outlier_calls calls o)
     <= maxHistorySize (outlier_calls calls o))%nat).
  { induction calls as [|c calls IH]; intros o Hmin Hlen; [done|].
    cbn [outlier_calls fold_left].
    destruct (outlier_call_bounded o c Hmin Hlen) as [H1 H2].
    now apply IH. }
  apply H; simpl; lia.
Qed.

End HistoryBound.

(** ** The chain never makes a location valid *)

Lemma isInsideChina_range lat lon :
  isInsideChina lat lon = true -> -90 <= lat <= 90 /\ -180 <= lon <= 180.
Proof.
  unfold isInsideChina. rewrite !andb_true_iff, !Rgeb_true, !Rleb_true. lra.
Qed.

Lemma isValid_status l s : s <> VALID -> isValid (set_status s l) = false.
Proof.
  intros Hs. unfold isValid. cbn [status set_status].
  now rewrite bool_decide_eq_false_2.
Qed.

Section ChainValidity.
Context {fmt : StdFormat}.

(** A location that a stage returns valid was valid when it was given. *)
Lemma doProcess_never_validates stage now l :
  match (doProcess stage now l).2 with
  | Returned _ l' => isValid l' = true -> isValid l = true
  | Threw => True
  end.
Proof.
  destruct stage as [a1 a2|m|o|src tgt]; cbn [doProcess snd].
  - unfold AccuracyFilter_doProcess, AccuracyFilter_apply.
    destruct (_ || _); [|done]. now rewrite isValid_status.
  - unfold TimeFilter_doProcess, TimeFilter_apply. cbv zeta.
    destruct (_ <? _)%Z; [|done]. now rewrite isValid_status.
  - unfold OutlierDetection_doProcess, OutlierDetection_step. cbv zeta.
    cbn [snd].
    destruct (isValid l) eqn:Hv; cbn [negb snd]; [done|].
    now rewrite Hv.
  - unfold CoordinateConverter_doProcess, CoordinateConverter_convert.
    assert (Hconv : forall key value conv,
      (latitude conv = latitude l /\ longitude conv = longitude l) \/
      isInsideChina (latitude l) (longitude l) = true ->
      isValid (setExtra key value
                 (set_longitude (longitude conv)
                    (set_latitude (latitude conv) l))) = true ->
      isValid l = true).
    { intros key value conv Hc Hv. apply isValid_spec in Hv.
      cbn [status latitude longitude accuracy timestamp setExtra
           set_longitude set_latitude] in Hv.
      apply isValid_spec. destruct Hc as [[Hlat Hlon]|Hin].
      - rewrite Hlat, Hlon in Hv. exact Hv.
      - apply isInsideChina_range in Hin. tauto. }
    destruct (bool_decide (src = tgt)); [done|].
    destruct (_ && _).
    { apply Hconv. unfold wgs84ToGcj02. cbv zeta.
      destruct (isInsideChina _ _); cbn [negb]; [now right|now left]. }
    destruct (_ && _); [|done].
    apply Hconv. unfold gcj02ToWgs84. cbv zeta.
    destruct (isInsideChina _ _); cbn [negb]; [now right|now left].
Qed.

Lemma process_never_validates p now l l' :
  (process p now l).2 = Some l' -> isValid l' = true -> isValid l = true.
Proof.
  unfold process, BaseDataProcessor_process.
  destruct (negb (enabled p)); cbn [snd]; [now intros [= ->]|].
  pose proof (doProcess_never_validates (stage p) now l) as H.
  destruct (doProcess (stage p) now l) as [stage' [[|] processed|]];
    cbn [snd] in *; intros [= <-]; done.
Qed.

Lemma process_returns p now l : exists l', (process p now l).2 = Some l'.
Proof.
  unfold process, BaseDataProcessor_process.
  destruct (negb (enabled p)); cbn [snd]; [eauto|].
  destruct (doProcess (stage p) now l) as [stage' [[|] processed|]];
    cbn [snd]; eauto.
Qed.

Lemma process_loop_never_validates stop now ps l :
  isValid (process_loop stop now ps l).2 = true -> isValid l = true.
Proof.
  revert l. induction ps as [|p ps IH]; intros l; [done|].
  cbn [process_loop]. destruct (enabled p).
  - pose proof (process_never_validates p now l) as Hp.
    destruct (process_returns p now l) as [l1 Hl1].
    destruct (process p now l) as [p' processed]. cbn [snd] in *.
    subst processed. specialize (Hp l1 eq_refl).
    destruct (negb (isValid l1) && stop); cbn [snd]; [exact Hp|].
    specialize (IH l1).
    destruct (process_loop stop now ps l1) as [rest' final]. cbn [snd] in *.
    intros Hv. apply Hp, IH, Hv.
  - specialize (IH l).
    destruct (process_loop stop now ps l) as [rest' final]. exact IH.
Qed.

(** X15. Whatever processors a chain holds, in whatever order and state, a
    location that leaves the chain valid was valid when it entered: no
    processor repairs a location, they only mark it ([LOW_ACCURACY],
    [INVALID], [ANOMALY]) or convert coordinates that are already in
    range. *)
Theorem chain_never_validates (c : ProcessorChain) (now : Z)
    (location processed : LocationInfo) :
  (chain_process c now location).2 = Some processed ->
  isValid processed = true ->
  isValid location = true.
Proof.
  unfold chain_process. destruct (processors c) as [|p ps] eqn:E.
  - now intros [= ->].
  - pose proof (process_loop_never_validates (stopOnInvalid c) now (p :: ps)
                  location) as H.
    destruct (process_loop _ now (p :: ps) location) as [ps' final].
    cbn [snd] in *. now intros [= <-].
Qed.

End ChainValidity.

(** Witness of [chain_never_validates]: the satellite fix through a chain
    that holds an accuracy filter. *)
Lemma chain_never_validates_witness :
  (chain_process (fmt := sample_format)
     (addProcessor (DataProcessor_new AccuracyFilterProcessor_new)
        {| processors := []; stopOnInvalid := false |})
     2000 sat_fix).2 = Some sat_fix /\
  isValid sat_fix = true.
Proof.
  assert (Hrun :
    (chain_process (fmt := sample_format)
       (addProcessor (DataProcessor_new AccuracyFilterProcessor_new)
          {| processors := []; stopOnInvalid := false |})
       2000 sat_fix).2 = Some sat_fix).
  { cbn. unfold AccuracyFilter_apply. cbn [accuracy sat_fix].
    assert (Rltb 5 0 = false) as -> by (apply Rltb_false; lra).
    assert (Rgtb 5 100 = false) as -> by (apply Rgtb_false; lra).
    cbn [orb]. rewrite andb_false_r. reflexivity. }
  split; [exact Hrun|].
  exact (chain_never_validates (fmt := sample_format) _ 2000 sat_fix sat_fix
           Hrun sat_fix_valid).
Defined.

(** ** Order of the processors *)

Section SortPermutation.
Context {A : Type} (before : A -> A -> bool).

Lemma sort_insert_Permutation (x : A) l : sort_insert before x l ≡ₚ x :: l.
Proof.
  induction l as [|y l IH]; [reflexivity|]. cbn [sort_insert].
  destruct (before y x); [|reflexivity].
  rewrite IH. apply perm_swap.
Qed.

Lemma std_sort_Permutation l : std_sort before l ≡ₚ l.
Proof.
  induction l as [|x l IH]; [reflexivity|]. cbn [std_sort].
  now rewrite sort_insert_Permutation, IH.
Qed.

End SortPermutation.

Section SortSorted.
Context {A : Type} (key : A -> Z).

Lemma sort_insert_sorted (x : A) l :
  StronglySorted (fun a b => (key a <= key b)%Z) l ->
  StronglySorted (fun a b => (key a <= key b)%Z)
    (sort_insert (fun a b => (key a <? key b)%Z) x l).
Proof.
  induction 1 as [|y l Hs IH Hall]; cbn [sort_insert].
  - repeat constructor.
  - destruct (key y <? key x)%Z eqn:E.
    + apply Z.ltb_lt in E. constructor; [exact IH|].
      rewrite sort_insert_Permutation. constructor; [lia|done].
    + apply Z.ltb_ge in E. constructor; [now constructor|].
      constructor; [exact E|].
      eapply Forall_impl; [exact Hall|]. intros z Hz. cbn in Hz. lia.
Qed.

Lemma std_sort_sorted l :
  StronglySorted (fun a b => (key a <= key b)%Z)
    (std_sort (fun a b => (key a <? key b)%Z) l).
Proof.
  induction l as [|x l IH]; [constructor|]. now apply sort_insert_sorted.
Qed.

End SortSorted.

(** X16. After [addProcessor] the chain holds the processors it held and the
    new one, in ascending order of priority, whatever the order before. *)
Theorem addProcessor_sorts (p : DataProcessor) (c : ProcessorChain) :
  StronglySorted (fun p1 p2 => (priority p1 <= priority p2)%Z)
    (processors (addProcessor p c)) /\
  processors (addProcessor p c) ≡ₚ p :: processors c /\
  stopOnInvalid (addProcessor p c) = stopOnInvalid c.
Proof.
  unfold addProcessor, sortProcessorsByPriority. cbn [processors stopOnInvalid].
  split; [apply (std_sort_sorted priority)|]. split; [|reflexivity].
  rewrite std_sort_Permutation.
  now rewrite Permutation_app_comm.
Qed.

(** ** A chain with every processor disabled *)

Section DisabledChain.
Context {fmt : StdFormat}.

Lemma process_loop_disabled stop now ps l :
  (forall p, In p ps -> enabled p = false) ->
  process_loop stop now ps l = (ps, l).
Proof.
  induction ps as [|p ps IH]; intros H; [reflexivity|].
  cbn [process_loop]. rewrite (H p (or_introl eq_refl)).
  rewrite IH; [reflexivity|]. intros q Hq. apply H. now right.
Qed.

(** X17. After [disableAllProcessors] the chain returns every location as it
    is given and changes no processor; [enableAllProcessors] afterwards
    enables every processor. *)
Theorem disabled_chain_is_identity (c : ProcessorChain) (now : Z)
    (location : LocationInfo) :
  chain_process (Chain.disableAllProcessors c) now location
  = (Chain.disableAllProcessors c, Some location) /\
  Forall (fun p => enabled p = true)
    (processors (Chain.enableAllProcessors (Chain.disableAllProcessors c))).
Proof.
  split.
  - unfold chain_process, Chain.disableAllProcessors, Chain.with_processors.
    cbn [processors stopOnInvalid].
    destruct (map (Chain.setEnabled false) (processors c)) as [|p ps] eqn:E;
      [reflexivity|].
    rewrite process_loop_disabled; [reflexivity|].
    rewrite <- E. intros q Hq. apply in_map_iff in Hq as (q' & <- & _).
    reflexivity.
  - unfold Chain.enableAllProcessors, Chain.disableAllProcessors,
      Chain.with_processors. cbn [processors].
    apply List.Forall_forall. intros q Hq.
    apply in_map_iff in Hq as (q' & <- & _). reflexivity.
Qed.

End DisabledChain.

(** ** A receiver that does not move *)

Section Stationary.
Context {fmt : StdFormat}.

Lemma fold_field_sum (f : LocationInfo -> R) (h : list LocationInfo) (a : R) :
  fold_left (fun s loc => s + f loc) h a = a + Rsum (map f h).
Proof.
  revert a. induction h as [|x h IH]; intros a; simpl; [lra|].
  rewrite IH. unfold Rsum. lra.
Qed.

Lemma Rsum_all_equal (f : LocationInfo -> R) (h : list LocationInfo) (v : R) :
  (forall x, In x h -> f x = v) -> Rsum (map f h) = INR (length h) * v.
Proof.
  induction h as [|x h IH]; intros H; [simpl; lra|].
  cbn [map Rsum fold_right length]. fold (Rsum (map f h)).
  rewrite IH, S_INR by (intros y Hy; apply H; now right).
  rewrite (H x (or_introl eq_refl)). lra.
Qed.

(** The deviation [calculateStatistics] returns is at least 0.0001. *)
Lemma calculateStatistics_deviation h :
  0.0001 <= (calculateStatistics h).2.
Proof.
  unfold calculateStatistics. cbv zeta. cbn [snd].
  destruct (Rltb _ 0.0001) eqn:E; [lra|]. now apply Rltb_false in E.
Qed.

(** X18. While the history of an outlier-detection processor holds only
    locations at one and the same coordinates, a location at these
    coordinates is never marked as an outlier: it is returned as it is
    given, whatever the (positive) threshold factor. *)
Theorem stationary_fix_is_no_outlier (o : OutlierDetection)
    (location : LocationInfo) :
  0 < thresholdFactor o ->
  history o <> [] ->
  (forall h, In h (history o) ->
     latitude h = latitude location /\ longitude h = longitude location) ->
  (OutlierDetection_step o location).2 = location.
Proof.
  intros Hfactor Hne Hsame. unfold OutlierDetection_step.
  destruct (isValid location); cbn [negb]; [|reflexivity].
  destruct (_ <? _)%nat; [reflexivity|].
  pose proof (calculateStatistics_deviation (history o)) as Hdev.
  destruct (calculateStatistics (history o)) as [[avgLat avgLon] stdDev] eqn:E.
  cbn [snd] in Hdev.
  unfold calculateStatistics in E. cbv zeta in E.
  injection E as Hlat Hlon _.
  pose proof (INR_length_pos (history o) Hne) as Hn.
  assert (avgLat = latitude location) as ->.
  { rewrite <- Hlat, fold_field_sum,
      (Rsum_all_equal latitude _ (latitude location))
      by (intros x Hx; now apply Hsame).
    field. lra. }
  assert (avgLon = longitude location) as ->.
  { rewrite <- Hlon, fold_field_sum,
      (Rsum_all_equal longitude _ (longitude location))
      by (intros x Hx; now apply Hsame).
    field. lra. }
  rewrite calculateDistance_self.
  assert (Rgtb 0 (thresholdFactor o * stdDev) = false) as ->; [|reflexivity].
  apply Rgtb_false. nra.
Qed.

End Stationary.

Lemma stationary_fix_is_no_outlier_witness :
  (OutlierDetection_step (fmt := sample_format)
     (set_history Detector.still_context OutlierDetection_new) sat_fix).2 = sat_fix.
Proof.
  apply (stationary_fix_is_no_outlier (fmt := sample_format)).
  - simpl. lra.
  - discriminate.
  - intros h Hin. simpl in Hin.
    destruct Hin as [<-|[<-|[<-|[<-|[<-|[]]]]]]; split; reflexivity.
Defined.

(** ** The speed detector: which earlier fix it compares with *)

Section PreviousSearch.
Context {fmt : StdFormat}.

Lemma previous_search_invariant location context seen st :
  search_invariant location seen st ->
  search_invariant location (seen ++ context)
    (fold_left (Detector.previous_step location) context st).
Proof.
  revert seen st. induction context as [|c context IH]; intros seen st Hinv.
  - now rewrite app_nil_r.
  - cbn [fold_left].
    replace (seen ++ c :: context) with ((seen ++ [c]) ++ context)
      by now rewrite <- app_assoc.
    apply IH. destruct Hinv as (Hfound & Hnone & Hmin).
    unfold Detector.previous_step.
    destruct (timestamp c <? timestamp location)%Z eqn:E1.
    + apply Z.ltb_lt in E1.
      destruct (_ <? Detector.minTimeDiff st)%Z eqn:E2.
      * apply Z.ltb_lt in E2. unfold search_invariant.
        cbn [Detector.foundPrevious Detector.previousLocation
             Detector.minTimeDiff].
        split; [|split; [discriminate|]].
        { intros _. split; [|done]. apply in_app_iff. right. now left. }
        intros c' Hin Hlt. apply in_app_iff in Hin as [Hin|[<-|[]]]; [|lia].
        specialize (Hmin c' Hin Hlt). lia.
      * apply Z.ltb_ge in E2. split; [|split; [exact Hnone|]].
        { intros Hf. destruct (Hfound Hf) as (Hin & Hlt & Hd).
          split; [|done]. apply in_app_iff. now left. }
        intros c' Hin Hlt. apply in_app_iff in Hin as [Hin|[<-|[]]]; [|lia].
        now apply Hmin.
    + apply Z.ltb_ge in E1. split; [|split; [exact Hnone|]].
      { intros Hf. destruct (Hfound Hf) as (Hin & Hlt & Hd).
        split; [|done]. apply in_app_iff. now left. }
      intros c' Hin Hlt. apply in_app_iff in Hin as [Hin|[<-|[]]]; [|lia].
      now apply Hmin.
Qed.

(** X19. When the speed detector reports an anomaly, the fix it compared with
    is a fix of the context that is earlier than the location, no fix of the
    context lies between the two in time, and the distance between them
    divided by their time difference in seconds exceeds [maxSpeed]; when no
    fix of the context is earlier than the location, it reports nothing. *)
Theorem speed_detector_compares_with_latest_earlier_fix
    (d : Detector.AnomalyDetector) (maxSpeed : R) (location : LocationInfo)
    (context : list LocationInfo) :
  (Detector.isAnomaly
     (Detector.DistanceDeviation_doDetectAnomaly d maxSpeed location context)
   = true ->
   exists previous,
     In previous context /\
     (timestamp previous < timestamp location)%Z /\
     (forall c, In c context -> (timestamp c < timestamp location)%Z ->
        (timestamp c <= timestamp previous)%Z) /\
     Utils.calculateDistance (latitude previous) (longitude previous)
       (latitude location) (longitude location)
     / (IZR (timestamp location - timestamp previous) / 1000) > maxSpeed) /\
  ((forall c, In c context -> (timestamp location <= timestamp c)%Z) ->
   Detector.DistanceDeviation_doDetectAnomaly d maxSpeed location context
   = Detector.AnomalyResult_clear).
Proof.
  pose proof (previous_search_invariant location context []
                {| Detector.previousLocation := LocationInfo_default;
                   Detector.foundPrevious := false;
                   Detector.minTimeDiff := Detector.LLONG_MAX |}) as Hinv.
  cbn [app] in Hinv.
  unfold Detector.DistanceDeviation_doDetectAnomaly. cbv zeta.
  set (found := fold_left _ _ _) in *.
  destruct Hinv as (Hfound & Hnone & Hmin).
  { split; [discriminate|]. split; [reflexivity|]. intros c []. }
  split.
  - destruct (_ <? _)%nat; [discriminate|].
    destruct (Detector.foundPrevious found) eqn:Ef; [|discriminate].
    destruct (0 <? _)%Z; cbn [andb]; [|discriminate].
    destruct (Hfound eq_refl) as (Hin & Hlt & Hd).
    destruct (Rgtb _ _) eqn:Eg; [|discriminate]. intros _.
    exists (Detector.previousLocation found).
    split; [done|]. split; [done|]. split.
    + intros c Hc Hclt. specialize (Hmin c Hc Hclt). lia.
    + apply Rgtb_true in Eg. rewrite Hd in Eg. exact Eg.
  - intros Hlate. destruct (_ <? _)%nat; [reflexivity|].
    destruct (Detector.foundPrevious found) eqn:Ef; [|reflexivity].
    destruct (Hfound eq_refl) as (Hin & Hlt & _).
    specialize (Hlate _ Hin). lia.
Qed.

End PreviousSearch.

Lemma speed_detector_compares_with_latest_earlier_fix_witness :
  Detector.DistanceDeviation_doDetectAnomaly (fmt := sample_format)
    Detector.AnomalyDetector_new 30 sat_fix Detector.still_context
  = Detector.AnomalyResult_clear.
Proof.
  apply (speed_detector_compares_with_latest_earlier_fix
           (fmt := sample_format)).
  intros c Hin. simpl in Hin.
  destruct Hin as [<-|[<-|[<-|[<-|[<-|[]]]]]]; simpl; lia.
Defined.

(** ** The time-gap detector *)

Section TimeGap.
Context {fmt : StdFormat}.


End TimeGap.


(** ** The history of the statistical detector *)

Section StatisticalWindow.
Context {fmt : StdFormat}.

Lemma Statistical_detect_cases s location context :
  let r := Detector.Statistical_detectAnomaly s location context in
  r.1 = s \/
  (Detector.enabled (Detector.base s) = true /\
   (Detector.minSampleSize (Detector.base s) <= length context)%nat /\
   Detector.isAnomaly r.2 = false /\
   r.1 = Detector.set_history
           (trimHistory (Detector.historySize s)
              (Detector.history s ++ [location])) s).
Proof.
  cbv zeta. unfold Detector.Statistical_detectAnomaly, Detector.detectAnomaly.
  destruct (Detector.enabled (Detector.base s)); cbn [negb orb]; [|now left].
  destruct (length context <? _)%nat eqn:E; [now left|].
  apply Nat.ltb_ge in E. unfold Detector.Statistical_doDetectAnomaly.
  assert ((length (context ++ Detector.history s)
           <? Detector.minSampleSize (Detector.base s))%nat = false) as ->.
  { apply Nat.ltb_ge. rewrite length_app. lia. }
  cbv zeta. cbn [fst snd Detector.isAnomaly].
  destruct (_ || _); cbn [negb]; [now left|]. right. done.
Qed.

Lemma Statistical_call_bounded s c :
  (length (Detector.history s) <= Detector.historySize s)%nat ->
  (length (Detector.history (StatisticalHistory.call s c))
   <= Detector.historySize (StatisticalHistory.call s c))%nat.
Proof.
  intros H. destruct c; cbn [StatisticalHistory.call].
  - destruct (Statistical_detect_cases s location context)
      as [->|(_ & _ & _ & ->)]; [done|].
    cbn [Detector.set_history Detector.history Detector.historySize].
    rewrite trimHistory_length. lia.
  - unfold Detector.addLocationToHistory.
    cbn [Detector.set_history Detector.history Detector.historySize].
    rewrite trimHistory_length. lia.
  - cbn [StatisticalHistory.setHistorySize Detector.history
         Detector.historySize].
    rewrite trimHistory_length. lia.
  - cbn. lia.
  - exact H.
  - exact H.
  - exact H.
Qed.

(** X21. Through [detectAnomaly] the statistical detector changes its history
    only by appending a location it judged not anomalous, on a call with at
    least [minSampleSize] context fixes (a short context leaves it
    untouched, however long the history); and whatever calls are made on a
    freshly constructed detector, the history never holds more than
    [historySize] locations. *)
Theorem statistical_history_window (s : Detector.Statistical)
    (location : LocationInfo) (context : list LocationInfo)
    (cs : list StatisticalHistory.Call) :
  (let r := Detector.Statistical_detectAnomaly s location context in
   r.1 = s \/
   (Detector.enabled (Detector.base s) = true /\
    (Detector.minSampleSize (Detector.base s) <= length context)%nat /\
    Detector.isAnomaly r.2 = false /\
    r.1 = Detector.set_history
            (trimHistory (Detector.historySize s)
               (Detector.history s ++ [location])) s)) /\
  (length (Detector.history
             (StatisticalHistory.calls cs Detector.Statistical_new))
   <= Detector.historySize
        (StatisticalHistory.calls cs Detector.Statistical_new))%nat.
Proof.
  split; [apply Statistical_detect_cases|].
  assert (H : forall s0,
    (length (Detector.history s0) <= Detector.historySize s0)%nat ->
    (length (Detector.history (StatisticalHistory.calls cs s0))
     <= Detector.historySize (StatisticalHistory.calls cs s0))%nat).
  { induction cs as [|c cs IH]; intros s0 H0; [done|].
    cbn [StatisticalHistory.calls fold_left]. apply IH.
    now apply Statistical_call_bounded. }
  apply H. simpl. lia.
Qed.

End StatisticalWindow.

(** ** Pattern matching *)

Lemma match_extras_range location kvs s :
  s <= Pattern.match_extras location kvs s
    <= s + 0.05 * INR (length kvs).
Proof.
  revert s. induction kvs as [|kv kvs IH]; intros s.
  - simpl. lra.
  - unfold Pattern.match_extras in *. cbn [fold_left length].
    rewrite S_INR.
    destruct (bool_decide _).
    + specialize (IH (s + 0.05)). lra.
    + specialize (IH s). pose proof (pos_INR (length kvs)). lra.
Qed.

(** The similarity is a number in [0, 1]. *)
Lemma matchPattern_range location pattern :
  0 <= Pattern.matchPattern location pattern <= 1.
Proof.
  unfold Pattern.matchPattern. cbv zeta.
  set (s1 := match Pattern.pattern_sourceType pattern with
             | Some t => _ | None => _ end).
  assert (H1 : 0 <= s1.1 /\ (0 <= s1.2)%Z /\ (s1.2 = 0%Z -> s1.1 = 0)).
  { subst s1. destruct (Pattern.pattern_sourceType pattern); cbn [fst snd].
    - destruct (bool_decide _); repeat split; try lra; lia.
    - repeat split; try lra; lia. }
  destruct s1 as [x1 n1]. cbn [fst snd] in H1.
  set (s2 := match Pattern.minAccuracy pattern with
             | Some lo => _ | None => _ end).
  assert (H2 : 0 <= s2.1 /\ (0 <= s2.2)%Z /\ (s2.2 = 0%Z -> s2.1 = 0)).
  { subst s2.
    destruct (Pattern.minAccuracy pattern), (Pattern.maxAccuracy pattern);
      cbn [fst snd]; try exact H1.
    destruct (_ && _); repeat split; try lra; lia. }
  destruct s2 as [x2 n2]. cbn [fst snd] in H2. clear H1.
  set (s3 := match Pattern.pattern_status pattern with
             | Some s => _ | None => _ end).
  assert (H3 : 0 <= s3.1 /\ (0 <= s3.2)%Z /\ (s3.2 = 0%Z -> s3.1 = 0)).
  { subst s3. destruct (Pattern.pattern_status pattern); cbn [fst snd];
      try exact H2.
    destruct (bool_decide _); repeat split; try lra; lia. }
  destruct s3 as [x3 n3]. cbn [fst snd] in H3. clear H2.
  set (s4 := match Pattern.region pattern with
             | Some r => _ | None => _ end).
  assert (H4 : 0 <= s4.1 /\ (0 <= s4.2)%Z /\ (s4.2 = 0%Z -> s4.1 = 0)).
  { subst s4. destruct (Pattern.region pattern); cbn [fst snd];
      try exact H3.
    destruct (Pattern.isPointInRegion _ _); repeat split; try lra; lia. }
  destruct s4 as [x4 n4]. cbn [fst snd] in H4. clear H3.
  set (kvs := merge_sort _ _).
  set (s5 := match kvs with [] => _ | _ => _ end).
  assert (H5 : 0 <= s5.1 /\ (0 <= s5.2)%Z /\ (s5.2 = 0%Z -> s5.1 = 0)).
  { subst s5. destruct kvs as [|kv kvs'] eqn:E; cbn [fst snd];
      try exact H4.
    pose proof (match_extras_range location (kv :: kvs') x4) as Hm.
    repeat split; try lra; try lia. simpl. lia. }
  destruct s5 as [x5 n5]. cbn [fst snd] in H5.
  destruct (0 <? n5)%Z eqn:E.
  - split; [apply Rmin_glb; lra|apply Rmin_l].
  - apply Z.ltb_ge in E. assert (n5 = 0%Z) as Hn by lia.
    destruct H5 as (_ & _ & H5). rewrite (H5 Hn). lra.
Qed.

Section PatternDetector.
Context {fmt : StdFormat}.

Lemma pattern_loop_spec threshold location patterns result :
  let r := Pattern.pattern_loop threshold location patterns result in
  (r = result /\
   forall pattern, In pattern patterns ->
     Pattern.matchPattern location pattern < threshold) \/
  (Detector.isAnomaly r = true /\
   exists pattern, In pattern patterns /\
     threshold <= Pattern.matchPattern location pattern /\
     Detector.confidence r = Pattern.matchPattern location pattern).
Proof.
  cbv zeta. revert result.
  induction patterns as [|p ps IH]; intros result; cbn [Pattern.pattern_loop].
  - left. split; [reflexivity|]. intros p [].
  - cbv zeta. destruct (Rgeb _ threshold) eqn:E.
    + apply Rgeb_true in E. apply Rge_le in E. right.
      set (hit := {| Detector.isAnomaly := true |}).
      destruct (Pattern.isStrict p).
      * split; [reflexivity|]. exists p. split; [now left|]. now split.
      * destruct (IH hit) as [[-> _]|(Hflag & q & Hq & Hge & Hc)].
        -- split; [reflexivity|]. exists p. split; [now left|]. now split.
        -- split; [exact Hflag|]. exists q. split; [now right|]. now split.
    + apply Rleb_false in E.
      destruct (IH result) as [[-> Hnone]|(Hflag & q & Hq & Hge & Hc)].
      * left. split; [reflexivity|]. intros q [<-|Hq]; [lra|now apply Hnone].
      * right. split; [exact Hflag|]. exists q. split; [now right|].
        now split.
Qed.

(** X22. The similarity [matchPattern] computes lies in [0, 1].  The pattern
    detector reports an anomaly exactly when some pattern reaches the
    threshold; its confidence is then the similarity of such a pattern, so
    it lies between the threshold and 1; when no pattern reaches the
    threshold the result is the cleared one (no anomaly, confidence 0). *)
Theorem pattern_detector_verdict (patterns : list Pattern.LocationPattern)
    (threshold : R) (location : LocationInfo) (context : list LocationInfo) :
  let result := Pattern.doDetectAnomaly patterns threshold location context in
  (forall pattern, 0 <= Pattern.matchPattern location pattern <= 1) /\
  (Detector.isAnomaly result = true <->
   exists pattern, In pattern patterns /\
     threshold <= Pattern.matchPattern location pattern) /\
  (Detector.isAnomaly result = true ->
   threshold <= Detector.confidence result <= 1) /\
  (Detector.isAnomaly result = false ->
   result = Detector.AnomalyResult_clear).
Proof.
  cbv zeta. split; [intros p; apply matchPattern_range|].
  assert (Hloop : Pattern.doDetectAnomaly patterns threshold location context
                  = Pattern.pattern_loop threshold location patterns
                      Detector.AnomalyResult_clear).
  { unfold Pattern.doDetectAnomaly. now destruct patterns. }
  rewrite Hloop.
  destruct (pattern_loop_spec threshold location patterns
              Detector.AnomalyResult_clear)
    as [[-> Hnone]|(Hflag & q & Hq & Hge & Hc)]; cbv zeta.
  - cbn [Detector.isAnomaly Detector.AnomalyResult_clear].
    split; [|split; [discriminate|reflexivity]].
    split; [discriminate|]. intros (p & Hp & Hge).
    specialize (Hnone p Hp). lra.
  - rewrite Hflag, Hc. pose proof (matchPattern_range location q).
    split; [|split; [intros _; lra|discriminate]].
    split; [|reflexivity]. intros _. now exists q.
Qed.

End PatternDetector.

Lemma pattern_detector_verdict_witness :
  Pattern.doDetectAnomaly (fmt := sample_format) [wifi_pattern] 0.7 sat_fix []
  = Detector.AnomalyResult_clear.
Proof.
  apply (pattern_detector_verdict (fmt := sample_format)
           [wifi_pattern] 0.7 sat_fix []).
  destruct (Detector.isAnomaly _) eqn:E; [|reflexivity].
  apply (pattern_detector_verdict (fmt := sample_format)
           [wifi_pattern] 0.7 sat_fix []) in E as (p & [<-|[]] & Hge).
  exfalso. revert Hge. unfold Pattern.matchPattern. cbn.
  rewrite map_to_list_empty.
  change (merge_sort key_le []) with (@nil (string * string)).
  rewrite bool_decide_eq_false_2 by discriminate.
  change (0 <? 0 + 1)%Z with true. cbv iota.
  unfold Rmin. destruct (Rle_dec 1 0); lra.
Defined.

(** ** Several detectors *)

Lemma vote_totals_from results n t :
  (0 <= n)%Z ->
  let r := fold_left
    (fun (t : Z * R) result =>
       if Detector.isAnomaly result
       then ((t.1 + 1)%Z, t.2 + Detector.confidence result) else t)
    results (n, t) in
  r.1 = (n + Z.of_nat (length (List.filter Detector.isAnomaly results)))%Z /\
  r.2 = t + Rsum (map Detector.confidence
                    (List.filter Detector.isAnomaly results)).
Proof.
  cbv zeta. revert n t. induction results as [|x xs IH]; intros n t Hn.
  - simpl. split; [lia|lra].
  - cbn [fold_left List.filter]. destruct (Detector.isAnomaly x); cbn [fst snd].
    + destruct (IH (n + 1)%Z (t + Detector.confidence x) ltac:(lia))
        as [-> ->].
      cbn [length map Rsum fold_right].
      fold (Rsum (map Detector.confidence (List.filter Detector.isAnomaly xs))).
      split; [lia|lra].
    + now apply IH.
Qed.

Lemma weighted_totals_confidence (results : list Detector.AnomalyResult)
    (weights : list R) :
  MultiDetector.weighted_totals results weights =
  (Rsum (map (fun rw : Detector.AnomalyResult * R =>
                Detector.confidence rw.1 * rw.2) (combine results weights)),
   Rsum (map snd (combine results weights))).
Proof.
  unfold MultiDetector.weighted_totals.
  generalize (combine results weights) as pairs. intros pairs.
  assert (H : forall a b,
    fold_left (fun (t : R * R) (rw : Detector.AnomalyResult * R) =>
                 (t.1 + Detector.confidence rw.1 * rw.2, t.2 + rw.2))
      pairs (a, b) =
    (a + Rsum (map (fun rw : Detector.AnomalyResult * R =>
                      Detector.confidence rw.1 * rw.2) pairs),
     b + Rsum (map snd pairs))).
  { induction pairs as [|rw pairs IH]; intros a b; simpl;
      [f_equal; lra|].
    rewrite IH. unfold Rsum. f_equal; lra. }
  rewrite H. f_equal; lra.
Qed.

Lemma weighted_confidence_bounds (pairs : list (Detector.AnomalyResult * R)) :
  (forall rw, In rw pairs -> 0 <= Detector.confidence rw.1 <= 1 /\ 0 <= rw.2) ->
  0 <= Rsum (map (fun rw : Detector.AnomalyResult * R =>
                    Detector.confidence rw.1 * rw.2) pairs)
    <= Rsum (map snd pairs).
Proof.
  induction pairs as [|rw pairs IH]; intros H; [simpl; lra|].
  cbn [map Rsum fold_right].
  fold (Rsum (map (fun rw : Detector.AnomalyResult * R =>
                     Detector.confidence rw.1 * rw.2) pairs)).
  fold (Rsum (map snd pairs)).
  destruct (H rw (or_introl eq_refl)) as [Hc Hw].
  assert (forall rw', In rw' pairs ->
            0 <= Detector.confidence rw'.1 <= 1 /\ 0 <= rw'.2) as H'
    by (intros; apply H; now right).
  specialize (IH H'). nra.
Qed.

(** X23. Majority vote reports an anomaly exactly when at least
    [minRequiredDetectors] of the results report one (so never when fewer
    detectors than that ran), and its confidence is the mean confidence of
    the reporting results.  The weighted average reports an anomaly exactly
    when its confidence reaches the threshold, whatever the detectors
    reported: with non-negative weights and confidences and the threshold 0
    of the constructor it reports one for every input.  Both confidences
    stay in [0, 1] when those of the results do. *)
Theorem multi_detector_verdict (minRequiredDetectors : nat) (threshold : R)
    (results : list Detector.AnomalyResult) (weights : list R) :
  let flagged := List.filter Detector.isAnomaly results in
  let vote := MultiDetector.fuseByMajorityVote minRequiredDetectors results in
  let average := MultiDetector.fuseByWeightedAverage threshold results weights in
  (Detector.isAnomaly vote = true <->
   (minRequiredDetectors <= length flagged)%nat) /\
  (flagged <> [] ->
   Detector.confidence vote
   = Rsum (map Detector.confidence flagged) / INR (length flagged)) /\
  (Detector.isAnomaly average = true <->
   threshold <= Detector.confidence average) /\
  ((forall r, In r results -> 0 <= Detector.confidence r <= 1) ->
   (forall w, In w weights -> 0 <= w) ->
   0 <= Detector.confidence vote <= 1 /\
   0 <= Detector.confidence average <= 1 /\
   (threshold = 0 -> Detector.isAnomaly average = true)).
Proof.
  cbv zeta. unfold MultiDetector.fuseByMajorityVote, MultiDetector.vote_totals.
  destruct (vote_totals_from results 0 0 ltac:(lia)) as [Hn Ht].
  cbv zeta in Hn, Ht.
  destruct (fold_left _ results (0%Z, 0)) as [anomalyCount totalConfidence].
  cbn [fst snd] in Hn, Ht. rewrite Z.add_0_l in Hn. rewrite Rplus_0_l in Ht.
  set (flagged := List.filter Detector.isAnomaly results) in *.
  cbn [Detector.isAnomaly Detector.confidence].
  unfold MultiDetector.fuseByWeightedAverage.
  rewrite weighted_totals_confidence.
  cbn [Detector.isAnomaly Detector.confidence].
  set (ws := Rsum (map (fun rw : Detector.AnomalyResult * R =>
                          Detector.confidence rw.1 * rw.2)
                     (combine results weights))).
  set (tw := Rsum (map snd (combine results weights))).
  split; [|split; [|split]].
  - rewrite Z.leb_le, Hn. lia.
  - intros Hne. rewrite Hn, Ht.
    assert ((0 <? Z.of_nat (length flagged))%Z = true) as ->.
    { apply Z.ltb_lt. destruct flagged; [done|simpl; lia]. }
    now rewrite <- INR_IZR_INZ.
  - rewrite Rgeb_true. split; [apply Rge_le|apply Rle_ge].
  - intros Hr Hw.
    assert (Hvote : 0 <= (if (0 <? anomalyCount)%Z
                          then totalConfidence / IZR anomalyCount else 0) <= 1).
    { destruct (0 <? anomalyCount)%Z eqn:E; [|lra].
      apply Z.ltb_lt in E. rewrite Hn in *. rewrite Ht, <- INR_IZR_INZ.
      assert (0 < INR (length flagged)) as Hpos.
      { apply lt_0_INR. lia. }
      pose proof (Rsum_bounds 0 1 (map Detector.confidence flagged)) as Hb.
      rewrite length_map in Hb. destruct Hb as [Hb1 Hb2].
      { intros v Hv. apply in_map_iff in Hv as (r & <- & Hin).
        apply Hr. unfold flagged in Hin. now apply filter_In in Hin. }
      split.
      - apply Rmult_le_reg_r with (INR (length flagged)); [done|].
        unfold Rdiv. rewrite Rmult_assoc, Rinv_l by lra. lra.
      - apply Rmult_le_reg_r with (INR (length flagged)); [done|].
        unfold Rdiv. rewrite Rmult_assoc, Rinv_l by lra. lra. }
    assert (Havg : 0 <= (if Rgtb tw 0 then ws / tw else 0) <= 1).
    { destruct (Rgtb tw 0) eqn:E; [|lra]. apply Rgtb_true in E.
      assert (Hb : 0 <= ws <= tw).
      { apply weighted_confidence_bounds.
        intros [r w] Hin. cbn [fst snd]. split.
        - apply Hr. eapply in_combine_l, Hin.
        - apply Hw. eapply in_combine_r, Hin. }
      destruct Hb as [Hb1 Hb2]. split.
      - apply Rmult_le_reg_r with tw; [lra|].
        unfold Rdiv. rewrite Rmult_assoc, Rinv_l by lra. lra.
      - apply Rmult_le_reg_r with tw; [lra|].
        unfold Rdiv. rewrite Rmult_assoc, Rinv_l by lra. lra. }
    split; [exact Hvote|]. split; [exact Havg|].
    intros ->. apply Rgeb_true. lra.
Qed.

Lemma multi_detector_verdict_witness :
  Detector.isAnomaly
    (MultiDetector.fuseByWeightedAverage
       (Detector.threshold Detector.AnomalyDetector_new)
       [Detector.AnomalyResult_clear; Detector.AnomalyResult_clear] [1; 1])
  = true.
Proof.
  destruct (multi_detector_verdict 2
              (Detector.threshold Detector.AnomalyDetector_new)
              [Detector.AnomalyResult_clear; Detector.AnomalyResult_clear]
              [1; 1]) as (_ & _ & _ & H).
  destruct H as (_ & _ & H).
  - intros r [<-|[<-|[]]]; simpl; lra.
  - intros w [<-|[<-|[]]]; lra.
  - apply H. reflexivity.
Defined.

(** ** Storage in memory *)

Lemma push_length capacity ls location :
  length (MemoryStore.push capacity ls location)
  = if (length ls <? capacity)%nat then S (length ls)
    else Nat.max 1 (length ls).
Proof.
  unfold MemoryStore.push. rewrite length_app. cbn [length].
  destruct (capacity <=? length ls)%nat eqn:E.
  - apply Nat.leb_le in E.
    assert ((length ls <? capacity)%nat = false) as ->
      by (apply Nat.ltb_ge; lia).
    destruct ls; simpl; lia.
  - apply Nat.leb_gt in E.
    assert ((length ls <? capacity)%nat = true) as ->
      by (apply Nat.ltb_lt; lia).
    lia.
Qed.

Lemma last_snoc_Some {A} (l : list A) (x : A) : last (l ++ [x]) = Some x.
Proof. apply last_snoc. Qed.

(** X24. On a storage that is initialised and enabled (its capacity being
    positive, as the constructor and the setters keep it), [store] succeeds,
    the location stored is the one [getLatestLocation] returns, both queries
    find it, and the count grows by one below the capacity and stays as it
    is at or above it.  On a storage that is not initialised or not enabled
    [store] fails and changes nothing, the queries return nothing and there
    is no latest location. *)
Theorem memory_store_roundtrip (location : LocationInfo)
    (s : MemoryStore.MemoryStorage) :
  (MemoryStore.initialized s = true -> MemoryStore.enabled s = true ->
   (0 < MemoryStore.storageCapacity s)%nat ->
   let s' := (MemoryStore.store location s).1 in
   (MemoryStore.store location s).2 = true /\
   MemoryStore.getLatestLocation s' = Some location /\
   In location
     (MemoryStore.queryByTimeRange (timestamp location) (timestamp location)
        s') /\
   In location (MemoryStore.queryByDataSource (sourceType location) s') /\
   MemoryStore.getStoredCount s'
   = (if (MemoryStore.getStoredCount s <? MemoryStore.storageCapacity s)%nat
      then S (MemoryStore.getStoredCount s)
      else MemoryStore.getStoredCount s)) /\
  (MemoryStore.initialized s = false \/ MemoryStore.enabled s = false ->
   MemoryStore.store location s = (s, false) /\
   MemoryStore.getLatestLocation s = None /\
   (forall a b, MemoryStore.queryByTimeRange a b s = []) /\
   (forall t, MemoryStore.queryByDataSource t s = [])).
Proof.
  split.
  - intros Hi He Hcap. cbv zeta. unfold MemoryStore.store. rewrite Hi, He.
    cbn [negb orb fst snd]. split; [reflexivity|].
    unfold MemoryStore.getLatestLocation, MemoryStore.queryByTimeRange,
      MemoryStore.queryByDataSource, MemoryStore.getStoredCount.
    cbn [MemoryStore.set_locations MemoryStore.initialized MemoryStore.enabled
         MemoryStore.locations MemoryStore.storageCapacity].
    rewrite Hi, He. cbn [negb orb].
    assert (Hin : In location
                    (MemoryStore.push (MemoryStore.storageCapacity s)
                       (MemoryStore.locations s) location)).
    { unfold MemoryStore.push. apply in_app_iff. right. now left. }
    split. { unfold MemoryStore.push. apply last_snoc. }
    split. { apply filter_In. split; [done|].
             apply andb_true_iff. split; apply Z.leb_le; lia. }
    split. { apply filter_In. split; [done|].
             now apply bool_decide_eq_true_2. }
    rewrite push_length.
    destruct (_ <? _)%nat eqn:E; [reflexivity|].
    apply Nat.ltb_ge in E. lia.
  - intros Hoff.
    assert (negb (MemoryStore.initialized s) || negb (MemoryStore.enabled s)
            = true) as Hc.
    { destruct Hoff as [-> | ->]; [reflexivity|]. apply orb_true_r. }
    unfold MemoryStore.store, MemoryStore.getLatestLocation,
      MemoryStore.queryByTimeRange, MemoryStore.queryByDataSource.
    now rewrite Hc.
Qed.

Lemma memory_store_roundtrip_witness :
  MemoryStore.getLatestLocation (MemoryStore.store sat_fix open_store).1
  = Some sat_fix /\
  MemoryStore.store sat_fix MemoryStore.MemoryStorage_new
  = (MemoryStore.MemoryStorage_new, false).
Proof.
  split.
  - apply (proj1 (memory_store_roundtrip sat_fix open_store));
      [reflexivity|reflexivity|cbn; lia].
  - apply (proj2 (memory_store_roundtrip sat_fix
                    MemoryStore.MemoryStorage_new)).
    left. reflexivity.
Defined.

Lemma fold_push_drop capacity ls old :
  (0 < capacity)%nat -> (length old <= capacity)%nat ->
  fold_left (MemoryStore.push capacity) ls old
  = drop (length (old ++ ls) - capacity) (old ++ ls).
Proof.
  intros Hcap. revert old. induction ls as [|l ls IH]; intros old Hlen.
  - cbn [fold_left]. rewrite app_nil_r.
    replace (length old - capacity)%nat with 0%nat by lia. reflexivity.
  - cbn [fold_left]. unfold MemoryStore.push at 2.
    destruct (capacity <=? length old)%nat eqn:E.
    + apply Nat.leb_le in E. destruct old as [|o old']; [simpl in E; lia|].
      cbn [tail]. rewrite IH.
      2:{ rewrite length_app. simpl in *. lia. }
      rewrite <- !app_assoc. cbn [app].
      rewrite !length_app. cbn [length]. rewrite !length_app. cbn [length].
      simpl in Hlen, E.
      replace (S (length old' + S (length ls)) - capacity)%nat
        with (S (length old' + S (length ls) - capacity)) by lia.
      reflexivity.
    + apply Nat.leb_gt in E. rewrite IH.
      2:{ rewrite length_app. simpl. lia. }
      now rewrite <- app_assoc.
Qed.

(** X25. [batchStore] stores the locations one after the other as [store]
    does; on a storage that holds no more than its capacity, the storage
    then holds the newest locations, as many as the capacity allows, in the
    order they were stored, and never more than its capacity.  A smaller
    capacity set afterwards evicts nothing. *)
Theorem memory_store_keeps_newest (ls : list LocationInfo)
    (s : MemoryStore.MemoryStorage) (c : nat) :
  MemoryStore.initialized s = true -> MemoryStore.enabled s = true ->
  (MemoryStore.batchStore ls s).1
  = fold_left (fun s l => (MemoryStore.store l s).1) ls s /\
  ((0 < MemoryStore.storageCapacity s)%nat ->
   (MemoryStore.getStoredCount s <= MemoryStore.storageCapacity s)%nat ->
   MemoryStore.locations (MemoryStore.batchStore ls s).1
   = drop (length (MemoryStore.locations s ++ ls)
           - MemoryStore.storageCapacity s)
       (MemoryStore.locations s ++ ls) /\
   (MemoryStore.getStoredCount (MemoryStore.batchStore ls s).1
    <= MemoryStore.storageCapacity s)%nat) /\
  MemoryStore.locations (MemoryStore.setStorageCapacity c s)
  = MemoryStore.locations s.
Proof.
  intros Hi He. split; [|split].
  - unfold MemoryStore.batchStore. rewrite Hi, He. cbn [negb orb fst].
    revert s Hi He. induction ls as [|l ls IH]; intros s Hi He.
    + now destruct s.
    + cbn [fold_left]. unfold MemoryStore.store at 2.
      rewrite Hi, He. cbn [negb orb fst]. rewrite <- IH by done.
      reflexivity.
  - intros Hcap Hlen. unfold MemoryStore.batchStore. rewrite Hi, He.
    cbn [negb orb fst MemoryStore.set_locations MemoryStore.locations
         MemoryStore.getStoredCount].
    rewrite fold_push_drop by done. split; [reflexivity|].
    unfold MemoryStore.getStoredCount in *.
    cbn [MemoryStore.set_locations MemoryStore.locations].
    rewrite length_drop. lia.
  - unfold MemoryStore.setStorageCapacity. now destruct (0 <? c)%nat.
Qed.

Lemma memory_store_keeps_newest_witness :
  MemoryStore.locations
    (MemoryStore.batchStore [sat_fix; wifi_fix; zero_accuracy_fix] open_store).1
  = [wifi_fix; zero_accuracy_fix].
Proof.
  destruct (memory_store_keeps_newest [sat_fix; wifi_fix; zero_accuracy_fix]
              open_store 1 eq_refl eq_refl) as (_ & H & _).
  assert (Hcap : MemoryStore.storageCapacity open_store = 2%nat)
    by reflexivity.
  rewrite (proj1 (H ltac:(rewrite Hcap; lia)
                    ltac:(rewrite Hcap; cbn; lia))).
  reflexivity.
Defined.

(** ** The registry of storages *)

(** ** Order of the keys of a [std::map] *)

Lemma ascii_compare_trans a b c :
  Ascii.compare a b <> Gt -> Ascii.compare b c <> Gt ->
  Ascii.compare a c <> Gt /\
  (Ascii.compare a c = Eq ->
   Ascii.compare a b = Eq /\ Ascii.compare b c = Eq).
Proof.
  unfold Ascii.compare. intros H1 H2.
  rewrite !N.compare_eq_iff in *.
  rewrite N.compare_gt_iff in *. lia.
Qed.

Lemma string_leb_trans s1 s2 s3 :
  String.leb s1 s2 = true -> String.leb s2 s3 = true ->
  String.leb s1 s3 = true.
Proof.
  assert (Hleb : forall a b, String.leb a b = true <-> String.compare a b <> Gt).
  { intros a b. unfold String.leb. destruct (String.compare a b); easy. }
  rewrite !Hleb. revert s2 s3.
  induction s1 as [|a s1 IH]; intros [|b s2] [|c s3]; cbn; try easy.
  intros H1 H2.
  destruct (Ascii.compare a b) eqn:Eab; [| |easy];
    destruct (Ascii.compare b c) eqn:Ebc; try easy.
  - destruct (ascii_compare_trans a b c) as [_ Hac]; [congruence..|].
    apply Ascii.compare_eq_iff in Eab, Ebc. subst.
    assert (Ascii.compare c c = Eq) as -> .
    { unfold Ascii.compare. apply N.compare_refl. }
    now apply IH with s2.
  - apply Ascii.compare_eq_iff in Eab. subst. now rewrite Ebc.
  - apply Ascii.compare_eq_iff in Ebc. subst. now rewrite Eab.
  - unfold Ascii.compare in *. rewrite N.compare_lt_iff in *.
    assert ((N_of_ascii a ?= N_of_ascii c)%N = Lt) as ->; [|easy].
    apply N.compare_lt_iff. lia.
Qed.

Section RegistryOrder.
Context {V : Type}.

Lemma name_le_trans : Transitive (@StorageManager.name_le V).
Proof. intros p q r. unfold StorageManager.name_le. apply string_leb_trans. Qed.

Lemma name_le_total : Total (@StorageManager.name_le V).
Proof. intros p q. unfold StorageManager.name_le. apply String.leb_total. Qed.

(** [begin()] of a non-empty map is an entry of the map, and no key of the
    map is smaller than its key. *)
Lemma begin_least (m : gmap string V) name v :
  m !! name = Some v ->
  exists first w,
    StorageManager.begin m = Some (first, w) /\
    m !! first = Some w /\
    forall k u, m !! k = Some u -> String.leb first k = true.
Proof.
  intros Hm. unfold StorageManager.begin.
  pose proof name_le_trans as Htrans. pose proof name_le_total as Htotal.
  pose proof (merge_sort_Permutation StorageManager.name_le (map_to_list m))
    as Hperm.
  pose proof (StronglySorted_merge_sort StorageManager.name_le
                (map_to_list m)) as Hsorted.
  destruct (merge_sort StorageManager.name_le (map_to_list m))
    as [|[first w] rest] eqn:E.
  - apply Permutation_nil_l in Hperm. symmetry in Hperm.
    apply map_to_list_empty_iff in Hperm. subst. now rewrite lookup_empty in Hm.
  - exists first, w. split; [reflexivity|]. split.
    + apply elem_of_map_to_list. rewrite <- Hperm. now left.
    + intros k u Hk. apply elem_of_map_to_list in Hk. rewrite <- Hperm in Hk.
      apply StronglySorted_inv in Hsorted as [_ Hall].
      apply elem_of_cons in Hk as [[= -> ->]|Hk].
      * destruct (String.leb_total first first); done.
      * rewrite List.Forall_forall in Hall.
        apply list_elem_of_In in Hk. exact (Hall _ Hk).
Qed.

End RegistryOrder.

Section Registry.
Context {Storage : Type} `{EqDecision Storage}.

(** X26. [registerStorage] refuses a null storage and a name that is taken,
    changing nothing; for a free name it succeeds, [getStorage] then returns
    the storage under that name and what it returned under other names, and
    the default storage is the one registered first. *)
Theorem register_storage_roundtrip (name other : string) (storage : Storage)
    (m : StorageManager.StorageManager Storage) :
  StorageManager.registerStorage name None m = (m, false) /\
  (is_Some (StorageManager.getStorage name m) ->
   StorageManager.registerStorage name (Some storage) m = (m, false)) /\
  (StorageManager.getStorage name m = None ->
   let r := StorageManager.registerStorage name (Some storage) m in
   r.2 = true /\
   StorageManager.getStorage name r.1 = Some storage /\
   (other <> name ->
    StorageManager.getStorage other r.1 = StorageManager.getStorage other m) /\
   StorageManager.getDefaultStorage r.1
   = match StorageManager.getDefaultStorage m with
     | None => Some storage
     | Some d => Some d
     end).
Proof.
  unfold StorageManager.registerStorage, StorageManager.getStorage,
    StorageManager.getDefaultStorage.
  split; [reflexivity|]. split.
  - intros [st ->]. reflexivity.
  - intros ->. cbn [fst snd StorageManager.namedStorages
                    StorageManager.defaultStorage].
    split; [reflexivity|]. split; [apply lookup_insert_eq|].
    split; [|reflexivity]. intros Hne. now apply lookup_insert_ne.
Qed.


End Registry.

Lemma register_storage_roundtrip_witness :
  StorageManager.getDefaultStorage
    (StorageManager.registerStorage "memory" (Some 1%nat)
       StorageManager.StorageManager_new).1
  = Some 1%nat.
Proof.
  destruct (register_storage_roundtrip "memory" "file" 1%nat
              StorageManager.StorageManager_new) as (_ & _ & H).
  destruct H as (_ & _ & _ & ->); reflexivity.
Defined.


(** ** The ingest queue over a sequence of fixes *)

Lemma receive_queue_step (location : LocationInfo) (s : BaseLocationService) :
  (length (locationDataQueue_ s) <= maxQueueSize s)%nat ->
  locationDataQueue_ (onLocationDataReceived location s)
  = drop (length (locationDataQueue_ s ++ [location]) - maxQueueSize s)
      (locationDataQueue_ s ++ [location]).
Proof.
  intros Hlen. unfold onLocationDataReceived. cbn [locationDataQueue_].
  rewrite length_app. cbn [length].
  destruct (maxQueueSize s <? _)%nat eqn:E.
  - apply Nat.ltb_lt in E.
    replace (length (locationDataQueue_ s) + 1 - maxQueueSize s)%nat
      with 1%nat by lia.
    now destruct (locationDataQueue_ s ++ [location]).
  - apply Nat.ltb_ge in E.
    replace (length (locationDataQueue_ s) + 1 - maxQueueSize s)%nat
      with 0%nat by lia.
    reflexivity.
Qed.

Lemma drop_drop_snoc {A} (n : nat) (q ls : list A) (x : A) :
  (length q <= n)%nat ->
  drop (length (drop (length (q ++ [x]) - n) (q ++ [x]) ++ ls) - n)
    (drop (length (q ++ [x]) - n) (q ++ [x]) ++ ls)
  = drop (length (q ++ x :: ls) - n) (q ++ x :: ls).
Proof.
  intros Hlen.
  destruct (decide (length q < n)%nat) as [Hlt|Hge].
  - replace (length (q ++ [x]) - n)%nat with 0%nat
      by (rewrite length_app; cbn [length]; lia).
    rewrite drop_0, <- (app_assoc q [x] ls). reflexivity.
  - assert (length q = n) as Hn by lia.
    replace (length (q ++ [x]) - n)%nat with 1%nat
      by (rewrite length_app; cbn [length]; lia).
    destruct q as [|o q'].
    + cbn in Hn. subst n. rewrite !Nat.sub_0_r.
      now rewrite !drop_all.
    + cbn [app drop]. rewrite drop_0, <- (app_assoc q' [x] ls). cbn [app].
      cbn [length] in *.
      replace (S (length (q' ++ x :: ls)) - n)%nat
        with (S (length (q' ++ x :: ls) - n)).
      * reflexivity.
      * rewrite length_app. cbn [length]. lia.
Qed.

(** X28. After any sequence of fixes received by a service whose queue does
    not exceed [maxQueueSize], the queue holds the newest fixes, as many as
    [maxQueueSize] allows, in the order of their arrival; it never exceeds
    [maxQueueSize]. *)
Theorem queue_holds_newest (ls : list LocationInfo) (s : BaseLocationService) :
  (length (locationDataQueue_ s) <= maxQueueSize s)%nat ->
  let s' := fold_left (fun s l => onLocationDataReceived l s) ls s in
  locationDataQueue_ s'
  = drop (length (locationDataQueue_ s ++ ls) - maxQueueSize s)
      (locationDataQueue_ s ++ ls) /\
  (length (locationDataQueue_ s') <= maxQueueSize s)%nat /\
  maxQueueSize s' = maxQueueSize s.
Proof.
  cbv zeta. revert s. induction ls as [|l ls IH]; intros s Hlen.
  - cbn [fold_left]. rewrite app_nil_r.
    replace (length (locationDataQueue_ s) - maxQueueSize s)%nat
      with 0%nat by lia.
    done.
  - cbn [fold_left].
    pose proof (receive_queue_step l s Hlen) as Hstep.
    assert (Hmax : maxQueueSize (onLocationDataReceived l s) = maxQueueSize s)
      by reflexivity.
    assert (Hlen' : (length (locationDataQueue_ (onLocationDataReceived l s))
                     <= maxQueueSize (onLocationDataReceived l s))%nat).
    { rewrite Hstep, Hmax, length_drop, length_app. cbn [length]. lia. }
    destruct (IH _ Hlen') as (Hq & Hb & Hm).
    rewrite Hmax in Hq, Hb, Hm. split; [|split; [exact Hb|exact Hm]].
    rewrite Hq, Hstep. now apply drop_drop_snoc.
Qed.

Lemma queue_holds_newest_witness :
  locationDataQueue_
    (fold_left (fun s l => onLocationDataReceived l s)
       [wifi_fix; zero_accuracy_fix] full_service)
  = [zero_accuracy_fix].
Proof.
  destruct (queue_holds_newest [wifi_fix; zero_accuracy_fix] full_service)
    as [-> _]; [simpl; lia|reflexivity].
Defined.

(** ** The batching service *)

Lemma receive_all_conserves ls s :
  let r := HighPerformance.receive_all ls s in
  concat r.2 ++ HighPerformance.batchLocationQueue_ r.1
  = HighPerformance.batchLocationQueue_ s ++ ls /\
  HighPerformance.batchProcessingSize_ r.1
  = HighPerformance.batchProcessingSize_ s /\
  (forall b, In b r.2 ->
     (HighPerformance.batchProcessingSize_ s <= length b)%nat) /\
  ((length (HighPerformance.batchLocationQueue_ s)
    < HighPerformance.batchProcessingSize_ s)%nat ->
   (length (HighPerformance.batchLocationQueue_ r.1)
    < HighPerformance.batchProcessingSize_ s)%nat /\
   forall b, In b r.2 ->
     length b = HighPerformance.batchProcessingSize_ s).
Proof.
  cbv zeta. revert s. induction ls as [|l ls IH]; intros s.
  - cbn [HighPerformance.receive_all fst snd concat app].
    rewrite app_nil_r. split; [done|]. split; [done|].
    split; [intros b []|]. intros H. split; [done|intros b []].
  - cbn [HighPerformance.receive_all].
    unfold HighPerformance.onLocationDataReceived. cbv zeta.
    destruct (_ <=? _)%nat eqn:E.
    + apply Nat.leb_le in E.
      specialize (IH (HighPerformance.set_queue [] s)).
      destruct (HighPerformance.receive_all ls _) as [s'' batches].
      cbn [fst snd HighPerformance.set_queue
           HighPerformance.batchLocationQueue_
           HighPerformance.batchProcessingSize_] in *.
      destruct IH as (Hc & Hs & Hb & Hq).
      split. { cbn [concat]. rewrite <- app_assoc, Hc. cbn [app].
               now rewrite <- app_assoc. }
      split; [done|]. split.
      { intros b [<-|Hin]; [done|now apply Hb]. }
      intros Hshort. rewrite length_app in E. cbn [length] in E.
      assert (0 < HighPerformance.batchProcessingSize_ s)%nat as Hpos by lia.
      destruct (Hq Hpos) as [Hq1 Hq2]. split; [done|].
      intros b [<-|Hin]; [|now apply Hq2].
      rewrite length_app. cbn [length]. lia.
    + apply Nat.leb_gt in E.
      specialize (IH (HighPerformance.set_queue
                        (HighPerformance.batchLocationQueue_ s ++ [l]) s)).
      destruct (HighPerformance.receive_all ls _) as [s'' batches].
      cbn [fst snd HighPerformance.set_queue
           HighPerformance.batchLocationQueue_
           HighPerformance.batchProcessingSize_] in *.
      destruct IH as (Hc & Hs & Hb & Hq).
      split. { rewrite Hc. now rewrite <- app_assoc. }
      split; [done|]. split; [done|].
      intros _. now apply Hq.
Qed.

(** X29. The batching service loses no fix and keeps their order: the batches
    handed to [processBatchData], one after the other, followed by the fixes
    still waiting, are the fixes that were waiting before followed by those
    received.  Started with fewer waiting fixes than [batchProcessingSize_],
    every batch holds exactly [batchProcessingSize_] fixes and fewer than
    that are left waiting. *)
Theorem batches_conserve_fixes (ls : list LocationInfo)
    (s : HighPerformance.HighPerformanceLocationService) :
  let r := HighPerformance.receive_all ls s in
  concat r.2 ++ HighPerformance.batchLocationQueue_ r.1
  = HighPerformance.batchLocationQueue_ s ++ ls /\
  ((length (HighPerformance.batchLocationQueue_ s)
    < HighPerformance.batchProcessingSize_ s)%nat ->
   (length (HighPerformance.batchLocationQueue_ r.1)
    < HighPerformance.batchProcessingSize_ s)%nat /\
   forall b, In b r.2 ->
     length b = HighPerformance.batchProcessingSize_ s).
Proof.
  cbv zeta. destruct (receive_all_conserves ls s) as (H1 & _ & _ & H2).
  now split.
Qed.

Lemma batches_conserve_fixes_witness :
  (length (HighPerformance.batchLocationQueue_
             (HighPerformance.receive_all
                [sat_fix; wifi_fix; zero_accuracy_fix] batch_of_two).1)
   < HighPerformance.batchProcessingSize_ batch_of_two)%nat.
Proof.
  apply (proj2 (batches_conserve_fixes [sat_fix; wifi_fix; zero_accuracy_fix]
                  batch_of_two)).
  cbn. lia.
Defined.

(** X30. A location put in the cache by [updateLocationCache] is the one
    [getCurrentLocation] returns (the cache size being positive, as the
    constructor and [initialize] keep it); the cache holds the newest
    locations, never more than [cacheSize_]; with an empty cache
    [getCurrentLocation] falls back on [lastLocation_]. *)
Theorem cache_returns_latest (location : LocationInfo)
    (s : HighPerformance.HighPerformanceLocationService) :
  let s' := HighPerformance.updateLocationCache location s in
  HighPerformance.locationCache_ s'
  = drop (length (HighPerformance.locationCache_ s ++ [location])
          - HighPerformance.cacheSize_ s)
      (HighPerformance.locationCache_ s ++ [location]) /\
  (length (HighPerformance.locationCache_ s')
   <= HighPerformance.cacheSize_ s)%nat /\
  ((0 < HighPerformance.cacheSize_ s)%nat ->
   HighPerformance.getCurrentLocation s' = Some location) /\
  (HighPerformance.locationCache_ s = [] ->
   HighPerformance.getCurrentLocation s = HighPerformance.lastLocation_ s).
Proof.
  cbv zeta. unfold HighPerformance.updateLocationCache,
    HighPerformance.getCurrentLocation.
  cbn [HighPerformance.locationCache_ HighPerformance.lastLocation_].
  rewrite trimHistory_drop.
  split; [reflexivity|]. split.
  { rewrite length_drop. lia. }
  split; [|now intros ->].
  intros Hpos.
  set (cache := HighPerformance.locationCache_ s).
  set (k := (length (cache ++ [location]) - HighPerformance.cacheSize_ s)%nat).
  assert (Hk : (k <= length cache)%nat).
  { unfold k. rewrite length_app. cbn [length]. lia. }
  rewrite drop_app_le by done.
  assert (last (drop k cache ++ [location]) = Some location) as Hlast
    by apply last_snoc.
  destruct (drop k cache ++ [location]) eqn:E; [|exact Hlast].
  now apply app_eq_nil in E as [_ E].
Qed.

Lemma cache_returns_latest_witness :
  HighPerformance.getCurrentLocation
    (HighPerformance.updateLocationCache wifi_fix
       (HighPerformance.updateLocationCache sat_fix batch_of_two))
  = Some wifi_fix.
Proof.
  apply (cache_returns_latest wifi_fix
           (HighPerformance.updateLocationCache sat_fix batch_of_two)).
  cbn. lia.
Defined.
